(** * cortex_scaffold: name normalisation, validation, artifact generation
      and structure checking, embedded from [cortex_scaffold.py]. *)

From Stdlib Require Import List NArith ZArith Bool Lia.
From Stdlib Require String Ascii DecimalString.
Import String.StringSyntax Ascii.AsciiSyntax.
Open Scope string_scope.
Open Scope list_scope.
Import ListNotations.

(* ================================================================== *)
(** * Part I. Definitions                                              *)
(* ================================================================== *)

(** ** Python text

    A Python [str] is a sequence of Unicode code points. *)

Definition codepoint := N.
Definition pystr := list codepoint.

(** A literal of the source, written here as an ASCII string. *)
Definition lit (s : String.string) : pystr :=
  map Ascii.N_of_ascii (String.list_ascii_of_string s).

Fixpoint pystr_eqb (a b : pystr) : bool :=
  match a, b with
  | [], [] => true
  | x :: a', y :: b' => (x =? y)%N && pystr_eqb a' b'
  | _, _ => false
  end.

Definition str_in (s : pystr) (l : list pystr) : bool :=
  existsb (pystr_eqb s) l.

Definition in_range (lo hi c : N) : bool := ((lo <=? c) && (c <=? hi))%N.

Definition hyphen : codepoint := 45%N.
Definition underscore : codepoint := 95%N.
Definition slash : codepoint := 47%N.
Definition newline : codepoint := 10%N.
Definition dquote : codepoint := 34%N.

Definition is_hyphen (c : codepoint) : bool := (c =? hyphen)%N.
Definition is_underscore (c : codepoint) : bool := (c =? underscore)%N.
Definition is_lower_az (c : codepoint) : bool := in_range 97 122 c.
Definition is_upper_AZ (c : codepoint) : bool := in_range 65 90 c.
Definition is_digit09 (c : codepoint) : bool := in_range 48 57 c.

(** [\s] of a [str] pattern, which is also what [str.strip()] removes:
    the code points CPython classifies as whitespace. *)
Definition py_isspace (c : codepoint) : bool :=
  in_range 9 13 c || in_range 28 32 c
  || (c =? 133)%N || (c =? 160)%N || (c =? 5760)%N
  || in_range 8192 8202 c
  || (c =? 8232)%N || (c =? 8233)%N || (c =? 8239)%N
  || (c =? 8287)%N || (c =? 12288)%N.

(** [str.lower()], one code point at a time.  Besides [A-Z], two code
    points lower-case into ASCII: U+0130 (to [i] followed by U+0307) and
    U+212A, the Kelvin sign (to [k]).  The lower-case form of every other
    code point lies outside ASCII; both callers delete whatever lies
    outside their ASCII class right after lowering, and the model leaves
    those code points as they are. *)
Definition lower_cp (c : codepoint) : pystr :=
  if is_upper_AZ c then [(c + 32)%N]
  else if (c =? 304)%N then [105%N; 775%N]
  else if (c =? 8490)%N then [107%N]
  else [c].

Definition py_lower (s : pystr) : pystr := flat_map lower_cp s.

(** [re.sub(r'[...]+', rep, s)]: every maximal run of code points of the
    class [P] is replaced by [rep].  [inrun] tells whether the previous
    code point belonged to a run. *)
Fixpoint sub_runs (P : codepoint -> bool) (rep : pystr) (inrun : bool)
  (s : pystr) : pystr :=
  match s with
  | [] => []
  | c :: t =>
      if P c then
        if inrun then sub_runs P rep true t
        else rep ++ sub_runs P rep true t
      else c :: sub_runs P rep false t
  end.

Definition re_sub_runs (P : codepoint -> bool) (rep s : pystr) : pystr :=
  sub_runs P rep false s.

(** [re.sub(r'[^...]', '', s)]: only the code points of the class stay. *)
Definition re_keep (P : codepoint -> bool) (s : pystr) : pystr := filter P s.

Fixpoint lstrip (P : codepoint -> bool) (s : pystr) : pystr :=
  match s with
  | [] => []
  | c :: t => if P c then lstrip P t else s
  end.

Fixpoint rstrip (P : codepoint -> bool) (s : pystr) : pystr :=
  match s with
  | [] => []
  | c :: t =>
      match rstrip P t with
      | [] => if P c then [] else [c]
      | r => c :: r
      end
  end.

(** [s.strip(chars)], [P] being membership in [chars]. *)
Definition strip (P : codepoint -> bool) (s : pystr) : pystr :=
  rstrip P (lstrip P s).

(** ** NameNormalizer *)

Definition space_or_underscore (c : codepoint) : bool :=
  py_isspace c || is_underscore c.
Definition space_or_hyphen (c : codepoint) : bool :=
  py_isspace c || is_hyphen c.

(** The class [[a-z0-9-]]. *)
Definition kebab_char (c : codepoint) : bool :=
  is_lower_az c || is_digit09 c || is_hyphen c.
(** The class [[a-z0-9_]]. *)
Definition snake_char (c : codepoint) : bool :=
  is_lower_az c || is_digit09 c || is_underscore c.

Definition to_kebab_case (name : pystr) : pystr :=
  let name := re_sub_runs space_or_underscore [hyphen] name in
  let name := py_lower name in
  let name := re_keep kebab_char name in
  let name := re_sub_runs is_hyphen [hyphen] name in
  strip is_hyphen name.

Definition to_snake_case (name : pystr) : pystr :=
  let name := re_sub_runs space_or_hyphen [underscore] name in
  let name := py_lower name in
  let name := re_keep snake_char name in
  let name := re_sub_runs is_underscore [underscore] name in
  strip is_underscore name.

(** Properties of a normalised name. *)
Definition head_is (P : codepoint -> bool) (s : pystr) : bool :=
  match s with
  | [] => false
  | c :: _ => P c
  end.

Fixpoint last_is (P : codepoint -> bool) (s : pystr) : bool :=
  match s with
  | [] => false
  | c :: t =>
      match t with
      | [] => P c
      | _ :: _ => last_is P t
      end
  end.

(** No two neighbours both in [P]. *)
Fixpoint no_double (P : codepoint -> bool) (s : pystr) : bool :=
  match s with
  | [] => true
  | a :: t => negb (P a && head_is P t) && no_double P t
  end.

(** [not s] for a [str]. *)
Definition py_not (s : pystr) : bool :=
  match s with
  | [] => true
  | _ :: _ => false
  end.

(** [f"{x}"] for an [Optional[str]]. *)
Definition format_opt (x : option pystr) : pystr :=
  match x with
  | Some s => s
  | None => lit "None"
  end.

Definition decimal (z : Z) : pystr :=
  lit (DecimalString.NilZero.string_of_int (Z.to_int z)).

(** ** Paths and the file system

    A [Path] is kept as the list of its components from the root.
    [path_join p s] is [p / s]: [s] is cut at the slashes, empty and [.]
    components are dropped, and a segment that starts with a slash
    replaces [p].

    The file system is the tree of directories and files, and nothing
    else.  An operation fails for what the tree holds (a file in the
    way, a directory where a file is to be written) and for a text that
    UTF-8 does not encode.  What a system refuses for other reasons
    (rights, free space, the length of a name or of a path, a NUL in a
    name) is not part of it: where a statement says that an operation
    goes through, it is on a system that refuses nothing for such
    reasons. *)

Definition path := list pystr.

Fixpoint split_on (sep : codepoint) (s : pystr) : list pystr :=
  match s with
  | [] => [[]]
  | c :: t =>
      if (c =? sep)%N then [] :: split_on sep t
      else match split_on sep t with
           | [] => [[c]]
           | h :: r => (c :: h) :: r
           end
  end.

Definition real_part (part : pystr) : bool :=
  negb (py_not part) && negb (pystr_eqb part (lit ".")).

Definition path_parts (s : pystr) : list pystr :=
  filter real_part (split_on slash s).

Definition is_slash (c : codepoint) : bool := (c =? slash)%N.

Definition path_join (p : path) (s : pystr) : path :=
  if head_is is_slash s then path_parts s
  else p ++ path_parts s.

Fixpoint path_eqb (p q : path) : bool :=
  match p, q with
  | [], [] => true
  | a :: p', b :: q' => pystr_eqb a b && path_eqb p' q'
  | _, _ => false
  end.

(** What a file holds: the [str] given to [write_text], or the [bytes]
    given to [write_bytes] (one [Z] in [0, 256) per byte). *)
Inductive payload :=
| Text (content : pystr)
| Binary (content : list Z).

Inductive node :=
| Dir
| File (content : payload).

Definition filesystem := path -> option node.

(** What is at [p]; the root is always there, and is a directory. *)
Definition fs_node (fs : filesystem) (p : path) : option node :=
  match p with
  | [] => Some Dir
  | _ :: _ => fs p
  end.

(** [p.exists()] and [p.is_dir()]. *)
Definition fs_exists (fs : filesystem) (p : path) : bool :=
  match fs_node fs p with
  | Some _ => true
  | None => false
  end.

Definition fs_is_dir (fs : filesystem) (p : path) : bool :=
  match fs_node fs p with
  | Some Dir => true
  | _ => false
  end.

Definition fs_put (fs : filesystem) (p : path) (n : node) : filesystem :=
  fun q => if path_eqb p q then Some n else fs q.

(** What a run reads from its surroundings. *)
Record datetime := {
  dt_year : Z;
  dt_month : Z;
  dt_day : Z;
  dt_hour : Z;
  dt_minute : Z;
  dt_second : Z
}.

Record host := {
  cwd : path;
  now : datetime;
  environ : pystr -> option pystr
}.

(** ** Validator *)

(** [keyword.kwlist] of the Python runtime. *)
Definition kwlist : list pystr :=
  [lit "False"; lit "None"; lit "True"; lit "and"; lit "as"; lit "assert";
   lit "async"; lit "await"; lit "break"; lit "class"; lit "continue";
   lit "def"; lit "del"; lit "elif"; lit "else"; lit "except";
   lit "finally"; lit "for"; lit "from"; lit "global"; lit "if";
   lit "import"; lit "in"; lit "is"; lit "lambda"; lit "nonlocal";
   lit "not"; lit "or"; lit "pass"; lit "raise"; lit "return"; lit "try";
   lit "while"; lit "with"; lit "yield"].

Definition iskeyword (s : pystr) : bool := str_in s kwlist.

(** [str.isidentifier()] and [str.isdigit()] on ASCII text; the code calls
    them on the result of [to_snake_case] only, which is ASCII. *)
Definition ident_start (c : codepoint) : bool :=
  is_lower_az c || is_upper_AZ c || is_underscore c.
Definition ident_continue (c : codepoint) : bool :=
  ident_start c || is_digit09 c.
Definition isidentifier (s : pystr) : bool :=
  match s with
  | [] => false
  | c :: t => ident_start c && forallb ident_continue t
  end.

Definition reserved_names : list pystr :=
  [lit "import"; lit "from"; lit "as"; lit "if"; lit "else"; lit "elif";
   lit "for"; lit "while"; lit "def"; lit "class"; lit "return";
   lit "pass"; lit "break"; lit "continue"; lit "try"; lit "except";
   lit "finally"; lit "raise"; lit "assert"; lit "with"; lit "lambda";
   lit "yield"; lit "del"; lit "global"; lit "nonlocal"; lit "in";
   lit "is"; lit "not"; lit "and"; lit "or"; lit "None"; lit "True";
   lit "False"; lit "print"; lit "input"; lit "open"; lit "file";
   lit "main"; lit "init"; lit "utils"; lit "config"; lit "test";
   lit "docs"].

Definition msg_module_empty : pystr := lit "Module name cannot be empty".
Definition msg_module_becomes_empty (module_name : pystr) : pystr :=
  lit "Module name '" ++ module_name ++ lit "' becomes empty after processing".
Definition msg_module_too_long (module_name : pystr) : pystr :=
  lit "Module name '" ++ module_name ++ lit "' is too long (max 50 characters)".
Definition msg_module_too_short (module_name : pystr) : pystr :=
  lit "Module name '" ++ module_name ++ lit "' is too short".
Definition msg_module_not_identifier (module_name snake_name : pystr) : pystr :=
  lit "Module name '" ++ module_name
  ++ lit "' is not a valid Python identifier (after conversion: '"
  ++ snake_name ++ lit "')".
Definition msg_module_keyword (module_name snake_name : pystr) : pystr :=
  lit "Module name '" ++ module_name
  ++ lit "' is a Python keyword (after conversion: '"
  ++ snake_name ++ lit "')".
Definition msg_module_reserved (module_name snake_name : pystr) : pystr :=
  lit "Module name '" ++ module_name
  ++ lit "' conflicts with reserved name (after conversion: '"
  ++ snake_name ++ lit "')".
Definition msg_module_digit (module_name snake_name : pystr) : pystr :=
  lit "Module name '" ++ module_name
  ++ lit "' cannot start with a number (after conversion: '"
  ++ snake_name ++ lit "')".

Definition validate_module_name (module_name : pystr) : bool * option pystr :=
  if py_not module_name || py_not (strip py_isspace module_name) then
    (false, Some msg_module_empty)
  else
    let snake_name := to_snake_case module_name in
    if py_not snake_name then
      (false, Some (msg_module_becomes_empty module_name))
    else if (50 <? length snake_name)%nat then
      (false, Some (msg_module_too_long module_name))
    else if (length snake_name <? 1)%nat then
      (false, Some (msg_module_too_short module_name))
    else if negb (isidentifier snake_name) then
      (false, Some (msg_module_not_identifier module_name snake_name))
    else if iskeyword snake_name then
      (false, Some (msg_module_keyword module_name snake_name))
    else if str_in (py_lower snake_name) reserved_names then
      (false, Some (msg_module_reserved module_name snake_name))
    else if negb (py_not snake_name) && head_is is_digit09 snake_name then
      (false, Some (msg_module_digit module_name snake_name))
    else (true, None).

(** The entries of [errors] in [validate_modules], before they are
    formatted: which of the two [errors.append] calls made them. *)
Inductive module_error :=
| InvalidName (module : pystr) (error : pystr)
| DuplicateName (module : pystr) (snake_name : pystr).

Definition render_module_error (e : module_error) : pystr :=
  match e with
  | InvalidName module error => lit "'" ++ module ++ lit "': " ++ error
  | DuplicateName module snake_name =>
      lit "'" ++ module ++ lit "': Duplicate module name (converts to '"
      ++ snake_name ++ lit "')"
  end.

(** The [for] loop of [validate_modules]; [seen_names] is the set built
    so far, kept as the list of its members. *)
Fixpoint validate_modules_loop (seen_names : list pystr)
  (modules : list pystr) : list module_error :=
  match modules with
  | [] => []
  | module :: rest =>
      let '(is_valid, error) := validate_module_name module in
      if negb is_valid then
        InvalidName module (format_opt error)
        :: validate_modules_loop seen_names rest
      else
        let snake_name := to_snake_case module in
        if str_in snake_name seen_names then
          DuplicateName module snake_name
          :: validate_modules_loop seen_names rest
        else validate_modules_loop (snake_name :: seen_names) rest
  end.

Definition validate_modules (modules : list pystr) : bool * list pystr :=
  let errors := map render_module_error (validate_modules_loop [] modules) in
  (Nat.eqb (length errors) 0, errors).

(** [re.match(r'^[a-z0-9-]+$', s)]: [$] also matches just before a final
    newline. *)
Definition re_match_kebab (s : pystr) : bool :=
  negb (py_not s)
  && (forallb kebab_char s
      || match rev s with
         | c :: (_ :: _) as body =>
             (c =? newline)%N && forallb kebab_char (tl body)
         | _ => false
         end).

Definition reserved_dirs : list pystr :=
  [lit "."; lit ".."; lit ".git"; lit ".venv"; lit "venv"; lit "env";
   lit "node_modules"].

Definition msg_project_empty : pystr := lit "Project name cannot be empty".
Definition msg_project_becomes_empty : pystr :=
  lit "Project name becomes empty after processing".
Definition msg_project_too_long : pystr :=
  lit "Project name is too long (max 50 characters)".
Definition msg_project_too_short : pystr := lit "Project name is too short".
Definition msg_project_invalid_chars (kebab_name : pystr) : pystr :=
  lit "Project name contains invalid characters (after conversion: '"
  ++ kebab_name ++ lit "')".
Definition msg_project_hyphen : pystr :=
  lit "Project name cannot start or end with a hyphen".
Definition msg_project_reserved (project_name : pystr) : pystr :=
  lit "Project name '" ++ project_name
  ++ lit "' conflicts with reserved directory name".
Definition msg_project_exists (kebab_name : pystr) : pystr :=
  lit "Directory '" ++ kebab_name
  ++ lit "' already exists in current directory".

Definition validate_project_name (h : host) (fs : filesystem)
  (project_name : pystr) (check_exists : bool) : bool * option pystr :=
  if py_not project_name || py_not (strip py_isspace project_name) then
    (false, Some msg_project_empty)
  else
    let kebab_name := to_kebab_case project_name in
    if py_not kebab_name then (false, Some msg_project_becomes_empty)
    else if (50 <? length kebab_name)%nat then
      (false, Some msg_project_too_long)
    else if (length kebab_name <? 1)%nat then
      (false, Some msg_project_too_short)
    else if negb (re_match_kebab kebab_name) then
      (false, Some (msg_project_invalid_chars kebab_name))
    else if head_is is_hyphen kebab_name || last_is is_hyphen kebab_name then
      (false, Some msg_project_hyphen)
    else if str_in (py_lower kebab_name) reserved_dirs then
      (false, Some (msg_project_reserved project_name))
    else if check_exists
            && fs_exists fs (path_join (cwd h) kebab_name) then
      (false, Some (msg_project_exists kebab_name))
    else (true, None).

(** The checks of [validate_module_name] that follow the blank test, as a
    test on the canonical name. *)
Definition snake_name_ok (snake_name : pystr) : bool :=
  negb (py_not snake_name)
  && negb (50 <? length snake_name)%nat
  && negb (length snake_name <? 1)%nat
  && isidentifier snake_name
  && negb (iskeyword snake_name)
  && negb (str_in (py_lower snake_name) reserved_names)
  && negb (negb (py_not snake_name) && head_is is_digit09 snake_name).

Definition is_valid_module (module : pystr) : bool :=
  fst (validate_module_name module).

Definition is_duplicate_error (e : module_error) : bool :=
  match e with
  | DuplicateName _ _ => true
  | InvalidName _ _ => false
  end.

Definition duplicate_errors (errors : list module_error) : list module_error :=
  filter is_duplicate_error errors.

Definition invalid_errors (errors : list module_error) : list module_error :=
  filter (fun e => negb (is_duplicate_error e)) errors.

(** The entries whose canonical name is that of an earlier entry, in
    order; [earlier] holds the canonical names met so far. *)
Fixpoint collisions (earlier : list pystr) (modules : list pystr)
  : list pystr :=
  match modules with
  | [] => []
  | module :: rest =>
      let snake_name := to_snake_case module in
      (if str_in snake_name earlier then [module] else [])
      ++ collisions (snake_name :: earlier) rest
  end.

Definition duplicate_error_of (module : pystr) : module_error :=
  DuplicateName module (to_snake_case module).

Definition invalid_error_of (module : pystr) : module_error :=
  InvalidName module (format_opt (snd (validate_module_name module))).

(** ** The validators on entries that are not text

    [validate_modules] is annotated [List[str]], and Python does not
    check it.  These are the same functions on lists whose entries are
    [None], booleans, integers or strings; an operation that the value
    does not support raises.  Other values (bytes, objects with a
    [strip] of their own) are not modelled, and nothing below speaks of
    them. *)

Inductive pyval :=
| PyNone
| PyBool (b : bool)
| PyInt (z : Z)
| PyStr (s : pystr).

Inductive pyexn :=
| AttributeError (what : pystr)
| TypeError (what : pystr).

Inductive result (A : Type) :=
| Return (a : A)
| Raise (e : pyexn).
Arguments Return {A} a.
Arguments Raise {A} e.

Definition bind {A B : Type} (r : result A) (k : A -> result B) : result B :=
  match r with
  | Return a => k a
  | Raise e => Raise e
  end.

(** [bool(v)]. *)
Definition truthy (v : pyval) : bool :=
  match v with
  | PyNone => false
  | PyBool b => b
  | PyInt z => negb (z =? 0)%Z
  | PyStr s => negb (py_not s)
  end.

(** [f"{v}"]. *)
Definition py_format (v : pyval) : pystr :=
  match v with
  | PyNone => lit "None"
  | PyBool true => lit "True"
  | PyBool false => lit "False"
  | PyInt z => decimal z
  | PyStr s => s
  end.

Definition type_name (v : pyval) : pystr :=
  match v with
  | PyNone => lit "NoneType"
  | PyBool _ => lit "bool"
  | PyInt _ => lit "int"
  | PyStr _ => lit "str"
  end.

(** [not module_name] is tried first; a true value that is not a [str]
    then fails at [module_name.strip()]. *)
Definition validate_module_name_dyn (module_name : pyval)
  : result (bool * option pystr) :=
  if negb (truthy module_name) then Return (false, Some msg_module_empty)
  else
    match module_name with
    | PyStr s => Return (validate_module_name s)
    | v =>
        Raise (AttributeError
                 (lit "'" ++ type_name v
                  ++ lit "' object has no attribute 'strip'"))
    end.

Fixpoint validate_modules_loop_dyn (seen_names : list pystr)
  (modules : list pyval) : result (list module_error) :=
  match modules with
  | [] => Return []
  | module :: rest =>
      bind (validate_module_name_dyn module) (fun '(is_valid, error) =>
        if negb is_valid then
          bind (validate_modules_loop_dyn seen_names rest) (fun errors =>
            Return (InvalidName (py_format module) (format_opt error)
                    :: errors))
        else
          match module with
          | PyStr s =>
              let snake_name := to_snake_case s in
              if str_in snake_name seen_names then
                bind (validate_modules_loop_dyn seen_names rest)
                  (fun errors =>
                     Return (DuplicateName s snake_name :: errors))
              else validate_modules_loop_dyn (snake_name :: seen_names) rest
          | _ =>
              Raise (TypeError (lit "expected string or bytes-like object"))
          end)
  end.

Definition validate_modules_dyn (modules : list pyval)
  : result (bool * list pystr) :=
  bind (validate_modules_loop_dyn [] modules) (fun errors =>
    let errors := map render_module_error errors in
    Return (Nat.eqb (length errors) 0, errors)).

(** Among these values, some that [validate_module_name] can handle:
    text, and [None], [False] and [0], which are false as a condition. *)
Definition supported (v : pyval) : bool :=
  match v with
  | PyStr _ => true
  | v => negb (truthy v)
  end.

(** ** The icon encoder *)

(** [v.to_bytes(n, 'little')]: the [n] low bytes of [v], lowest first. *)
Fixpoint to_bytes_le (n : nat) (v : Z) : list Z :=
  match n with
  | O => []
  | S n' => (v mod 256)%Z :: to_bytes_le n' (v / 256)%Z
  end.

(** The number a little-endian field stands for. *)
Fixpoint le_decode (bytes : list Z) : Z :=
  match bytes with
  | [] => 0%Z
  | b :: t => (b + 256 * le_decode t)%Z
  end.

(** The field of [n] bytes at offset [off]. *)
Definition field (off n : nat) (data : list Z) : list Z :=
  firstn n (skipn off data).

Definition ico_width : Z := 16.
Definition ico_height : Z := 16.
Definition ico_bpp : Z := 32.
Definition pixel_data_size : Z := (ico_width * ico_height * (ico_bpp / 8))%Z.
Definition bmp_header_size : Z := 40.
Definition total_image_size : Z := (bmp_header_size + pixel_data_size)%Z.
Definition ico_offset : Z := (6 + 16)%Z.

Definition ico_header : list Z :=
  [0; 0]%Z ++ [1; 0]%Z ++ [1; 0]%Z.

Definition ico_directory_entry : list Z :=
  [ico_width] ++ [ico_height] ++ [0%Z] ++ [0%Z]
  ++ [1; 0]%Z ++ [32; 0]%Z
  ++ to_bytes_le 4 total_image_size
  ++ to_bytes_le 4 ico_offset.

Definition bmp_header : list Z :=
  [40; 0; 0; 0]%Z
  ++ to_bytes_le 4 ico_width
  ++ to_bytes_le 4 (ico_height * 2)%Z
  ++ [1; 0]%Z
  ++ [32; 0]%Z
  ++ [0; 0; 0; 0]%Z
  ++ to_bytes_le 4 pixel_data_size
  ++ [0; 0; 0; 0]%Z
  ++ [0; 0; 0; 0]%Z
  ++ [0; 0; 0; 0]%Z
  ++ [0; 0; 0; 0]%Z.

(** [range(n)] and [range(n - 1, -1, -1)]. *)
Definition range (n : Z) : list Z := map Z.of_nat (seq 0 (Z.to_nat n)).
Definition range_down (n : Z) : list Z := rev (range n).

Definition pixel (x y : Z) : list Z :=
  let blue := (100 + (x * 3) mod 50)%Z in
  let green := (50 + (y * 2) mod 30)%Z in
  let red := 30%Z in
  let alpha := 255%Z in
  [blue; green; red; alpha].

Definition pixels : list Z :=
  flat_map (fun y => flat_map (fun x => pixel x y) (range ico_width))
    (range_down ico_height).

Definition and_mask_size : Z := ((ico_width * ico_height + 7) / 8)%Z.
Definition and_mask : list Z := repeat 0%Z (Z.to_nat and_mask_size).

Definition generate_favicon_ico : list Z :=
  ico_header ++ ico_directory_entry ++ bmp_header ++ pixels ++ and_mask.

Definition is_byte (b : Z) : bool := ((0 <=? b) && (b <? 256))%Z.

(** ** ArtifactGenerator

    The text generators.  A double quote of a template is written [q],
    a triple one [q3]. *)

Definition q : pystr := [dquote].
Definition q3 : pystr := [dquote; dquote; dquote].

(** [sep.join(l)]. *)
Fixpoint join (sep : pystr) (l : list pystr) : pystr :=
  match l with
  | [] => []
  | x :: t =>
      match t with
      | [] => x
      | _ :: _ => x ++ sep ++ join sep t
      end
  end.

(** [year=None] asks the host's clock: [datetime.now().year]. *)
Definition generate_mit_license (h : host) (year : option Z)
  (author : pystr) : pystr :=
  let year := match year with
              | None => dt_year (now h)
              | Some y => y
              end in
  lit "MIT License

Copyright (c) " ++ decimal year ++ lit " " ++ author
  ++ lit "

Permission is hereby granted, free of charge, to any person obtaining a copy
of this software and associated documentation files (the " ++ q
  ++ lit "Software" ++ q
  ++ lit "), to deal
in the Software without restriction, including without limitation the rights
to use, copy, modify, merge, publish, distribute, sublicense, and/or sell
copies of the Software, and to permit persons to whom the Software is
furnished to do so, subject to the following conditions:

The above copyright notice and this permission notice shall be included in all
copies or substantial portions of the Software.

THE SOFTWARE IS PROVIDED " ++ q ++ lit "AS IS" ++ q
  ++ lit ", WITHOUT WARRANTY OF ANY KIND, EXPRESS OR
IMPLIED, INCLUDING BUT NOT LIMITED TO THE WARRANTIES OF MERCHANTABILITY,
FITNESS FOR A PARTICULAR PURPOSE AND NONINFRINGEMENT. IN NO EVENT SHALL THE
AUTHORS OR COPYRIGHT HOLDERS BE LIABLE FOR ANY CLAIM, DAMAGES OR OTHER
LIABILITY, WHETHER IN AN ACTION OF CONTRACT, TORT OR OTHERWISE, ARISING FROM,
OUT OF OR IN CONNECTION WITH THE SOFTWARE OR THE USE OR OTHER DEALINGS IN THE
SOFTWARE.
".

Definition generate_gitignore (project_name : pystr) : pystr :=
  lit "# Byte-compiled / optimized / DLL files
__pycache__/
*.py[cod]
*$py.class

# C extensions
*.so

# Distribution / packaging
.Python
build/
develop-eggs/
dist/
downloads/
eggs/
.eggs/
lib/
lib64/
parts/
sdist/
var/
wheels/
pip-wheel-metadata/
share/python-wheels/
*.egg-info/
.installed.cfg
*.egg
MANIFEST

# PyInstaller
*.manifest
*.spec

# Installer logs
pip-log.txt
pip-delete-this-directory.txt

# Unit test / coverage reports
htmlcov/
.tox/
.nox/
.coverage
.coverage.*
.cache
nosetests.xml
coverage.xml
*.cover
*.py,cover
.hypothesis/
.pytest_cache/

# Translations
*.mo
*.pot

# Django stuff:
*.log
local_settings.py
db.sqlite3
db.sqlite3-journal

# Flask stuff:
instance/
.webassets-cache

# Scrapy stuff:
.scrapy

# Sphinx documentation
docs/_build/

# PyBuilder
target/

# Jupyter Notebook
.ipynb_checkpoints

# IPython
profile_default/
ipython_config.py

# pyenv
.python-version

# pipenv
Pipfile.lock

# PEP 582
__pypackages__/

# Celery stuff
celerybeat-schedule
celerybeat.pid

# SageMath parsed files
*.sage.py

# Environments
.env
.venv
env/
venv/
ENV/
env.bak/
venv.bak/

# Spyder project settings
.spyderproject
.spyproject

# Rope project settings
.ropeproject

# mkdocs documentation
/site

# mypy
.mypy_cache/
.dmypy.json
dmypy.json

# Pyre type checker
.pyre/

# IDEs
.vscode/
.idea/
*.swp
*.swo
*~

# OS
.DS_Store
Thumbs.db

# Project specific
downloads/*
!downloads/.gitkeep
config/config.py
".

Definition generate_logging_utils : pystr :=
  q3 ++ lit "Logging utilities for the project." ++ q3
  ++ lit "
import logging
import sys
from typing import Optional

_loggers: dict[str, logging.Logger] = {}
_handler_attached = False


def get_logger(name: str) -> logging.Logger:
    " ++ q3
  ++ lit "
    Get or create a logger with consistent formatting.
    
    Args:
        name: Logger name (typically __name__)
        
    Returns:
        Configured logger instance
    " ++ q3
  ++ lit "
    global _handler_attached
    
    if name in _loggers:
        return _loggers[name]
    
    logger = logging.getLogger(name)
    logger.setLevel(logging.INFO)
    
    # Only attach handler once to root logger
    if not _handler_attached:
        handler = logging.StreamHandler(sys.stdout)
        handler.setLevel(logging.INFO)
        
        formatter = logging.Formatter(
            '%(asctime)s - %(name)s - %(levelname)s - %(message)s',
            datefmt='%Y-%m-%d %H:%M:%S'
        )
        handler.setFormatter(formatter)
        
        root_logger = logging.getLogger()
        root_logger.addHandler(handler)
        root_logger.setLevel(logging.INFO)
        _handler_attached = True
    
    _loggers[name] = logger
    return logger
".

Definition generate_config_py (project_name : pystr) : pystr :=
  q3 ++ lit "Configuration module for " ++ project_name ++ lit "." ++ q3
  ++ lit "
import os
from pathlib import Path

# Project root directory
PROJECT_ROOT = Path(__file__).parent.parent

# Environment
ENV = os.getenv(" ++ q ++ lit "ENV" ++ q ++ lit ", " ++ q
  ++ lit "development" ++ q
  ++ lit ")
DEBUG = os.getenv(" ++ q ++ lit "DEBUG" ++ q ++ lit ", " ++ q ++ lit "false"
  ++ q ++ lit ").lower() == " ++ q ++ lit "true" ++ q
  ++ lit "

# API Configuration
API_HOST = os.getenv(" ++ q ++ lit "API_HOST" ++ q ++ lit ", " ++ q
  ++ lit "0.0.0.0" ++ q
  ++ lit ")
API_PORT = int(os.getenv(" ++ q ++ lit "API_PORT" ++ q ++ lit ", " ++ q
  ++ lit "8000" ++ q
  ++ lit "))

# Logging
LOG_LEVEL = os.getenv(" ++ q ++ lit "LOG_LEVEL" ++ q ++ lit ", " ++ q
  ++ lit "INFO" ++ q
  ++ lit ")
".

Definition generate_config_example_py : pystr :=
  q3
  ++ lit "Example configuration file.

Copy this file to config.py and update with your actual values.
Do not commit config.py to version control.
" ++ q3
  ++ lit "

# Environment
ENV = " ++ q ++ lit "development" ++ q
  ++ lit "  # development, staging, production
DEBUG = True

# API Configuration
API_HOST = " ++ q ++ lit "0.0.0.0" ++ q
  ++ lit "
API_PORT = 8000

# Logging
LOG_LEVEL = " ++ q ++ lit "INFO" ++ q
  ++ lit "
".

Definition generate_module_py (module_name package_name : pystr) : pystr :=
  let snake_module := to_snake_case module_name in
  q3 ++ lit "Module: " ++ module_name ++ q3
  ++ lit "
from " ++ package_name
  ++ lit ".utils.logging import get_logger

logger = get_logger(__name__)


def init_module():
    " ++ q3 ++ lit "Initial hook for module " ++ module_name ++ lit "."
  ++ q3
  ++ lit "
    logger.info(" ++ q ++ lit "Initializing " ++ module_name
  ++ lit " module..." ++ q
  ++ lit ")


def ping():
    " ++ q3 ++ lit "Health check endpoint for " ++ module_name
  ++ lit " module." ++ q3
  ++ lit "
    return {" ++ q ++ lit "module" ++ q ++ lit ": " ++ q ++ snake_module
  ++ q ++ lit ", " ++ q ++ lit "status" ++ q ++ lit ": " ++ q ++ lit "ok"
  ++ q
  ++ lit "}
".

Definition generate_module_docs_readme (module_name : pystr) : pystr :=
  lit "# " ++ module_name
  ++ lit " Module

## Overview

This module provides functionality for " ++ module_name
  ++ lit ".

## Usage

```python
from " ++ to_snake_case module_name
  ++ lit " import init_module, ping

# Initialize the module
init_module()

# Check health
status = ping()
```

## API Endpoints

- `GET /" ++ to_snake_case module_name
  ++ lit "/ping` - Health check endpoint

## Configuration

Module-specific configuration can be added to `config/config.py`.
".

Definition generate_test_module (module_name package_name : pystr) : pystr :=
  let snake_module := to_snake_case module_name in
  q3 ++ lit "Tests for " ++ module_name ++ lit " module." ++ q3
  ++ lit "
import pytest
from " ++ package_name ++ lit "." ++ snake_module
  ++ lit " import init_module, ping


def test_init_module():
    " ++ q3 ++ lit "Test module initialization." ++ q3
  ++ lit "
    init_module()
    # Add assertions as needed


def test_ping():
    " ++ q3 ++ lit "Test ping endpoint." ++ q3
  ++ lit "
    result = ping()
    assert result[" ++ q ++ lit "module" ++ q ++ lit "] == " ++ q
  ++ snake_module ++ q
  ++ lit "
    assert result[" ++ q ++ lit "status" ++ q ++ lit "] == " ++ q
  ++ lit "ok" ++ q
  ++ lit "
".

Definition generate_test_readme : pystr :=
  lit "# Tests

This directory contains test files for the project.

## Running Tests

```bash
pytest test/
```

## Test Structure

- `test_*.py` - Test files for each module
- `docs/` - Test documentation
".

Definition generate_docs_readme (project_name : pystr) : pystr :=
  lit "# Documentation

Documentation for " ++ project_name
  ++ lit ".

## Structure

Each module has its own documentation directory under `docs/<module>/`.
".

Definition generate_package_init (package_name : pystr) : pystr :=
  q3 ++ lit "Main package for " ++ package_name ++ lit "." ++ q3
  ++ lit "
__version__ = " ++ q ++ lit "0.1.0" ++ q
  ++ lit "
".

Definition generate_utils_init : pystr :=
  q3 ++ lit "Utility modules." ++ q3
  ++ lit "
from .logging import get_logger

__all__ = [" ++ q ++ lit "get_logger" ++ q
  ++ lit "]
".

Definition main_py_import (package_name module : pystr) : pystr :=
  let snake_module := to_snake_case module in
  lit "from " ++ package_name ++ lit "." ++ snake_module
  ++ lit " import init_module as " ++ snake_module
  ++ lit "_init, ping as " ++ snake_module ++ lit "_ping".

Definition main_py_init_call (module : pystr) : pystr :=
  let snake_module := to_snake_case module in
  lit "    " ++ snake_module ++ lit "_init()".

Definition main_py_ping_route (module : pystr) : pystr :=
  let snake_module := to_snake_case module in
  lit "@app.get(" ++ q ++ lit "/" ++ snake_module ++ lit "/ping" ++ q
  ++ lit ")
async def " ++ snake_module
  ++ lit "_ping_route():
    " ++ q3 ++ lit "Health check endpoint for " ++ module ++ lit " module."
  ++ q3
  ++ lit "
    return " ++ snake_module ++ lit "_ping()".

Definition main_py_module_entry (module : pystr) : pystr :=
  let snake_module := to_snake_case module in
  lit "        " ++ q ++ snake_module ++ q ++ lit ",".

Definition generate_main_py (project_name package_name : pystr)
  (modules : list pystr) : pystr :=
  let module_imports := map (main_py_import package_name) modules in
  let init_calls := map main_py_init_call modules in
  let ping_routes := map main_py_ping_route modules in
  let module_list := map main_py_module_entry modules in
  let imports := join [newline] module_imports in
  let inits := join [newline] init_calls in
  let routes := join [newline; newline] ping_routes in
  let module_list_str := join [newline] module_list in
  q3 ++ lit "Main FastAPI application for " ++ project_name ++ lit "." ++ q3
  ++ lit "
from contextlib import asynccontextmanager
from pathlib import Path
from fastapi import FastAPI
from fastapi.responses import FileResponse, JSONResponse
" ++ imports
  ++ lit "


def init_all_modules():
    " ++ q3 ++ lit "Initialize all registered modules." ++ q3
  ++ lit "
" ++ inits
  ++ lit "


@asynccontextmanager
async def lifespan(app: FastAPI):
    " ++ q3
  ++ lit "Lifespan context manager for startup and shutdown events." ++ q3
  ++ lit "
    # Startup
    init_all_modules()
    yield
    # Shutdown (if needed, add cleanup code here)


app = FastAPI(
    title=" ++ q ++ project_name ++ q
  ++ lit ",
    description=" ++ q ++ lit "A FastAPI application" ++ q
  ++ lit ",
    version=" ++ q ++ lit "0.1.0" ++ q
  ++ lit ",
    lifespan=lifespan
)


@app.get(" ++ q ++ lit "/" ++ q
  ++ lit ")
async def index():
    " ++ q3 ++ lit "Index route listing all available modules." ++ q3
  ++ lit "
    return JSONResponse(content={
        " ++ q ++ lit "project" ++ q ++ lit ": " ++ q ++ project_name ++ q
  ++ lit ",
        " ++ q ++ lit "modules" ++ q
  ++ lit ": [
" ++ module_list_str
  ++ lit "
        ]
    })


@app.get(" ++ q ++ lit "/favicon.ico" ++ q
  ++ lit ", include_in_schema=False)
async def favicon():
    " ++ q3 ++ lit "Serve favicon." ++ q3
  ++ lit "
    favicon_path = Path(__file__).parent / " ++ q ++ lit "favicon.ico" ++ q
  ++ lit "
    return FileResponse(favicon_path)


" ++ routes
  ++ lit "


if __name__ == " ++ q ++ lit "__main__" ++ q
  ++ lit ":
    import uvicorn
    uvicorn.run(app, host=" ++ q ++ lit "0.0.0.0" ++ q
  ++ lit ", port=8000)
".

Definition readme_module_list (modules : list pystr) : pystr :=
  join [newline]
    (map (fun m => lit "- `" ++ to_snake_case m ++ lit "`") modules).

Definition generate_readme (project_name description : pystr)
  (modules : list pystr) : pystr :=
  let module_list := readme_module_list modules in
  lit "# " ++ project_name
  ++ lit "

" ++ description
  ++ lit "

## Project Structure

```
" ++ project_name
  ++ lit "/
" ++ [8218; 238; 250; 8218; 238; 196; 8218; 238; 196]%N
  ++ lit " config/          # Configuration files
" ++ [8218; 238; 250; 8218; 238; 196; 8218; 238; 196]%N
  ++ lit " docs/            # Documentation
" ++ [8218; 238; 250; 8218; 238; 196; 8218; 238; 196]%N
  ++ lit " downloads/       # Download directory
" ++ [8218; 238; 250; 8218; 238; 196; 8218; 238; 196]%N
  ++ lit " test/           # Test files
" ++ [8218; 238; 238; 8218; 238; 196; 8218; 238; 196]%N ++ lit " "
  ++ to_snake_case project_name
  ++ lit "/  # Main package
    " ++ [8218; 238; 250; 8218; 238; 196; 8218; 238; 196]%N
  ++ lit " utils/      # Utility modules
    " ++ [8218; 238; 238; 8218; 238; 196; 8218; 238; 196]%N
  ++ lit " modules/    # Feature modules
```

## Modules

" ++ module_list
  ++ lit "

## Setup

1. Create and activate virtual environment:
```bash
python -m venv .venv
source .venv/bin/activate  # On Windows: .venv\Scripts\activate
```

2. Install dependencies:
```bash
pip install -r requirements.txt
```

3. Copy configuration:
```bash
cp config/config_example.py config/config.py
```

4. Run the application:
```bash
python main.py
```

Or with uvicorn directly:
```bash
uvicorn main:app --reload
```

## API Endpoints

- `GET /` - List all modules
- `GET /{module}/ping` - Health check for each module

## Development

Run tests:
```bash
pytest test/
```

## License

MIT License - see LICENSE file for details.
".

Definition generate_note_for_agents (project_name description : pystr)
  (modules : list pystr) : pystr :=
  let module_list := readme_module_list modules in
  lit "# Note for AI Agents

This is a Python FastAPI project: **" ++ project_name
  ++ lit "**

## Description
" ++ description
  ++ lit "

## Architecture

This project follows a modular architecture with the following structure:

- Main package: `" ++ to_snake_case project_name
  ++ lit "/`
- Modules: " ++ decimal (Z.of_nat (length modules))
  ++ lit " module(s)
- Framework: FastAPI
- Python version: 3.10+

## Modules

" ++ module_list
  ++ lit "

## Key Files

- `main.py` - FastAPI application entry point
- `config/config.py` - Configuration (not in git)
- `config/config_example.py` - Example configuration
- `" ++ to_snake_case project_name
  ++ lit "/utils/logging.py` - Logging utilities

## Module Pattern

Each module follows this pattern:
- Located in `" ++ to_snake_case project_name
  ++ lit "/{module}.py`
- Contains `init_module()` function called on startup
- Contains `ping()` function for health checks
- Has a `/{module}/ping` route in FastAPI

## Testing

Tests are located in `test/` directory following the pattern `test_{module}.py`.

## Development Guidelines

- Use the logging utility: `from " ++ to_snake_case project_name
  ++ lit ".utils.logging import get_logger`
- Follow the module pattern for new features
- Update documentation in `docs/` directory
- Write tests for new modules
".

Definition generate_requirements_txt : pystr :=
  lit "fastapi
uvicorn[standard]
".

(** ** StructureBuilder *)

(** [root / a / b / ...]. *)
Definition under (root : path) (segments : list pystr) : path :=
  fold_left path_join segments root.

(** [p.mkdir(parents=True, exist_ok=True)]: every missing directory on
    the way down to [p] is made; a file in the way is an [OSError]
    ([None]), the only failure that the tree itself can cause.  [done]
    is the part of the path already walked. *)
Fixpoint mkdir_from (fs : filesystem) (done rest : path)
  : option filesystem :=
  match rest with
  | [] => Some fs
  | c :: rest' =>
      let p := done ++ [c] in
      match fs_node fs p with
      | Some (File _) => None
      | Some Dir => mkdir_from fs p rest'
      | None => mkdir_from (fs_put fs p Dir) p rest'
      end
  end.

Definition create_directory (fs : filesystem) (p : path)
  : option filesystem :=
  mkdir_from fs [] p.

(** A code point that UTF-8 does not encode: a surrogate. *)
Definition is_surrogate (c : codepoint) : bool := in_range 55296 57343 c.

(** [s.encode('utf-8')] goes through. *)
Definition utf8_encodable (s : pystr) : bool :=
  forallb (fun c => negb (is_surrogate c)) s.

(** What [write_text(content, encoding='utf-8')] and [write_bytes] can
    put in a file: a text without surrogates, any bytes. *)
Definition writable (content : payload) : bool :=
  match content with
  | Text s => utf8_encodable s
  | Binary _ => true
  end.

(** [write_file] and [write_binary_file]: the parent is made first, then
    the file is opened for writing, which fails on a directory; then the
    text is encoded, which is a [UnicodeEncodeError] on a surrogate. *)
Definition write_file (fs : filesystem) (p : path) (content : payload)
  : option filesystem :=
  match create_directory fs (removelast p) with
  | None => None
  | Some fs1 =>
      match fs_node fs1 p with
      | Some Dir => None
      | _ =>
          if writable content then Some (fs_put fs1 p (File content))
          else None
      end
  end.

(** What a [write_file] that raised leaves behind: the parent it made,
    and, when it was the encoding that failed, the file it had opened,
    now empty. *)
Definition write_file_raised (fs : filesystem) (p : path)
  (content : payload) : filesystem :=
  match create_directory fs (removelast p) with
  | None => fs
  | Some fs1 =>
      match fs_node fs1 p with
      | Some Dir => fs1
      | _ => fs_put fs1 p (File (Text []))
      end
  end.

Inductive fsop :=
| MakeDir (p : path)
| WriteFile (p : path) (content : payload).

Definition run_op (fs : filesystem) (op : fsop) : option filesystem :=
  match op with
  | MakeDir p => create_directory fs p
  | WriteFile p content => write_file fs p content
  end.

(** The file system after an operation that raised.  A [mkdir] stopped
    by a file in the way has made nothing: in a tree, what is above a
    file is there already. *)
Definition op_raised (fs : filesystem) (op : fsop) : filesystem :=
  match op with
  | MakeDir _ => fs
  | WriteFile p content => write_file_raised fs p content
  end.

(** The operations in order; the first that fails stops the run, and
    what was made before it stays, with what the failed one left. *)
Fixpoint run_ops (fs : filesystem) (ops : list fsop) : bool * filesystem :=
  match ops with
  | [] => (true, fs)
  | op :: rest =>
      match run_op fs op with
      | None => (false, op_raised fs op)
      | Some fs' => run_ops fs' rest
      end
  end.

(** The directories [main] makes under the project root, as the
    segments joined to [project_path]. *)
Definition project_directories (snake_package : pystr)
  (modules : list pystr) : list (list pystr) :=
  [ [lit "config"];
    [lit "docs"];
    [lit "downloads"];
    [lit "test"];
    [lit "test"; lit "docs"];
    [snake_package];
    [snake_package; lit "utils"] ]
  ++ map (fun module => [lit "docs"; to_snake_case module]) modules.

Definition module_artifacts (snake_package module : pystr)
  : list (list pystr * payload) :=
  let snake_module := to_snake_case module in
  [ ([snake_package; snake_module ++ lit ".py"],
     Text (generate_module_py module snake_package));
    ([lit "docs"; snake_module; lit "README.md"],
     Text (generate_module_docs_readme module));
    ([lit "test"; lit "test_" ++ snake_module ++ lit ".py"],
     Text (generate_test_module module snake_package)) ].

(** The option [--inspire]: [None] when it is not given; when it is,
    the text that [enhance_readme_with_openai], a collaborator, returned
    for the README of this run.  It catches what its calls raise and
    then returns the text it was given, so it always returns a text. *)
Definition readme_content (inspire : option pystr)
  (project_name description : pystr) (modules : list pystr) : pystr :=
  let base_readme := generate_readme project_name description modules in
  match inspire with
  | Some enhanced_readme => enhanced_readme
  | None => base_readme
  end.

(** The files [main] writes, in order: where (segments under the
    project root) and what. *)
Definition project_artifacts_with (inspire : option pystr) (h : host)
  (project_name description : pystr) (modules : list pystr)
  : list (list pystr * payload) :=
  let snake_package := to_snake_case project_name in
  [ ([lit "README.md"],
     Text (readme_content inspire project_name description modules));
    ([lit "NOTE_FOR_AGENTS.md"],
     Text (generate_note_for_agents project_name description modules));
    ([lit "LICENSE"],
     Text (generate_mit_license h None (lit "Your Name")));
    ([lit ".gitignore"], Text (generate_gitignore project_name));
    ([lit "requirements.txt"], Text generate_requirements_txt);
    ([lit "favicon.ico"], Binary generate_favicon_ico);
    ([lit "main.py"],
     Text (generate_main_py project_name snake_package modules));
    ([lit "config"; lit "config.py"],
     Text (generate_config_py project_name));
    ([lit "config"; lit "config_example.py"],
     Text generate_config_example_py);
    ([snake_package; lit "__init__.py"],
     Text (generate_package_init snake_package));
    ([snake_package; lit "utils"; lit "__init__.py"],
     Text generate_utils_init);
    ([snake_package; lit "utils"; lit "logging.py"],
     Text generate_logging_utils) ]
  ++ flat_map (module_artifacts snake_package) modules
  ++ [ ([lit "docs"; lit "README.md"],
        Text (generate_docs_readme project_name));
       ([lit "test"; lit "README.md"], Text generate_test_readme);
       ([lit "downloads"; lit ".gitkeep"], Text []) ].

(** The run without [--inspire]. *)
Definition project_artifacts (h : host) (project_name description : pystr)
  (modules : list pystr) : list (list pystr * payload) :=
  project_artifacts_with None h project_name description modules.

Definition build_plan_with (inspire : option pystr) (h : host)
  (project_path : path) (project_name description : pystr)
  (modules : list pystr) : list fsop :=
  MakeDir project_path
  :: map (fun d => MakeDir (under project_path d))
       (project_directories (to_snake_case project_name) modules)
  ++ map (fun a => WriteFile (under project_path (fst a)) (snd a))
       (project_artifacts_with inspire h project_name description modules).


Inductive build_result :=
| Built
| PreconditionError
| BuildError.

(** The part of [main] from "Generate names" to the last [write_file]. *)
Definition build_with (inspire : option pystr) (h : host)
  (fs : filesystem) (project_name description : pystr)
  (modules : list pystr) : build_result * filesystem :=
  let kebab_name := to_kebab_case project_name in
  let project_path := path_join (cwd h) kebab_name in
  if fs_exists fs project_path then (PreconditionError, fs)
  else
    match run_ops fs
            (build_plan_with inspire h project_path project_name
               description modules)
    with
    | (true, fs') => (Built, fs')
    | (false, fs') => (BuildError, fs')
    end.


(** ** StructureValidator *)

Definition module_required_files (package_name module : pystr)
  : list pystr :=
  let snake_module := to_snake_case module in
  [ package_name ++ lit "/" ++ snake_module ++ lit ".py";
    lit "docs/" ++ snake_module ++ lit "/README.md";
    lit "test/test_" ++ snake_module ++ lit ".py" ].

Definition required_files (package_name : pystr) (modules : list pystr)
  : list pystr :=
  [ lit "README.md";
    lit "LICENSE";
    lit ".gitignore";
    lit "main.py";
    lit "requirements.txt";
    lit "NOTE_FOR_AGENTS.md";
    lit "favicon.ico";
    package_name ++ lit "/__init__.py";
    package_name ++ lit "/utils/__init__.py";
    package_name ++ lit "/utils/logging.py";
    lit "config/config.py";
    lit "config/config_example.py";
    lit "docs/README.md";
    lit "test/README.md" ]
  ++ flat_map (module_required_files package_name) modules.

Definition required_dirs (package_name : pystr) (modules : list pystr)
  : list pystr :=
  [ lit "config";
    lit "docs";
    lit "downloads";
    lit "test";
    lit "test/docs";
    package_name;
    package_name ++ lit "/utils" ]
  ++ map (fun module => lit "docs/" ++ to_snake_case module) modules.

(** The verdict and the lines of [errors] that the function prints. *)
Definition validate_structure (fs : filesystem) (project_path : path)
  (project_name package_name : pystr) (modules : list pystr)
  : bool * list pystr :=
  let missing_files :=
    filter (fun file_path =>
              negb (fs_exists fs (path_join project_path file_path)))
      (required_files package_name modules) in
  let missing_dirs :=
    filter (fun dir_path =>
              negb (fs_is_dir fs (path_join project_path dir_path)))
      (required_dirs package_name modules) in
  let errors :=
    map (fun file_path => lit "Missing: " ++ file_path) missing_files
    ++ map (fun dir_path => lit "Missing directory: " ++ dir_path)
         missing_dirs in
  match errors with
  | _ :: _ => (false, errors)
  | [] => (true, [])
  end.

(** ** main

    The run from the answers to the prompts to the structure check.  What
    the source does in between with the virtual environment, git and the
    remote repository is left to the collaborators and is not part of the
    model (so the file system that [main] returns is the one the build
    leaves, without what they add); nor is the text printed. *)

Inductive exit_reason :=
| ProjectNameRequired
| ProjectNameInvalid (error : pystr)
| ModulesRequired
| ModulesInvalid (validation_errors : list pystr)
| DirectoryExists (kebab_name : pystr).

Inductive exit :=
| Exit1 (reason : exit_reason)
| Crashed
| Finished (structure_ok : bool) (missing : list pystr).

Definition comma : codepoint := 44%N.

(** [[m.strip() for m in modules_input.split(",") if m.strip()]]. *)
Definition parse_modules (modules_input : pystr) : list pystr :=
  filter (fun m => negb (py_not m))
    (map (strip py_isspace) (split_on comma modules_input)).

Definition main_with (inspire : option pystr) (h : host)
  (fs : filesystem) (project_name modules_input description : pystr)
  : exit * filesystem :=
  if py_not project_name then (Exit1 ProjectNameRequired, fs)
  else
    let '(is_valid, error) := validate_project_name h fs project_name true in
    if negb is_valid then (Exit1 (ProjectNameInvalid (format_opt error)), fs)
    else if py_not modules_input then (Exit1 ModulesRequired, fs)
    else
      let modules := parse_modules modules_input in
      match modules with
      | [] => (Exit1 ModulesRequired, fs)
      | _ :: _ =>
          let '(is_valid, validation_errors) := validate_modules modules in
          if negb is_valid then
            (Exit1 (ModulesInvalid validation_errors), fs)
          else
            let kebab_name := to_kebab_case project_name in
            let snake_package := to_snake_case project_name in
            let project_path := path_join (cwd h) kebab_name in
            match
              build_with inspire h fs project_name description modules
            with
            | (PreconditionError, fs') =>
                (Exit1 (DirectoryExists kebab_name), fs')
            | (BuildError, fs') => (Crashed, fs')
            | (Built, fs') =>
                let '(ok, missing) :=
                  validate_structure fs' project_path project_name
                    snake_package modules in
                (Finished ok missing, fs')
            end
      end.

(** The run without [--inspire]. *)
Definition main (h : host) (fs : filesystem)
  (project_name modules_input description : pystr) : exit * filesystem :=
  main_with None h fs project_name modules_input description.

(** ** Notions used in the statements *)

(** [seen] and [earlier] agree on the canonical names of accepted names. *)
Definition seen_agrees (seen earlier : list pystr) : Prop :=
  forall m, is_valid_module m = true ->
            str_in (to_snake_case m) seen = str_in (to_snake_case m) earlier.

(** Nothing that was there is gone: directories stay directories, and
    what existed exists. *)
Definition fs_le (fs fs' : filesystem) : Prop :=
  forall p,
    (fs_is_dir fs p = true -> fs_is_dir fs' p = true) /\
    (fs_exists fs p = true -> fs_exists fs' p = true).


Definition alnum (c : codepoint) : bool := is_lower_az c || is_digit09 c.

(** ** Hosts and file systems for the examples *)

Definition clock (y : Z) : datetime :=
  {| dt_year := y; dt_month := 11; dt_day := 4;
     dt_hour := 9; dt_minute := 30; dt_second := 0 |}.

Definition example_host (y : Z) : host :=
  {| cwd := [lit "home"; lit "dev"];
     now := clock y;
     environ := fun _ => None |}.

(** Another directory, another day of the same year, another environment. *)
Definition other_host (y : Z) : host :=
  {| cwd := [lit "tmp"];
     now := {| dt_year := y; dt_month := 1; dt_day := 31;
               dt_hour := 23; dt_minute := 59; dt_second := 59 |};
     environ := fun name => Some name |}.

Definition empty_fs : filesystem := fun _ => None.

(** ** Notions used in the further properties *)

(** [p] is [q] or one of its ancestors. *)
Fixpoint is_prefix (p q : path) : bool :=
  match p, q with
  | [], _ => true
  | a :: p', b :: q' => pystr_eqb a b && is_prefix p' q'
  | _ :: _, [] => false
  end.

Definition op_path (op : fsop) : path :=
  match op with
  | MakeDir p => p
  | WriteFile p _ => p
  end.

Definition fs_is_file (fs : filesystem) (p : path) : bool :=
  match fs_node fs p with
  | Some (File _) => true
  | _ => false
  end.

(** Some directory on the way from [done] down to [done ++ rest], the
    last one included, is a file. *)
Fixpoint file_in_the_way (fs : filesystem) (done rest : path) : bool :=
  match rest with
  | [] => false
  | c :: rest' =>
      fs_is_file fs (done ++ [c]) || file_in_the_way fs (done ++ [c]) rest'
  end.

(** Every directory on the way from [done] down to [done ++ rest], the
    last one included, is there. *)
Fixpoint dirs_down (fs : filesystem) (done rest : path) : bool :=
  match rest with
  | [] => true
  | c :: rest' =>
      fs_is_dir fs (done ++ [c]) && dirs_down fs (done ++ [c]) rest'
  end.

(** A separator of either convention. *)
Definition sepchar (c : codepoint) : bool :=
  py_isspace c || is_hyphen c || is_underscore c.

Definition hyphen_to_underscore (c : codepoint) : codepoint :=
  if is_hyphen c then underscore else c.

Definition underscore_to_hyphen (c : codepoint) : codepoint :=
  if is_underscore c then hyphen else c.

(** One pass over the name: the letters and digits that lowering gives,
    with one [sep] for each stretch of separators between them.  [insep]
    tells whether a separator has just been put (or passed over). *)
Fixpoint scan (sep : codepoint) (insep : bool) (s : pystr) : pystr :=
  match s with
  | [] => []
  | d :: t =>
      if sepchar d then
        (if insep then [] else [sep]) ++ scan sep true t
      else
        match filter alnum (lower_cp d) with
        | [] => scan sep insep t
        | w => w ++ scan sep false t
        end
  end.

(** A path segment that is one component: joining it adds just itself. *)
Definition one_part (s : pystr) : Prop :=
  head_is is_slash s = false /\ path_parts s = [s].

(** The shape of a parsed entry. *)
Definition entry_shape (m : pystr) : Prop :=
  m <> [] /\ head_is py_isspace m = false /\ last_is py_isspace m = false /\
  ~ In comma m.

(** ** The defaults that [main] proposes *)

(** [get_user_input]: [typed] is the line read by [input]; the prompt is
    only printed. *)
Definition get_user_input (typed : pystr) (default : option pystr) : pystr :=
  let response := strip py_isspace typed in
  if negb (py_not response) then response
  else match default with
       | Some d => if negb (py_not d) then d else []
       | None => []
       end.

(** The modules that [extract_project_info_from_ideas] and
    [extract_modules_from_ideas] keep of the answer [modules_text] of the
    collaborator: the parsed entries that [validate_module_name]
    accepts. *)
Definition extracted_modules (modules_text : pystr) : list pystr :=
  filter is_valid_module (parse_modules (strip py_isspace modules_text)).

(** [default_modules] in [main] after the extraction. *)
Definition default_modules (extracted : list pystr) : pystr :=
  match extracted with
  | [] => lit "users,auth"
  | _ :: _ => join [comma] extracted
  end.

(** ** Notions used for the run of the build *)

(** The build names its directories with code points of [[a-z0-9_]]
    only; each of its file names has at least one other code point. *)
Definition dir_name (s : pystr) : bool := forallb snake_char s.

(** [q] is the target [pp] or a chain of directory names below it. *)
Definition dirlike (pp q : path) : Prop :=
  exists ds, q = pp ++ ds /\ forallb dir_name ds = true.

(** [q] is a file name at the end of such a chain. *)
Definition filelike (pp q : path) : Prop :=
  exists ds f,
    q = pp ++ ds ++ [f] /\ forallb dir_name ds = true /\ dir_name f = false.

Definition op_shaped (pp : path) (op : fsop) : Prop :=
  match op with
  | MakeDir p => dirlike pp p
  | WriteFile p _ => filelike pp p
  end.





(* ================================================================== *)
(** * Part II. Theorems                                                *)
(* ================================================================== *)

(** ** Character classes *)

Ltac unfold_classes :=
  unfold kebab_char, snake_char, space_or_underscore, space_or_hyphen,
    py_isspace, is_hyphen, is_underscore, is_lower_az, is_upper_AZ,
    is_digit09, in_range, hyphen, underscore in *.

Ltac class_props :=
  unfold_classes;
  rewrite ?orb_true_iff, ?orb_false_iff, ?andb_true_iff, ?andb_false_iff,
    ?N.leb_le, ?N.leb_gt, ?N.eqb_eq, ?N.eqb_neq in *.

Lemma kebab_char_not_sep c :
  kebab_char c = true -> space_or_underscore c = false.
Proof. class_props; lia. Qed.

Lemma snake_char_not_sep c :
  snake_char c = true -> space_or_hyphen c = false.
Proof. class_props; lia. Qed.

Lemma ascii_class_not_upper c :
  kebab_char c = true \/ snake_char c = true ->
  is_upper_AZ c = false /\ (c =? 304)%N = false /\ (c =? 8490)%N = false.
Proof. class_props; lia. Qed.

Lemma kebab_char_lower c : kebab_char c = true -> lower_cp c = [c].
Proof.
  intros H. unfold lower_cp.
  destruct (ascii_class_not_upper c (or_introl H)) as (-> & -> & ->).
  reflexivity.
Qed.

Lemma snake_char_lower c : snake_char c = true -> lower_cp c = [c].
Proof.
  intros H. unfold lower_cp.
  destruct (ascii_class_not_upper c (or_intror H)) as (-> & -> & ->).
  reflexivity.
Qed.

(** ** Runs, classes and stripping *)

Section Runs.
Variables P K : codepoint -> bool.

Lemma forallb_filter_id (s : pystr) : forallb K (filter K s) = true.
Proof.
  induction s as [|c t IH]; simpl; [reflexivity|].
  destruct (K c) eqn:E; simpl; [rewrite E|]; auto.
Qed.

Lemma filter_forallb_id (s : pystr) :
  forallb K s = true -> filter K s = s.
Proof.
  induction s as [|c t IH]; simpl; [reflexivity|].
  intros H; apply andb_true_iff in H as [-> Ht]; f_equal; auto.
Qed.

Lemma forallb_sub_runs rep b (s : pystr) :
  forallb K rep = true -> forallb K s = true ->
  forallb K (sub_runs P rep b s) = true.
Proof.
  intros Hrep; revert b; induction s as [|c t IH]; intros b; simpl;
    [reflexivity|].
  intros H; apply andb_true_iff in H as [Hc Ht].
  destruct (P c); [destruct b|]; simpl;
    rewrite ?forallb_app, ?Hrep, ?Hc; simpl; auto.
Qed.

Lemma forallb_lstrip (s : pystr) :
  forallb K s = true -> forallb K (lstrip P s) = true.
Proof.
  induction s as [|c t IH]; simpl; [reflexivity|].
  intros H; destruct (P c); [|exact H].
  apply andb_true_iff in H as [_ Ht]; auto.
Qed.

Lemma forallb_rstrip (s : pystr) :
  forallb K s = true -> forallb K (rstrip P s) = true.
Proof.
  induction s as [|c t IH]; simpl; [reflexivity|].
  intros H; apply andb_true_iff in H as [Hc Ht].
  specialize (IH Ht). destruct (rstrip P t) as [|r rs].
  - destruct (P c); simpl; rewrite ?Hc; reflexivity.
  - change (K c && forallb K (r :: rs) = true). rewrite Hc, IH. reflexivity.
Qed.

Lemma sub_runs_none rep b (s : pystr) :
  forallb (fun c => negb (P c)) s = true -> sub_runs P rep b s = s.
Proof.
  revert b; induction s as [|c t IH]; intros b; simpl; [reflexivity|].
  intros H; apply andb_true_iff in H as [Hc Ht].
  apply negb_true_iff in Hc; rewrite Hc. f_equal; auto.
Qed.

(** After the runs of [P] are collapsed to one code point of [P], no two
    neighbours are both in [P]. *)
Lemma sub_runs_no_double h b (s : pystr) :
  no_double P (sub_runs P [h] b s) = true /\
  (b = true -> head_is P (sub_runs P [h] b s) = false).
Proof.
  revert b; induction s as [|c t IH]; intros b; simpl.
  - split; [reflexivity|]. intros _. reflexivity.
  - destruct (P c) eqn:Hc.
    + destruct b.
      * apply IH.
      * destruct (IH true) as [Hn Hh]. split; [|discriminate].
        simpl. rewrite (Hh eq_refl), andb_false_r. exact Hn.
    + destruct (IH false) as [Hn _]. split.
      * simpl. rewrite Hc. exact Hn.
      * intros _. simpl. exact Hc.
Qed.

Lemma sub_runs_fixed h b (s : pystr) :
  (forall c, P c = true -> c = h) ->
  no_double P s = true -> (b = true -> head_is P s = false) ->
  sub_runs P [h] b s = s.
Proof.
  intros Hh; revert b; induction s as [|c t IH]; intros b; simpl;
    [reflexivity|].
  intros Hn Hb. apply andb_true_iff in Hn as [Hct Hn].
  destruct (P c) eqn:Hc.
  - destruct b; [specialize (Hb eq_refl); discriminate|].
    simpl in Hct. apply negb_true_iff in Hct.
    simpl. f_equal; [symmetry; auto|]. apply IH; auto.
  - f_equal. apply IH; [exact Hn|discriminate].
Qed.

Lemma no_double_lstrip (s : pystr) :
  no_double P s = true -> no_double P (lstrip P s) = true.
Proof.
  induction s as [|c t IH]; simpl; [reflexivity|].
  intros H. destruct (P c) eqn:Hc.
  - apply andb_true_iff in H as [_ Ht]; auto.
  - simpl. rewrite Hc. exact H.
Qed.

Lemma head_is_rstrip (s : pystr) :
  head_is P s = false -> head_is P (rstrip P s) = false.
Proof.
  destruct s as [|c t]; simpl; [reflexivity|].
  intros Hc. destruct (rstrip P t); [rewrite Hc|]; simpl; auto.
Qed.

Lemma no_double_rstrip (s : pystr) :
  no_double P s = true -> no_double P (rstrip P s) = true.
Proof.
  induction s as [|c t IH]; simpl; [reflexivity|].
  intros H; apply andb_true_iff in H as [Hct Ht].
  specialize (IH Ht).
  destruct (rstrip P t) as [|r rs] eqn:Er.
  - destruct (P c) eqn:Hc; simpl; rewrite ?Hc; reflexivity.
  - change (negb (P c && head_is P (r :: rs)) && no_double P (r :: rs)
            = true).
    rewrite IH, andb_true_r.
    destruct (P c) eqn:Hc; [|reflexivity].
    simpl in Hct. apply negb_true_iff in Hct.
    apply head_is_rstrip in Hct. rewrite Er in Hct. rewrite Hct.
    reflexivity.
Qed.

Lemma head_is_lstrip (s : pystr) : head_is P (lstrip P s) = false.
Proof.
  induction s as [|c t IH]; simpl; [reflexivity|].
  destruct (P c) eqn:Hc; [exact IH|exact Hc].
Qed.

Lemma last_is_rstrip (s : pystr) : last_is P (rstrip P s) = false.
Proof.
  induction s as [|c t IH]; simpl; [reflexivity|].
  destruct (rstrip P t) as [|r rs].
  - destruct (P c) eqn:Hc; simpl; auto.
  - exact IH.
Qed.

Lemma lstrip_fixed (s : pystr) : head_is P s = false -> lstrip P s = s.
Proof. destruct s as [|c t]; simpl; [reflexivity|]. intros ->. reflexivity. Qed.

Lemma rstrip_fixed (s : pystr) : last_is P s = false -> rstrip P s = s.
Proof.
  induction s as [|c t IH]; simpl; [reflexivity|].
  destruct t as [|c' t'].
  - simpl. intros ->. reflexivity.
  - intros H. rewrite (IH H). reflexivity.
Qed.

Lemma py_lower_fixed (s : pystr) :
  (forall c, K c = true -> lower_cp c = [c]) ->
  forallb K s = true -> py_lower s = s.
Proof.
  intros HK; induction s as [|c t IH]; simpl; [reflexivity|].
  intros H; apply andb_true_iff in H as [Hc Ht].
  rewrite (HK c Hc), (IH Ht). reflexivity.
Qed.

Lemma no_double_split (s : pystr) :
  no_double P s = true ->
  forall a x y b, s = a ++ x :: y :: b -> P x && P y = false.
Proof.
  induction s as [|c t IH]; intros H a x y b E.
  - destruct a; discriminate.
  - simpl in H. apply andb_true_iff in H as [Hct Ht].
    destruct a as [|a0 a']; simpl in E; injection E as -> E.
    + subst t. simpl in Hct. apply negb_true_iff in Hct. exact Hct.
    + eapply IH; eauto.
Qed.
End Runs.

(** ** NameNormalizer: shape of the canonical forms *)

Lemma is_hyphen_eq c : is_hyphen c = true -> c = hyphen.
Proof. unfold is_hyphen. apply N.eqb_eq. Qed.

Lemma is_underscore_eq c : is_underscore c = true -> c = underscore.
Proof. unfold is_underscore. apply N.eqb_eq. Qed.

Lemma to_kebab_case_chars name : forallb kebab_char (to_kebab_case name) = true.
Proof.
  unfold to_kebab_case, strip, re_sub_runs, re_keep.
  apply forallb_rstrip, forallb_lstrip, forallb_sub_runs;
    [reflexivity | apply forallb_filter_id].
Qed.

Lemma to_snake_case_chars name : forallb snake_char (to_snake_case name) = true.
Proof.
  unfold to_snake_case, strip, re_sub_runs, re_keep.
  apply forallb_rstrip, forallb_lstrip, forallb_sub_runs;
    [reflexivity | apply forallb_filter_id].
Qed.

Lemma to_kebab_case_no_double name :
  no_double is_hyphen (to_kebab_case name) = true.
Proof.
  unfold to_kebab_case, strip, re_sub_runs.
  apply no_double_rstrip, no_double_lstrip, sub_runs_no_double.
Qed.

Lemma to_snake_case_no_double name :
  no_double is_underscore (to_snake_case name) = true.
Proof.
  unfold to_snake_case, strip, re_sub_runs.
  apply no_double_rstrip, no_double_lstrip, sub_runs_no_double.
Qed.

Lemma to_kebab_case_head name : head_is is_hyphen (to_kebab_case name) = false.
Proof. apply head_is_rstrip, head_is_lstrip. Qed.

Lemma to_snake_case_head name :
  head_is is_underscore (to_snake_case name) = false.
Proof. apply head_is_rstrip, head_is_lstrip. Qed.

Lemma to_kebab_case_last name : last_is is_hyphen (to_kebab_case name) = false.
Proof. apply last_is_rstrip. Qed.

Lemma to_snake_case_last name :
  last_is is_underscore (to_snake_case name) = false.
Proof. apply last_is_rstrip. Qed.

Lemma forallb_imp (A : Type) (P Q : A -> bool) (l : list A) :
  (forall a, P a = true -> Q a = true) ->
  forallb P l = true -> forallb Q l = true.
Proof.
  intros H; induction l as [|a t IH]; simpl; [reflexivity|].
  intros E; apply andb_true_iff in E as [Ea Et].
  rewrite (H a Ea), (IH Et). reflexivity.
Qed.

(** A string with the shape of a kebab name is left alone by
    [to_kebab_case]. *)
Lemma to_kebab_case_fixed s :
  forallb kebab_char s = true -> no_double is_hyphen s = true ->
  head_is is_hyphen s = false -> last_is is_hyphen s = false ->
  to_kebab_case s = s.
Proof.
  intros Hc Hn Hh Hl. unfold to_kebab_case, strip, re_sub_runs, re_keep.
  rewrite (sub_runs_none space_or_underscore).
  2:{ apply (forallb_imp _ kebab_char); [|exact Hc].
      intros a Ha. rewrite (kebab_char_not_sep a Ha). reflexivity. }
  rewrite (py_lower_fixed kebab_char s kebab_char_lower Hc).
  rewrite (filter_forallb_id kebab_char s Hc).
  rewrite (sub_runs_fixed is_hyphen hyphen false s is_hyphen_eq Hn)
    by discriminate.
  rewrite (lstrip_fixed is_hyphen s Hh).
  apply rstrip_fixed, Hl.
Qed.

Lemma to_snake_case_fixed s :
  forallb snake_char s = true -> no_double is_underscore s = true ->
  head_is is_underscore s = false -> last_is is_underscore s = false ->
  to_snake_case s = s.
Proof.
  intros Hc Hn Hh Hl. unfold to_snake_case, strip, re_sub_runs, re_keep.
  rewrite (sub_runs_none space_or_hyphen).
  2:{ apply (forallb_imp _ snake_char); [|exact Hc].
      intros a Ha. rewrite (snake_char_not_sep a Ha). reflexivity. }
  rewrite (py_lower_fixed snake_char s snake_char_lower Hc).
  rewrite (filter_forallb_id snake_char s Hc).
  rewrite (sub_runs_fixed is_underscore underscore false s
             is_underscore_eq Hn) by discriminate.
  rewrite (lstrip_fixed is_underscore s Hh).
  apply rstrip_fixed, Hl.
Qed.

Example to_kebab_case_my_cool_api :
  to_kebab_case (lit "My Cool API!!") = lit "my-cool-api".
Proof. reflexivity. Qed.

Example to_snake_case_my_cool_api :
  to_snake_case (lit "My Cool API!!") = lit "my_cool_api".
Proof. reflexivity. Qed.

Example to_kebab_case_kelvin :
  to_kebab_case [8490%N; 32%N; 304%N; 95%N; 95%N; 66%N] = lit "k-i-b".
Proof. reflexivity. Qed.

(** C5. Both normalisation transforms are idempotent on every string:
    applying [to_kebab_case] (or [to_snake_case]) to its own result
    changes nothing. *)
Theorem normalisers_idempotent (x : pystr) :
  to_kebab_case (to_kebab_case x) = to_kebab_case x /\
  to_snake_case (to_snake_case x) = to_snake_case x.
Proof.
  split.
  - apply to_kebab_case_fixed;
      auto using to_kebab_case_chars, to_kebab_case_no_double,
        to_kebab_case_head, to_kebab_case_last.
  - apply to_snake_case_fixed;
      auto using to_snake_case_chars, to_snake_case_no_double,
        to_snake_case_head, to_snake_case_last.
Qed.

(** ** validate_project_name: the two checks on the shape of the kebab name *)

Lemma re_match_kebab_nonempty s :
  s <> [] -> forallb kebab_char s = true -> re_match_kebab s = true.
Proof.
  intros Hs Hc. unfold re_match_kebab. rewrite Hc.
  destruct s; [contradiction|reflexivity].
Qed.

(** C10. For every input, the result of [to_kebab_case] has only code
    points of [[a-z0-9-]], neither starts nor ends with a hyphen, and has
    no two hyphens in a row.  So, when that result is not empty,
    [validate_project_name] finds the pattern [^[a-z0-9-]+$] matching and
    no hyphen at either end: it never returns the invalid-characters error
    nor the leading/trailing-hyphen error. *)
Theorem to_kebab_case_safe (name : pystr) :
  let k := to_kebab_case name in
  forallb kebab_char k = true /\
  head_is is_hyphen k = false /\
  last_is is_hyphen k = false /\
  (forall a b, k <> a ++ hyphen :: hyphen :: b) /\
  (k <> [] ->
   re_match_kebab k = true /\
   (head_is is_hyphen k || last_is is_hyphen k) = false /\
   forall h fs check_exists,
     snd (validate_project_name h fs name check_exists)
       <> Some (msg_project_invalid_chars k) /\
     snd (validate_project_name h fs name check_exists)
       <> Some msg_project_hyphen).
Proof.
  intros k.
  pose proof (to_kebab_case_chars name) as Hc.
  pose proof (to_kebab_case_head name) as Hh.
  pose proof (to_kebab_case_last name) as Hl.
  pose proof (to_kebab_case_no_double name) as Hn.
  fold k in Hc, Hh, Hl, Hn.
  repeat split; auto.
  - intros a b E.
    pose proof (no_double_split is_hyphen k Hn a hyphen hyphen b E).
    discriminate.
  - apply re_match_kebab_nonempty; assumption.
  - rewrite Hh, Hl. reflexivity.
  - unfold validate_project_name. fold k.
    rewrite (re_match_kebab_nonempty k H Hc), Hh, Hl. simpl.
    repeat match goal with
      | |- context [if ?b then _ else _] => destruct b
      end; simpl; unfold msg_project_invalid_chars; intros E;
      try discriminate E.
  - unfold validate_project_name. fold k.
    rewrite (re_match_kebab_nonempty k H Hc), Hh, Hl. simpl.
    repeat match goal with
      | |- context [if ?b then _ else _] => destruct b
      end; simpl; intros E; try discriminate E.
Qed.

Lemma to_kebab_case_safe_witness :
  to_kebab_case (lit "My Cool API!!") <> [] /\
  re_match_kebab (to_kebab_case (lit "My Cool API!!")) = true.
Proof.
  assert (N : to_kebab_case (lit "My Cool API!!") <> [])
    by (vm_compute; discriminate).
  split; [exact N|].
  exact (proj1 (proj2 (proj2 (proj2 (proj2
           (to_kebab_case_safe (lit "My Cool API!!"))))) N)).
Defined.

(** ** Blank names *)

Section Blank.
Variable P : codepoint -> bool.

Lemma rstrip_nil (s : pystr) : rstrip P s = [] -> forallb P s = true.
Proof.
  induction s as [|c t IH]; simpl; [reflexivity|].
  destruct (rstrip P t) as [|r rs]; [|discriminate].
  destruct (P c); [|discriminate]. intros _. apply IH. reflexivity.
Qed.

Lemma lstrip_all (s : pystr) :
  forallb P (lstrip P s) = true -> forallb P s = true.
Proof.
  induction s as [|c t IH]; simpl; [reflexivity|].
  destruct (P c) eqn:Hc; simpl; [exact IH|].
  rewrite Hc. discriminate.
Qed.

Lemma strip_nil (s : pystr) : strip P s = [] -> forallb P s = true.
Proof. intros H. apply lstrip_all, rstrip_nil, H. Qed.

Lemma sub_runs_all_inrun rep (s : pystr) :
  forallb P s = true -> sub_runs P rep true s = [].
Proof.
  induction s as [|c t IH]; simpl; [reflexivity|].
  intros H; apply andb_true_iff in H as [-> Ht]. auto.
Qed.

Lemma sub_runs_all rep c (t : pystr) :
  forallb P (c :: t) = true -> sub_runs P rep false (c :: t) = rep.
Proof.
  simpl. intros H; apply andb_true_iff in H as [-> Ht].
  rewrite (sub_runs_all_inrun rep t Ht). apply app_nil_r.
Qed.
End Blank.

Lemma blank_to_snake_case s :
  py_not s || py_not (strip py_isspace s) = true -> to_snake_case s = [].
Proof.
  destruct s as [|c t]; [reflexivity|]. simpl py_not at 1. rewrite orb_false_l.
  intros H. assert (E : strip py_isspace (c :: t) = [])
    by (destruct (strip py_isspace (c :: t)); [reflexivity|discriminate]).
  apply strip_nil in E.
  unfold to_snake_case, re_sub_runs.
  rewrite (sub_runs_all space_or_hyphen); [reflexivity|].
  apply (forallb_imp _ py_isspace); [|exact E].
  intros a Ha. unfold space_or_hyphen. rewrite Ha. reflexivity.
Qed.

Lemma blank_to_kebab_case s :
  py_not s || py_not (strip py_isspace s) = true -> to_kebab_case s = [].
Proof.
  destruct s as [|c t]; [reflexivity|]. simpl py_not at 1. rewrite orb_false_l.
  intros H. assert (E : strip py_isspace (c :: t) = [])
    by (destruct (strip py_isspace (c :: t)); [reflexivity|discriminate]).
  apply strip_nil in E.
  unfold to_kebab_case, re_sub_runs.
  rewrite (sub_runs_all space_or_underscore); [reflexivity|].
  apply (forallb_imp _ py_isspace); [|exact E].
  intros a Ha. unfold space_or_underscore. rewrite Ha. reflexivity.
Qed.

(** ** validate_module_name *)

Lemma pystr_eqb_eq a b : pystr_eqb a b = true <-> a = b.
Proof.
  revert b; induction a as [|x a IH]; intros [|y b]; simpl;
    try (split; [discriminate|discriminate]); [split; reflexivity|].
  rewrite andb_true_iff, N.eqb_eq, IH. split.
  - intros [-> ->]. reflexivity.
  - intros E; injection E; auto.
Qed.

Lemma pystr_eqb_refl a : pystr_eqb a a = true.
Proof. apply pystr_eqb_eq. reflexivity. Qed.

Lemma str_in_In s l : str_in s l = true <-> In s l.
Proof.
  unfold str_in. rewrite existsb_exists. split.
  - intros (x & Hx & E). apply pystr_eqb_eq in E. subst. exact Hx.
  - intros H. exists s. split; [exact H|apply pystr_eqb_refl].
Qed.

(** Whether a name is accepted depends on its canonical form only. *)
Lemma validate_module_name_ok module_name :
  fst (validate_module_name module_name)
  = snake_name_ok (to_snake_case module_name).
Proof.
  unfold validate_module_name.
  destruct (py_not module_name || py_not (strip py_isspace module_name))
    eqn:B.
  - rewrite (blank_to_snake_case _ B). reflexivity.
  - unfold snake_name_ok.
    destruct (py_not (to_snake_case module_name)); [reflexivity|].
    destruct (50 <? length (to_snake_case module_name))%nat; [reflexivity|].
    destruct (length (to_snake_case module_name) <? 1)%nat; [reflexivity|].
    destruct (isidentifier (to_snake_case module_name)); [|reflexivity].
    destruct (iskeyword (to_snake_case module_name)); [reflexivity|].
    destruct (str_in (py_lower (to_snake_case module_name)) reserved_names);
      [reflexivity|].
    destruct (head_is is_digit09 (to_snake_case module_name)); reflexivity.
Qed.

Lemma validate_module_name_same_snake a b :
  to_snake_case a = to_snake_case b -> is_valid_module a = is_valid_module b.
Proof.
  unfold is_valid_module. rewrite !validate_module_name_ok. intros ->.
  reflexivity.
Qed.

(** C9. Every module name whose canonical snake_case form is a reserved
    word of the language is rejected by [validate_module_name], with the
    keyword error. *)
Theorem validate_module_name_keyword (module_name : pystr) :
  iskeyword (to_snake_case module_name) = true ->
  validate_module_name module_name
  = (false, Some (msg_module_keyword module_name
                    (to_snake_case module_name))).
Proof.
  intros K. unfold validate_module_name.
  destruct (py_not module_name || py_not (strip py_isspace module_name))
    eqn:B.
  - rewrite (blank_to_snake_case _ B) in K. discriminate K.
  - remember (to_snake_case module_name) as s eqn:Es. clear Es B.
    apply str_in_In in K. unfold kwlist in K. simpl In in K.
    repeat (destruct K as [K|K]; [subst s; reflexivity|]).
    contradiction.
Qed.

Lemma validate_module_name_keyword_witness :
  iskeyword (to_snake_case (lit "class")) = true /\
  validate_module_name (lit "class")
  = (false,
     Some (lit "Module name 'class' is a Python keyword (after conversion: 'class')")).
Proof.
  split; [reflexivity|].
  exact (validate_module_name_keyword (lit "class") eq_refl).
Defined.

(** ** validate_modules *)

Lemma validate_modules_loop_cons seen module rest :
  validate_modules_loop seen (module :: rest)
  = if negb (is_valid_module module) then
      invalid_error_of module :: validate_modules_loop seen rest
    else if str_in (to_snake_case module) seen then
      duplicate_error_of module :: validate_modules_loop seen rest
    else validate_modules_loop (to_snake_case module :: seen) rest.
Proof.
  unfold is_valid_module, invalid_error_of, duplicate_error_of. simpl.
  destruct (validate_module_name module) as [v e]. reflexivity.
Qed.

Lemma loop_invalid_errors seen modules :
  invalid_errors (validate_modules_loop seen modules)
  = map invalid_error_of
      (filter (fun m => negb (is_valid_module m)) modules).
Proof.
  revert seen; induction modules as [|m rest IH]; intros seen;
    [reflexivity|].
  rewrite validate_modules_loop_cons. simpl filter.
  destruct (negb (is_valid_module m)).
  - unfold invalid_errors in *. simpl. f_equal. apply IH.
  - destruct (str_in (to_snake_case m) seen).
    + unfold invalid_errors in *. simpl. apply IH.
    + apply IH.
Qed.

Lemma seen_agrees_skip seen earlier m :
  seen_agrees seen earlier ->
  is_valid_module m = false \/ str_in (to_snake_case m) seen = true ->
  seen_agrees seen (to_snake_case m :: earlier).
Proof.
  intros A H m' V. simpl. rewrite <- (A m' V).
  destruct (pystr_eqb (to_snake_case m') (to_snake_case m)) eqn:E;
    [|reflexivity].
  apply pystr_eqb_eq in E. destruct H as [H|H].
  - rewrite (validate_module_name_same_snake m' m E) in V. congruence.
  - rewrite E, H. reflexivity.
Qed.

Lemma seen_agrees_add seen earlier s :
  seen_agrees seen earlier -> seen_agrees (s :: seen) (s :: earlier).
Proof. intros A m V. simpl. rewrite (A m V). reflexivity. Qed.

Lemma loop_duplicate_errors seen earlier modules :
  seen_agrees seen earlier ->
  duplicate_errors (validate_modules_loop seen modules)
  = map duplicate_error_of
      (filter is_valid_module (collisions earlier modules)).
Proof.
  revert seen earlier; induction modules as [|m rest IH];
    intros seen earlier A; [reflexivity|].
  rewrite validate_modules_loop_cons. simpl collisions.
  rewrite filter_app, map_app.
  destruct (is_valid_module m) eqn:V; simpl negb; cbv iota.
  - rewrite <- (A m V).
    destruct (str_in (to_snake_case m) seen) eqn:S.
    + simpl. rewrite V. simpl. unfold duplicate_errors in *. simpl. f_equal.
      apply IH, seen_agrees_skip; auto.
    + simpl. apply IH, seen_agrees_add, A.
  - assert (E : filter is_valid_module
                  (if str_in (to_snake_case m) earlier then [m] else [])
                = []).
    { destruct (str_in (to_snake_case m) earlier); simpl;
        [rewrite V|]; reflexivity. }
    rewrite E. simpl. unfold duplicate_errors in *. simpl.
    apply IH, seen_agrees_skip; auto.
Qed.

Lemma collisions_In earlier modules m :
  In m (collisions earlier modules) -> In m modules.
Proof.
  revert earlier; induction modules as [|x rest IH]; intros earlier;
    simpl; [auto|].
  rewrite in_app_iff. intros [H|H].
  - destruct (str_in (to_snake_case x) earlier); simpl in H; tauto.
  - right. eapply IH, H.
Qed.

Lemma collisions_later earlier a y c :
  In (to_snake_case y) (map to_snake_case a ++ earlier) ->
  In y (collisions earlier (a ++ y :: c)).
Proof.
  revert earlier; induction a as [|x a IH]; intros earlier H; simpl in *.
  - apply in_or_app. left. apply str_in_In in H. rewrite H. left. reflexivity.
  - apply in_or_app. right. apply IH.
    rewrite in_app_iff in *. simpl. tauto.
Qed.

Lemma loop_nonempty_not_ok modules :
  validate_modules_loop [] modules <> [] ->
  fst (validate_modules modules) = false.
Proof.
  unfold validate_modules. simpl. rewrite length_map.
  destruct (validate_modules_loop [] modules); [contradiction|reflexivity].
Qed.

Lemma filter_In_nonempty (A : Type) (f : A -> bool) (l : list A) (x : A) :
  In x (filter f l) -> l <> [].
Proof. destruct l; [contradiction|discriminate]. Qed.

Lemma invalid_entry_not_ok modules m :
  In m modules -> is_valid_module m = false ->
  In (invalid_error_of m) (validate_modules_loop [] modules).
Proof.
  intros I V.
  assert (H : In (invalid_error_of m)
                (invalid_errors (validate_modules_loop [] modules))).
  { rewrite loop_invalid_errors. apply in_map, filter_In.
    rewrite V. auto. }
  unfold invalid_errors in H. apply filter_In in H. tauto.
Qed.

(** C6. [validate_modules] runs the per-name validation on every entry
    and keeps every error: the validation errors of the result are those
    of all the invalid entries, in order, whatever came before them; so
    each invalid entry has its error in the returned list, and the result
    is not ok. *)
Theorem validate_modules_accumulates (modules : list pystr) :
  snd (validate_modules modules)
  = map render_module_error (validate_modules_loop [] modules) /\
  invalid_errors (validate_modules_loop [] modules)
  = map invalid_error_of
      (filter (fun m => negb (is_valid_module m)) modules) /\
  (forall module,
     In module modules -> is_valid_module module = false ->
     In (render_module_error (invalid_error_of module))
        (snd (validate_modules modules)) /\
     fst (validate_modules modules) = false).
Proof.
  split; [reflexivity|]. split; [apply loop_invalid_errors|].
  intros m I V. pose proof (invalid_entry_not_ok modules m I V) as H.
  split.
  - apply in_map, H.
  - apply loop_nonempty_not_ok. intros E. rewrite E in H. contradiction.
Qed.

Lemma validate_modules_accumulates_witness :
  let modules := [lit "users"; lit "class"; lit "!!!"; lit "auth"] in
  In (lit "!!!") modules /\ is_valid_module (lit "!!!") = false /\
  In (lit "'!!!': Module name '!!!' becomes empty after processing")
     (snd (validate_modules modules)) /\
  fst (validate_modules modules) = false.
Proof.
  intros modules.
  assert (I : In (lit "!!!") modules) by (simpl; tauto).
  assert (V : is_valid_module (lit "!!!") = false) by reflexivity.
  split; [exact I|]. split; [exact V|].
  exact (proj2 (proj2 (validate_modules_accumulates modules))
           (lit "!!!") I V).
Defined.

Example validate_modules_two_invalid :
  validate_modules [lit "users"; lit "class"; lit "!!!"; lit "auth"]
  = (false,
     [lit "'class': Module name 'class' is a Python keyword (after conversion: 'class')";
      lit "'!!!': Module name '!!!' becomes empty after processing"]).
Proof. reflexivity. Qed.

(** C3, as stated, fails: two entries with the same canonical name that
    are both rejected by [validate_module_name] get their validation
    errors and no duplicate error. *)
Lemma validate_modules_duplicate_invalid :
  let modules := [lit "class"; lit "Class"] in
  to_snake_case (lit "class") = to_snake_case (lit "Class") /\
  collisions [] modules = [lit "Class"] /\
  duplicate_errors (validate_modules_loop [] modules) = [] /\
  ~ (length (duplicate_errors (validate_modules_loop [] modules))
     = length (collisions [] modules)) /\
  validate_modules modules
  = (false,
     [lit "'class': Module name 'class' is a Python keyword (after conversion: 'class')";
      lit "'Class': Module name 'Class' is a Python keyword (after conversion: 'class')"]).
Proof. repeat split; try reflexivity. vm_compute. discriminate. Qed.

(** C3, amended. When two entries of the list have the same canonical
    name the result is not ok, and the duplicate errors are exactly: one
    for each entry that [validate_module_name] accepts and whose canonical
    name is that of an earlier entry.  For [["Auth"; "auth"]] the result
    is not ok, with one duplicate error that names [auth]. *)
Theorem validate_modules_duplicates (modules : list pystr) :
  duplicate_errors (validate_modules_loop [] modules)
  = map duplicate_error_of
      (filter is_valid_module (collisions [] modules)) /\
  (forall a x b y c,
     modules = a ++ x :: b ++ y :: c ->
     to_snake_case x = to_snake_case y ->
     fst (validate_modules modules) = false) /\
  validate_modules [lit "Auth"; lit "auth"]
  = (false, [lit "'auth': Duplicate module name (converts to 'auth')"]).
Proof.
  assert (D : duplicate_errors (validate_modules_loop [] modules)
              = map duplicate_error_of
                  (filter is_valid_module (collisions [] modules))).
  { apply loop_duplicate_errors. intros m _. reflexivity. }
  split; [exact D|]. split; [|reflexivity].
  intros a x b y c E S.
  assert (C : In y (collisions [] modules)).
  { rewrite E. change (a ++ x :: b ++ y :: c) with (a ++ (x :: b) ++ y :: c).
    rewrite app_assoc. apply collisions_later.
    rewrite app_nil_r, map_app, in_app_iff. right. simpl. left. exact S. }
  apply loop_nonempty_not_ok.
  destruct (is_valid_module y) eqn:V.
  - assert (F : In (duplicate_error_of y)
                  (duplicate_errors (validate_modules_loop [] modules))).
    { rewrite D. apply in_map, filter_In. auto. }
    eapply filter_In_nonempty, F.
  - pose proof (invalid_entry_not_ok modules y
                  (collisions_In _ _ _ C) V) as H.
    intros N. rewrite N in H. contradiction.
Qed.

Lemma validate_modules_duplicates_witness :
  let modules := [lit "users"; lit "Auth"; lit "billing"; lit "auth"] in
  modules = [lit "users"] ++ lit "Auth" :: [lit "billing"] ++ lit "auth" :: [] /\
  to_snake_case (lit "Auth") = to_snake_case (lit "auth") /\
  fst (validate_modules modules) = false.
Proof.
  intros modules. split; [reflexivity|]. split; [reflexivity|].
  exact (proj1 (proj2 (validate_modules_duplicates modules))
           [lit "users"] (lit "Auth") [lit "billing"] (lit "auth") []
           eq_refl eq_refl).
Defined.

(** ** The validators on entries that are not text *)

Lemma validate_module_name_dyn_str s :
  validate_module_name_dyn (PyStr s) = Return (validate_module_name s).
Proof. destruct s; reflexivity. Qed.

Lemma validate_modules_loop_dyn_str seen modules :
  validate_modules_loop_dyn seen (map PyStr modules)
  = Return (validate_modules_loop seen modules).
Proof.
  revert seen; induction modules as [|m rest IH]; intros seen;
    [reflexivity|].
  simpl map. cbn [validate_modules_loop_dyn validate_modules_loop].
  rewrite validate_module_name_dyn_str. cbn [bind].
  destruct (validate_module_name m) as [v e].
  destruct v; cbn [negb].
  - destruct (str_in (to_snake_case m) seen); rewrite IH; reflexivity.
  - rewrite IH. reflexivity.
Qed.

Lemma validate_module_name_dyn_supported v :
  supported v = true -> exists r, validate_module_name_dyn v = Return r.
Proof.
  destruct v as [|b|z|s]; simpl; unfold validate_module_name_dyn; simpl.
  - eauto.
  - intros ->. simpl. eauto.
  - intros ->. simpl. eauto.
  - intros _. destruct (py_not s); simpl; eauto.
Qed.

Lemma valid_dyn_is_str v e :
  validate_module_name_dyn v = Return (true, e) -> exists s, v = PyStr s.
Proof.
  unfold validate_module_name_dyn.
  destruct (negb (truthy v)); [discriminate|].
  destruct v; try discriminate. eauto.
Qed.

Lemma validate_modules_loop_dyn_supported seen modules :
  forallb supported modules = true ->
  exists r, validate_modules_loop_dyn seen modules = Return r.
Proof.
  revert seen; induction modules as [|v rest IH]; intros seen; simpl;
    [eauto|].
  intros H; apply andb_true_iff in H as [Hv Hr].
  destruct (validate_module_name_dyn_supported v Hv) as [[ok e] E].
  rewrite E. simpl. destruct ok; simpl.
  - destruct (valid_dyn_is_str v e E) as [s ->].
    destruct (str_in (to_snake_case s) seen).
    + destruct (IH seen Hr) as [r ->]. simpl. eauto.
    + apply IH, Hr.
  - destruct (IH seen Hr) as [r ->]. simpl. eauto.
Qed.

(** C8, as stated, fails: the integer 123 as an entry makes
    [validate_modules] raise at [module_name.strip()]. *)
Lemma validate_modules_dyn_int_raises :
  validate_modules_dyn [PyStr (lit "users"); PyInt 123]
  = Raise (AttributeError (lit "'int' object has no attribute 'strip'")) /\
  ~ exists r, validate_modules_dyn [PyStr (lit "users"); PyInt 123] = Return r.
Proof.
  split; [reflexivity|]. intros [r H]. vm_compute in H. discriminate H.
Qed.

(** C8, amended. On every list of strings, the empty list and strings of
    punctuation included, [validate_modules] raises nothing and returns
    its result, an ok flag with the list of messages.  The same holds
    when some entries are [None], [False] or [0] instead of strings. *)
Theorem validate_modules_total_on_text :
  (forall modules : list pystr,
     validate_modules_dyn (map PyStr modules)
     = Return (validate_modules modules)) /\
  validate_modules_dyn [] = Return (true, []) /\
  (forall modules : list pyval,
     forallb supported modules = true ->
     exists r, validate_modules_dyn modules = Return r).
Proof.
  split; [|split; [reflexivity|]].
  - intros modules. unfold validate_modules_dyn, validate_modules.
    rewrite validate_modules_loop_dyn_str. reflexivity.
  - intros modules H. unfold validate_modules_dyn.
    destruct (validate_modules_loop_dyn_supported [] modules H) as [r ->].
    simpl. eauto.
Qed.

Lemma validate_modules_total_on_text_witness :
  forallb supported [PyStr (lit "?!"); PyNone; PyInt 0; PyStr []] = true /\
  exists r,
    validate_modules_dyn [PyStr (lit "?!"); PyNone; PyInt 0; PyStr []]
    = Return r.
Proof.
  split; [reflexivity|].
  exact (proj2 (proj2 validate_modules_total_on_text)
           [PyStr (lit "?!"); PyNone; PyInt 0; PyStr []] eq_refl).
Defined.

Example validate_modules_dyn_punctuation_none :
  validate_modules_dyn [PyStr (lit "?!"); PyNone; PyInt 0]
  = Return (false,
      [lit "'?!': Module name '?!' becomes empty after processing";
       lit "'None': Module name cannot be empty";
       lit "'0': Module name cannot be empty"]).
Proof. reflexivity. Qed.

(** ** The icon encoder *)

(** [to_bytes_le] is little-endian: decoding gives the value back. *)
Lemma le_decode_to_bytes_le n v :
  le_decode (to_bytes_le n v) = (v mod 256 ^ Z.of_nat n)%Z.
Proof.
  revert v; induction n as [|n IH]; intros v.
  - simpl. rewrite Z.mod_1_r. reflexivity.
  - cbn [to_bytes_le le_decode]. rewrite IH.
    rewrite Nat2Z.inj_succ, Z.pow_succ_r by lia.
    rewrite Z.rem_mul_r by lia. reflexivity.
Qed.

Lemma to_bytes_le_length n v : length (to_bytes_le n v) = n.
Proof. revert v; induction n; intros v; simpl; auto. Qed.

Lemma to_bytes_le_bytes n v : forallb is_byte (to_bytes_le n v) = true.
Proof.
  revert v; induction n as [|n IH]; intros v; simpl; [reflexivity|].
  rewrite IH, andb_true_r. unfold is_byte.
  pose proof (Z.mod_pos_bound v 256 eq_refl).
  apply andb_true_iff. split; [apply Z.leb_le|apply Z.ltb_lt]; lia.
Qed.

(** C2. The icon file starts with the header bytes 00 00 01 00 01 00; its
    16-byte directory entry gives width 16, height 16, 1 colour plane, 32
    bits per pixel, an image length of 40 + 1024 and the data offset 22;
    the 40-byte bitmap header gives height 32 (twice 16), compression 0 and
    32 bits per pixel; the multi-byte fields are little-endian; the mask at
    the end is ceil(16*16/8) = 32 zero bytes; and the file is
    6 + 16 + 40 + 1024 + 32 bytes long. *)
Theorem generate_favicon_ico_format :
  field 0 6 generate_favicon_ico = [0; 0; 1; 0; 1; 0]%Z /\
  field 6 16 generate_favicon_ico = ico_directory_entry /\
  length ico_directory_entry = 16 /\
  field 6 1 generate_favicon_ico = [16%Z] /\
  field 7 1 generate_favicon_ico = [16%Z] /\
  le_decode (field 10 2 generate_favicon_ico) = 1%Z /\
  le_decode (field 12 2 generate_favicon_ico) = 32%Z /\
  field 14 4 generate_favicon_ico = to_bytes_le 4 (40 + 1024)%Z /\
  le_decode (field 14 4 generate_favicon_ico) = (40 + 1024)%Z /\
  field 18 4 generate_favicon_ico = to_bytes_le 4 22%Z /\
  le_decode (field 18 4 generate_favicon_ico) = 22%Z /\
  field 22 40 generate_favicon_ico = bmp_header /\
  length bmp_header = 40 /\
  le_decode (field 22 4 generate_favicon_ico) = 40%Z /\
  le_decode (field 26 4 generate_favicon_ico) = 16%Z /\
  le_decode (field 30 4 generate_favicon_ico) = (2 * ico_height)%Z /\
  le_decode (field 30 4 generate_favicon_ico) = 32%Z /\
  le_decode (field 34 2 generate_favicon_ico) = 1%Z /\
  le_decode (field 36 2 generate_favicon_ico) = 32%Z /\
  le_decode (field 38 4 generate_favicon_ico) = 0%Z /\
  field 62 1024 generate_favicon_ico = pixels /\
  length pixels = 1024 /\
  skipn (6 + 16 + 40 + 1024) generate_favicon_ico = repeat 0%Z 32 /\
  and_mask_size = 32%Z /\
  length generate_favicon_ico = 6 + 16 + 40 + 1024 + 32 /\
  forallb is_byte generate_favicon_ico = true.
Proof. repeat split; vm_compute; reflexivity. Qed.

Example pixels_first_row :
  field 62 8 generate_favicon_ico = [100; 50; 30; 255; 103; 50; 30; 255]%Z.
Proof. vm_compute. reflexivity. Qed.

(** ** The file system *)

Lemma path_eqb_eq p q : path_eqb p q = true <-> p = q.
Proof.
  revert q; induction p as [|a p IH]; intros [|b q]; simpl;
    try (split; discriminate); [split; reflexivity|].
  rewrite andb_true_iff, pystr_eqb_eq, IH. split.
  - intros [-> ->]. reflexivity.
  - intros E; injection E; auto.
Qed.

Lemma fs_put_same fs p n : fs_put fs p n p = Some n.
Proof.
  unfold fs_put. rewrite (proj2 (path_eqb_eq p p) eq_refl). reflexivity.
Qed.

Lemma fs_put_other fs p n q : p <> q -> fs_put fs p n q = fs q.
Proof.
  intros H. unfold fs_put. destruct (path_eqb p q) eqn:E; [|reflexivity].
  apply path_eqb_eq in E. contradiction.
Qed.

Lemma fs_node_snoc fs done c : fs_node fs (done ++ [c]) = fs (done ++ [c]).
Proof. destruct done; reflexivity. Qed.

Lemma fs_le_refl fs : fs_le fs fs.
Proof. intros p. auto. Qed.

Lemma fs_le_trans a b c : fs_le a b -> fs_le b c -> fs_le a c.
Proof.
  intros H1 H2 p. destruct (H1 p), (H2 p). auto.
Qed.

(** Putting a node where no directory was loses nothing. *)
Lemma fs_le_put fs p n :
  p <> [] -> fs_is_dir fs p = false -> fs_le fs (fs_put fs p n).
Proof.
  intros Hp Hd r. unfold fs_is_dir, fs_exists, fs_node in *.
  destruct r as [|x r]; [auto|].
  destruct (list_eq_dec (list_eq_dec N.eq_dec) p (x :: r)) as [<-|Hne].
  - rewrite fs_put_same. destruct p; [contradiction|].
    rewrite Hd. split; [discriminate|reflexivity].
  - rewrite (fs_put_other _ _ _ _ Hne). auto.
Qed.

Lemma mkdir_from_spec rest : forall fs done fs',
  mkdir_from fs done rest = Some fs' ->
  fs_le fs fs' /\ (rest <> [] -> fs_is_dir fs' (done ++ rest) = true).
Proof.
  induction rest as [|c rest IH]; intros fs done fs' H; simpl in H.
  - injection H as <-. split; [apply fs_le_refl|contradiction].
  - rewrite fs_node_snoc in H.
    assert (Hne : done ++ [c] <> []) by (destruct done; discriminate).
    assert (Hcat : done ++ c :: rest = (done ++ [c]) ++ rest)
      by (rewrite <- app_assoc; reflexivity).
    destruct (fs (done ++ [c])) as [[|content]|] eqn:E.
    + destruct (IH _ _ _ H) as [Hle Hd]. split; [exact Hle|].
      intros _. rewrite Hcat. destruct rest as [|c' rest'].
      * simpl in H. injection H as <-. rewrite app_nil_r.
        unfold fs_is_dir. rewrite fs_node_snoc, E. reflexivity.
      * apply Hd. discriminate.
    + discriminate.
    + destruct (IH _ _ _ H) as [Hle Hd].
      assert (Hput : fs_le fs (fs_put fs (done ++ [c]) Dir)).
      { apply fs_le_put; auto. unfold fs_is_dir.
        rewrite fs_node_snoc, E. reflexivity. }
      split; [eapply fs_le_trans; eassumption|].
      intros _. rewrite Hcat. destruct rest as [|c' rest'].
      * simpl in H. injection H as <-. rewrite app_nil_r.
        unfold fs_is_dir. rewrite fs_node_snoc, fs_put_same. reflexivity.
      * apply Hd. discriminate.
Qed.

Lemma create_directory_spec fs p fs' :
  create_directory fs p = Some fs' ->
  fs_le fs fs' /\ fs_is_dir fs' p = true.
Proof.
  intros H. destruct (mkdir_from_spec p fs [] fs' H) as [Hle Hd].
  split; [exact Hle|]. destruct p; [reflexivity|]. apply Hd. discriminate.
Qed.

(** A write that went through: the parent was made, the target was no
    directory, the content could be encoded. *)
Lemma write_file_inv fs p content fs' :
  write_file fs p content = Some fs' ->
  exists fs1,
    create_directory fs (removelast p) = Some fs1 /\
    fs_is_dir fs1 p = false /\ p <> [] /\ writable content = true /\
    fs' = fs_put fs1 p (File content).
Proof.
  unfold write_file. intros H.
  destruct (create_directory fs (removelast p)) as [fs1|] eqn:E;
    [|discriminate].
  exists fs1. split; [reflexivity|].
  destruct p as [|x r]; [simpl in H; discriminate|].
  unfold fs_is_dir.
  destruct (fs_node fs1 (x :: r)) as [[|c]|]; try discriminate;
    destruct (writable content); try discriminate;
    injection H as <-; repeat split; discriminate.
Qed.





(** ** Paths *)

Lemma split_on_nonempty sep s : split_on sep s <> [].
Proof.
  destruct s as [|c t]; simpl; [discriminate|].
  destruct (c =? sep)%N; [discriminate|].
  destruct (split_on sep t); discriminate.
Qed.

Lemma split_on_app sep a b :
  split_on sep (a ++ sep :: b) = split_on sep a ++ split_on sep b.
Proof.
  induction a as [|c a IH]; simpl.
  - rewrite N.eqb_refl. reflexivity.
  - destruct (c =? sep)%N; [rewrite IH; reflexivity|].
    rewrite IH. pose proof (split_on_nonempty sep a) as Hne.
    destruct (split_on sep a) as [|h r]; [contradiction|reflexivity].
Qed.



Lemma path_join_rel p s :
  head_is is_slash s = false -> path_join p s = p ++ path_parts s.
Proof. unfold path_join. intros ->. reflexivity. Qed.

Lemma snake_char_not_slash c : snake_char c = true -> is_slash c = false.
Proof. unfold is_slash, slash. class_props; lia. Qed.





(** ** A kebab name that is not empty has a snake name that is not empty *)

Section Members.
Variable P : codepoint -> bool.

Lemma In_sub_runs_keep rep b (s : pystr) d :
  In d s -> P d = false -> In d (sub_runs P rep b s).
Proof.
  revert b; induction s as [|c t IH]; intros b; simpl; [auto|].
  intros [->|Hin] Hd.
  - rewrite Hd. left. reflexivity.
  - destruct (P c); [destruct b|]; simpl; auto using in_or_app.
Qed.

Lemma In_sub_runs_inv rep b (s : pystr) d :
  In d (sub_runs P rep b s) -> In d rep \/ (In d s /\ P d = false).
Proof.
  revert b; induction s as [|c t IH]; intros b; simpl; [contradiction|].
  destruct (P c) eqn:Hc.
  - destruct b.
    + intros H. destruct (IH _ H) as [|[? ?]]; auto.
    + intros H. apply in_app_or in H as [H|H]; [auto|].
      destruct (IH _ H) as [|[? ?]]; auto.
  - intros [<-|H]; [auto|]. destruct (IH _ H) as [|[? ?]]; auto.
Qed.

Lemma In_lstrip_inv (s : pystr) c : In c (lstrip P s) -> In c s.
Proof.
  induction s as [|x t IH]; simpl; [auto|].
  destruct (P x); [auto|]. simpl. auto.
Qed.

Lemma In_rstrip_inv (s : pystr) c : In c (rstrip P s) -> In c s.
Proof.
  induction s as [|x t IH]; simpl; [auto|].
  destruct (rstrip P t) as [|r rs].
  - destruct (P x); [contradiction|]. simpl. tauto.
  - intros [<-|H]; [auto|]. right. apply IH. exact H.
Qed.

Lemma In_lstrip_keep (s : pystr) c :
  In c s -> P c = false -> In c (lstrip P s).
Proof.
  induction s as [|x t IH]; simpl; [auto|].
  intros [->|Hin] Hc.
  - rewrite Hc. left. reflexivity.
  - destruct (P x); [auto|]. right. exact Hin.
Qed.

Lemma In_rstrip_keep (s : pystr) c :
  In c s -> P c = false -> In c (rstrip P s).
Proof.
  induction s as [|x t IH]; simpl; [auto|].
  intros [->|Hin] Hc.
  - destruct (rstrip P t); [rewrite Hc|]; left; reflexivity.
  - specialize (IH Hin Hc). destruct (rstrip P t) as [|r rs];
      [contradiction|]. right. exact IH.
Qed.
End Members.

Lemma lower_alnum_source d c :
  In c (lower_cp d) -> alnum c = true ->
  py_isspace d = false /\ is_hyphen d = false /\ is_underscore d = false.
Proof.
  unfold lower_cp, alnum.
  destruct (is_upper_AZ d) eqn:U;
    [|destruct (d =? 304)%N eqn:E1; [|destruct (d =? 8490)%N eqn:E2]];
    simpl; intros H Ha.
  - destruct H as [<-|[]]. clear Ha. class_props. lia.
  - clear H Ha U. class_props. lia.
  - clear H Ha U E1. class_props. lia.
  - destruct H as [<-|[]]. clear U E1 E2. class_props. lia.
Qed.

Lemma kebab_char_alnum c :
  kebab_char c = true -> is_hyphen c = false -> alnum c = true.
Proof.
  unfold kebab_char, alnum. intros H Hh.
  rewrite Hh, orb_false_r in H. exact H.
Qed.

Lemma alnum_snake_char c :
  alnum c = true -> snake_char c = true /\ is_underscore c = false.
Proof.
  unfold snake_char, alnum. intros H. rewrite H. split; [reflexivity|].
  class_props. lia.
Qed.

Lemma to_kebab_case_source x :
  to_kebab_case x <> [] ->
  exists d c, In d x /\ In c (lower_cp d) /\ alnum c = true.
Proof.
  intros Hne. pose proof (to_kebab_case_head x) as Hh.
  pose proof (to_kebab_case_chars x) as Hc.
  destruct (to_kebab_case x) as [|c rest] eqn:E; [contradiction|].
  simpl in Hh, Hc. apply andb_true_iff in Hc as [Hc _].
  pose proof (kebab_char_alnum c Hc Hh) as Ha.
  assert (Hin : In c (to_kebab_case x)) by (rewrite E; left; reflexivity).
  unfold to_kebab_case, strip, re_sub_runs, re_keep in Hin.
  apply In_rstrip_inv, In_lstrip_inv, In_sub_runs_inv in Hin.
  destruct Hin as [[<-|[]]|[Hin _]]; [discriminate Hh|].
  apply filter_In in Hin as [Hin _].
  unfold py_lower in Hin. apply in_flat_map in Hin as (d & Hd & Hcd).
  destruct (lower_alnum_source d c Hcd Ha) as (_ & Hdh & _).
  apply In_sub_runs_inv in Hd.
  destruct Hd as [[<-|[]]|[Hd _]]; [discriminate Hdh|].
  exists d, c. auto.
Qed.

Lemma to_snake_case_of_source x d c :
  In d x -> In c (lower_cp d) -> alnum c = true -> to_snake_case x <> [].
Proof.
  intros Hd Hcd Ha.
  destruct (lower_alnum_source d c Hcd Ha) as (Hs & Hh & _).
  destruct (alnum_snake_char c Ha) as [Hsc Hu].
  assert (Hin : In c (to_snake_case x)).
  { unfold to_snake_case, strip, re_sub_runs, re_keep.
    apply In_rstrip_keep; [|exact Hu]. apply In_lstrip_keep; [|exact Hu].
    apply In_sub_runs_keep; [|exact Hu].
    apply filter_In. split; [|exact Hsc].
    unfold py_lower. apply in_flat_map. exists d. split; [|exact Hcd].
    apply In_sub_runs_keep; [exact Hd|].
    unfold space_or_hyphen. rewrite Hs, Hh. reflexivity. }
  intros E. rewrite E in Hin. contradiction.
Qed.

Lemma kebab_nonempty_snake_nonempty x :
  to_kebab_case x <> [] -> to_snake_case x <> [].
Proof.
  intros H. destruct (to_kebab_case_source x H) as (d & c & Hd & Hc & Ha).
  eapply to_snake_case_of_source; eassumption.
Qed.



(** ** What the build leaves, and what the structure check looks for *)

Lemma under_rel segs : forall pp,
  Forall (fun s => head_is is_slash s = false) segs ->
  under pp segs = pp ++ flat_map path_parts segs.
Proof.
  unfold under. induction segs as [|s segs IH]; intros pp H; simpl.
  - symmetry. apply app_nil_r.
  - inversion H as [|? ? Hs Hrest]; subst.
    rewrite (path_join_rel pp s Hs), (IH _ Hrest), <- app_assoc.
    reflexivity.
Qed.



Lemma module_artifact_paths snake_package modules :
  map fst (flat_map (module_artifacts snake_package) modules)
  = flat_map
      (fun module =>
         [ [snake_package; to_snake_case module ++ lit ".py"];
           [lit "docs"; to_snake_case module; lit "README.md"];
           [lit "test"; lit "test_" ++ to_snake_case module ++ lit ".py"] ])
      modules.
Proof.
  induction modules as [|m rest IH]; [reflexivity|].
  cbn [flat_map]. rewrite map_app, IH. reflexivity.
Qed.

(** Where [main] writes does not depend on [--inspire]. *)
Lemma artifact_paths_with inspire h project_name description modules :
  map fst (project_artifacts_with inspire h project_name description modules)
  = map fst (project_artifacts h project_name description modules).
Proof. reflexivity. Qed.

(** Where [main] writes, in order. *)
Lemma artifact_paths h project_name description modules :
  map fst (project_artifacts h project_name description modules)
  = [ [lit "README.md"]; [lit "NOTE_FOR_AGENTS.md"]; [lit "LICENSE"];
      [lit ".gitignore"]; [lit "requirements.txt"]; [lit "favicon.ico"];
      [lit "main.py"]; [lit "config"; lit "config.py"];
      [lit "config"; lit "config_example.py"];
      [to_snake_case project_name; lit "__init__.py"];
      [to_snake_case project_name; lit "utils"; lit "__init__.py"];
      [to_snake_case project_name; lit "utils"; lit "logging.py"] ]
    ++ flat_map
         (fun module =>
            [ [to_snake_case project_name;
               to_snake_case module ++ lit ".py"];
              [lit "docs"; to_snake_case module; lit "README.md"];
              [lit "test";
               lit "test_" ++ to_snake_case module ++ lit ".py"] ])
         modules
    ++ [ [lit "docs"; lit "README.md"]; [lit "test"; lit "README.md"];
         [lit "downloads"; lit ".gitkeep"] ].
Proof.
  unfold project_artifacts, project_artifacts_with. cbv zeta.
  rewrite !map_app, module_artifact_paths. reflexivity.
Qed.

Section Built.
Variables (h : host) (fs fs' : filesystem).
Variables (project_name description : pystr) (modules : list pystr).
Variable inspire : option pystr.

Let pp := path_join (cwd h) (to_kebab_case project_name).
Let pkg := to_snake_case project_name.

Hypothesis ran :
  run_ops fs
    (build_plan_with inspire h pp project_name description modules)
  = (true, fs').
Hypothesis pkg_nonempty : pkg <> [].













Lemma filter_none (A : Type) (f : A -> bool) (l : list A) :
  (forall x, In x l -> f x = false) -> filter f l = [].
Proof.
  induction l as [|a l IH]; intros H; simpl; [reflexivity|].
  rewrite (H a (or_introl eq_refl)). apply IH. intros x Hx. apply H.
  right. exact Hx.
Qed.

End Built.

(** ** StructureBuilder and StructureValidator *)





Example main_finishes :
  fst (main (example_host 2025) empty_fs (lit "My Cool API!!")
         (lit "users, Billing Core , ,") (lit "A demo"))
  = Finished true [].
Proof. vm_compute. reflexivity. Qed.



Example main_existing_target :
  fst (main (example_host 2025)
         (fs_put empty_fs [lit "home"; lit "dev"; lit "my-cool-api"] Dir)
         (lit "My Cool API!!") (lit "users") (lit "A demo"))
  = Exit1 (ProjectNameInvalid
             (lit "Directory 'my-cool-api' already exists in current directory")).
Proof. vm_compute. reflexivity. Qed.

(** ** ArtifactGenerator: what the artifacts depend on *)

Lemma generate_mit_license_year h1 h2 y author :
  dt_year (now h1) = dt_year (now h2) ->
  generate_mit_license h1 y author = generate_mit_license h2 y author.
Proof.
  intros E. unfold generate_mit_license. destruct y; [reflexivity|].
  rewrite E. reflexivity.
Qed.

(** C1, as stated, fails: the same project generated under clocks of two
    different years has two different LICENSE texts. *)
Lemma license_follows_the_clock :
  let name := lit "My Cool API!!" in
  let modules := [lit "users"; lit "auth"] in
  project_artifacts (example_host 2025) name (lit "A demo") modules
  <> project_artifacts (example_host 2026) name (lit "A demo") modules /\
  generate_mit_license (example_host 2025) None (lit "Your Name")
  <> generate_mit_license (example_host 2026) None (lit "Your Name").
Proof.
  intros name modules.
  assert (L : generate_mit_license (example_host 2025) None (lit "Your Name")
              <> generate_mit_license (example_host 2026) None
                   (lit "Your Name")).
  { intros E. apply (f_equal (fun s => nth 30 s 0%N)) in E.
    vm_compute in E. discriminate E. }
  split; [|exact L].
  intros E. apply L.
  apply (f_equal (fun l => match nth 2 l ([], Text []) with
                           | (_, Text s) => s
                           | (_, Binary _) => []
                           end)) in E.
  exact E.
Qed.

(** C1, amended. The artifacts are a function of the project name, the
    description, the module list and the year of the host's clock, and of
    nothing else in the host.  Two runs on the same inputs in the same
    year give the same artifacts, icon included; across years, the same
    paths with the same contents except for LICENSE. *)
Theorem artifacts_deterministic (h1 h2 : host)
  (project_name description : pystr) (modules : list pystr) :
  (dt_year (now h1) = dt_year (now h2) ->
   project_artifacts h1 project_name description modules
   = project_artifacts h2 project_name description modules) /\
  map fst (project_artifacts h1 project_name description modules)
  = map fst (project_artifacts h2 project_name description modules) /\
  (forall segs payload,
     segs <> [lit "LICENSE"] ->
     In (segs, payload)
        (project_artifacts h1 project_name description modules) ->
     In (segs, payload)
        (project_artifacts h2 project_name description modules)) /\
  In ([lit "favicon.ico"], Binary generate_favicon_ico)
     (project_artifacts h1 project_name description modules).
Proof.
  split; [|split; [|split]].
  - intros E. unfold project_artifacts, project_artifacts_with.
    rewrite (generate_mit_license_year h1 h2 None (lit "Your Name") E).
    reflexivity.
  - rewrite !artifact_paths. reflexivity.
  - intros segs payload Hne. unfold project_artifacts, project_artifacts_with. cbv zeta.
    rewrite !in_app_iff. cbn [In].
    intros [[H|[H|[H|H]]]|H].
    + left. left. exact H.
    + left. right. left. exact H.
    + injection H as Hs _. symmetry in Hs. contradiction.
    + left. right. right. right. exact H.
    + right. exact H.
  - unfold project_artifacts, project_artifacts_with. cbv zeta. apply in_or_app. left.
    cbn [In]. tauto.
Qed.

Lemma artifacts_deterministic_witness :
  dt_year (now (example_host 2025)) = dt_year (now (other_host 2025)) /\
  project_artifacts (example_host 2025) (lit "My Cool API!!") (lit "A demo")
    [lit "users"; lit "auth"]
  = project_artifacts (other_host 2025) (lit "My Cool API!!") (lit "A demo")
      [lit "users"; lit "auth"].
Proof.
  split; [reflexivity|].
  exact (proj1 (artifacts_deterministic (example_host 2025)
                  (other_host 2025) (lit "My Cool API!!") (lit "A demo")
                  [lit "users"; lit "auth"]) eq_refl).
Defined.

Example license_2025 :
  firstn 43 (generate_mit_license (example_host 2025) None (lit "Your Name"))
  = lit "MIT License" ++ [newline; newline]
    ++ lit "Copyright (c) 2025 Your Name" ++ [newline; newline].
Proof. vm_compute. reflexivity. Qed.

(* ================================================================== *)
(** * Part III. Further properties of the code                         *)
(* ================================================================== *)

(** ** NameNormalizer *)

(** X1. For every input, the result of [to_snake_case] has only code
    points of [[a-z0-9_]], neither starts nor ends with an underscore and
    has no two underscores in a row. *)
Theorem to_snake_case_shape (name : pystr) :
  let s := to_snake_case name in
  forallb snake_char s = true /\
  head_is is_underscore s = false /\
  last_is is_underscore s = false /\
  (forall a b, s <> a ++ underscore :: underscore :: b).
Proof.
  intros s. repeat split.
  - apply to_snake_case_chars.
  - apply to_snake_case_head.
  - apply to_snake_case_last.
  - intros a b E.
    pose proof (no_double_split is_underscore s
                  (to_snake_case_no_double name) a underscore underscore b E).
    discriminate.
Qed.

Lemma snake_char_alnum c :
  snake_char c = true -> is_underscore c = false -> alnum c = true.
Proof.
  unfold snake_char, alnum. intros H Hu.
  rewrite Hu, orb_false_r in H. exact H.
Qed.

Lemma alnum_kebab_char c :
  alnum c = true -> kebab_char c = true /\ is_hyphen c = false.
Proof.
  unfold kebab_char, alnum. intros H. rewrite H. split; [reflexivity|].
  class_props. lia.
Qed.

Lemma to_snake_case_source x :
  to_snake_case x <> [] ->
  exists d c, In d x /\ In c (lower_cp d) /\ alnum c = true.
Proof.
  intros Hne. pose proof (to_snake_case_head x) as Hh.
  pose proof (to_snake_case_chars x) as Hc.
  destruct (to_snake_case x) as [|c rest] eqn:E; [contradiction|].
  simpl in Hh, Hc. apply andb_true_iff in Hc as [Hc _].
  pose proof (snake_char_alnum c Hc Hh) as Ha.
  assert (Hin : In c (to_snake_case x)) by (rewrite E; left; reflexivity).
  unfold to_snake_case, strip, re_sub_runs, re_keep in Hin.
  apply In_rstrip_inv, In_lstrip_inv, In_sub_runs_inv in Hin.
  destruct Hin as [[<-|[]]|[Hin _]]; [discriminate Hh|].
  apply filter_In in Hin as [Hin _].
  unfold py_lower in Hin. apply in_flat_map in Hin as (d & Hd & Hcd).
  destruct (lower_alnum_source d c Hcd Ha) as (_ & _ & Hdu).
  apply In_sub_runs_inv in Hd.
  destruct Hd as [[<-|[]]|[Hd _]]; [discriminate Hdu|].
  exists d, c. auto.
Qed.

Lemma to_kebab_case_of_source x d c :
  In d x -> In c (lower_cp d) -> alnum c = true -> to_kebab_case x <> [].
Proof.
  intros Hd Hcd Ha.
  destruct (lower_alnum_source d c Hcd Ha) as (Hs & _ & Hu).
  destruct (alnum_kebab_char c Ha) as [Hkc Hh].
  assert (Hin : In c (to_kebab_case x)).
  { unfold to_kebab_case, strip, re_sub_runs, re_keep.
    apply In_rstrip_keep; [|exact Hh]. apply In_lstrip_keep; [|exact Hh].
    apply In_sub_runs_keep; [|exact Hh].
    apply filter_In. split; [|exact Hkc].
    unfold py_lower. apply in_flat_map. exists d. split; [|exact Hcd].
    apply In_sub_runs_keep; [exact Hd|].
    unfold space_or_underscore. rewrite Hs, Hu. reflexivity. }
  intros E. rewrite E in Hin. contradiction.
Qed.

(** X2. The two canonical forms of a name are empty together: the kebab
    name (the project directory) is empty exactly when the snake name
    (the package) is. *)
Theorem canonical_forms_empty_together (x : pystr) :
  to_kebab_case x = [] <-> to_snake_case x = [].
Proof.
  split; intros E.
  - destruct (to_snake_case x) eqn:S; [reflexivity|]. exfalso.
    assert (N : to_snake_case x <> []) by (rewrite S; discriminate).
    destruct (to_snake_case_source x N) as (d & c' & Hd & Hc & Ha).
    exact (to_kebab_case_of_source x d c' Hd Hc Ha E).
  - destruct (to_kebab_case x) eqn:K; [reflexivity|]. exfalso.
    assert (N : to_kebab_case x <> []) by (rewrite K; discriminate).
    exact (kebab_nonempty_snake_nonempty x N E).
Qed.

(** ** Validator: which names are accepted *)

Lemma snake_char_ident_continue c :
  snake_char c = true -> ident_continue c = true.
Proof.
  unfold ident_continue, ident_start, snake_char.
  destruct (is_lower_az c), (is_digit09 c), (is_underscore c),
    (is_upper_AZ c); simpl; auto.
Qed.

Lemma snake_char_ident_start c :
  snake_char c = true -> is_underscore c = false ->
  ident_start c = is_lower_az c.
Proof.
  intros H Hu. unfold ident_start.
  destruct (ascii_class_not_upper c (or_intror H)) as (-> & _ & _).
  rewrite Hu, !orb_false_r. reflexivity.
Qed.

(** On a canonical name, [isidentifier] only looks at the first
    character: it must be a letter. *)
Lemma snake_shape_identifier s :
  forallb snake_char s = true -> head_is is_underscore s = false ->
  isidentifier s = head_is is_lower_az s.
Proof.
  destruct s as [|c t]; simpl; [reflexivity|].
  intros H Hu. apply andb_true_iff in H as [Hc Ht].
  rewrite (snake_char_ident_start c Hc Hu).
  rewrite (forallb_imp _ snake_char ident_continue t
             snake_char_ident_continue Ht).
  apply andb_true_r.
Qed.

Lemma lower_not_digit c : is_lower_az c = true -> is_digit09 c = false.
Proof. class_props. lia. Qed.

Lemma snake_name_ok_canonical name :
  let s := to_snake_case name in
  snake_name_ok s
  = negb (py_not s) && (length s <=? 50)%nat && head_is is_lower_az s
    && negb (iskeyword s) && negb (str_in s reserved_names).
Proof.
  intros s. unfold snake_name_ok.
  rewrite (py_lower_fixed snake_char s snake_char_lower
             (to_snake_case_chars name)).
  rewrite (snake_shape_identifier s (to_snake_case_chars name)
             (to_snake_case_head name)).
  rewrite Nat.ltb_antisym, negb_involutive.
  destruct s as [|c t]; [reflexivity|].
  cbn [py_not negb andb head_is length]. cbn [Nat.ltb Nat.leb andb negb].
  destruct (is_lower_az c) eqn:L.
  - rewrite (lower_not_digit c L). rewrite !andb_true_r.
    destruct (length t <=? 49)%nat; reflexivity.
  - rewrite !andb_false_r. reflexivity.
Qed.

(** X3. A module name is accepted exactly when its canonical form is not
    empty, is at most 50 characters long, starts with a letter, is not a
    keyword of the language and is not in the reserved set. *)
Theorem validate_module_name_accepts (module_name : pystr) :
  let s := to_snake_case module_name in
  validate_module_name module_name = (true, None) <->
  s <> [] /\ (length s <= 50)%nat /\ head_is is_lower_az s = true /\
  iskeyword s = false /\ str_in s reserved_names = false.
Proof.
  intros s.
  assert (R : validate_module_name module_name = (true, None) <->
              is_valid_module module_name = true).
  { unfold is_valid_module. split; [intros ->; reflexivity|].
    unfold validate_module_name.
    repeat match goal with
      | |- context [if ?b then _ else _] => destruct b
      end; simpl; intros E; try discriminate E; reflexivity. }
  rewrite R. unfold is_valid_module.
  rewrite validate_module_name_ok, snake_name_ok_canonical. fold s.
  rewrite !andb_true_iff, !negb_true_iff, Nat.leb_le.
  destruct s as [|c t]; simpl py_not.
  - split; [intros ((((H & _) & _) & _) & _); discriminate H|].
    intros (H & _). contradiction.
  - split.
    + intros ((((_ & H1) & H2) & H3) & H4). repeat split; auto.
      discriminate.
    + intros (_ & H1 & H2 & H3 & H4). repeat split; auto.
Qed.

Example validate_module_name_accepts_billing :
  validate_module_name (lit "Billing Core") = (true, None) /\
  to_snake_case (lit "Billing Core") = lit "billing_core".
Proof. split; reflexivity. Qed.

(** X4. In [validate_module_name] the too-short test and the final
    starts-with-a-number test never fire: a canonical name that is not
    empty has length at least 1, and one that starts with a digit has
    already been refused as not being an identifier. *)
Theorem validate_module_name_dead_tests (module_name : pystr) :
  let s := to_snake_case module_name in
  (py_not s = false -> (length s <? 1)%nat = false) /\
  (isidentifier s = true -> head_is is_digit09 s = false) /\
  (head_is is_digit09 s = true -> (length s <= 50)%nat ->
   validate_module_name module_name
   = (false, Some (msg_module_not_identifier module_name s))).
Proof.
  intros s.
  pose proof (snake_shape_identifier s (to_snake_case_chars module_name)
                (to_snake_case_head module_name)) as I.
  assert (D : isidentifier s = true -> head_is is_digit09 s = false).
  { rewrite I. destruct s as [|c t]; simpl; [discriminate|].
    apply lower_not_digit. }
  split; [|split; [exact D|]].
  - destruct s; [discriminate|reflexivity].
  - intros Hd Hlen. unfold validate_module_name.
    destruct (py_not module_name || py_not (strip py_isspace module_name))
      eqn:B.
    + unfold s in Hd. rewrite (blank_to_snake_case _ B) in Hd.
      discriminate Hd.
    + fold s. destruct s as [|c t] eqn:Es; [discriminate Hd|].
      cbn [py_not].
      assert (L : (50 <? length (c :: t))%nat = false)
        by (apply Nat.ltb_ge; exact Hlen).
      rewrite L. cbn [length Nat.ltb Nat.leb].
      destruct (isidentifier (c :: t)) eqn:Id; [|reflexivity].
      rewrite (D eq_refl) in Hd. discriminate Hd.
Qed.

Lemma validate_module_name_dead_tests_witness :
  head_is is_digit09 (to_snake_case (lit "2fa tokens")) = true /\
  validate_module_name (lit "2fa tokens")
  = (false,
     Some (lit "Module name '2fa tokens' is not a valid Python identifier (after conversion: '2fa_tokens')")).
Proof.
  split; [reflexivity|].
  refine (proj2 (proj2 (validate_module_name_dead_tests (lit "2fa tokens")))
            eq_refl _).
  apply Nat.leb_le. reflexivity.
Defined.

(** X5. A module name whose canonical form is in the reserved set
    without being a keyword ([print], [main], [utils], [config], [test],
    [docs], ...) is refused with the reserved-name error. *)
Theorem validate_module_name_reserved (module_name : pystr) :
  let s := to_snake_case module_name in
  str_in s reserved_names = true -> iskeyword s = false ->
  validate_module_name module_name
  = (false, Some (msg_module_reserved module_name s)).
Proof.
  intros s R K. unfold validate_module_name.
  destruct (py_not module_name || py_not (strip py_isspace module_name))
    eqn:B.
  - unfold s in R. rewrite (blank_to_snake_case _ B) in R. discriminate R.
  - fold s. clearbody s. clear B.
    apply str_in_In in R. unfold reserved_names in R. simpl In in R.
    repeat (destruct R as [R|R];
            [subst s; first [discriminate K | reflexivity]|]).
    contradiction.
Qed.

Lemma validate_module_name_reserved_witness :
  str_in (to_snake_case (lit "Utils")) reserved_names = true /\
  iskeyword (to_snake_case (lit "Utils")) = false /\
  validate_module_name (lit "Utils")
  = (false,
     Some (lit "Module name 'Utils' conflicts with reserved name (after conversion: 'utils')")).
Proof.
  split; [reflexivity|]. split; [reflexivity|].
  exact (validate_module_name_reserved (lit "Utils") eq_refl eq_refl).
Defined.

(** X6. Both name validators return a message exactly when they refuse:
    the flag is true if and only if the error is [None]. *)
Theorem validators_flag_matches_error (h : host) (fs : filesystem)
  (name : pystr) (check_exists : bool) :
  (fst (validate_module_name name) = true
   <-> snd (validate_module_name name) = None) /\
  (fst (validate_project_name h fs name check_exists) = true
   <-> snd (validate_project_name h fs name check_exists) = None).
Proof.
  split.
  - unfold validate_module_name.
    repeat match goal with
      | |- context [if ?b then _ else _] => destruct b
      end; simpl; split; intros E; try discriminate E; reflexivity.
  - unfold validate_project_name.
    repeat match goal with
      | |- context [if ?b then _ else _] => destruct b
      end; simpl; split; intros E; try discriminate E; reflexivity.
Qed.

(** ** Validator: lists of module names *)

Lemma validate_modules_loop_nil_iff modules : forall seen,
  validate_modules_loop seen modules = [] <->
  (forall m, In m modules -> is_valid_module m = true) /\
  NoDup (map to_snake_case modules) /\
  (forall m, In m modules -> ~ In (to_snake_case m) seen).
Proof.
  induction modules as [|x rest IH]; intros seen.
  - simpl. split; [|reflexivity]. intros _.
    repeat split; try contradiction. constructor.
  - rewrite validate_modules_loop_cons.
    destruct (is_valid_module x) eqn:V; cbn [negb].
    + destruct (str_in (to_snake_case x) seen) eqn:S.
      * split; [discriminate|]. intros (_ & _ & H).
        apply str_in_In in S. exfalso. apply (H x); [left; reflexivity|].
        exact S.
      * rewrite (IH (to_snake_case x :: seen)). split.
        -- intros (Hv & Hn & Hs). split; [|split].
           ++ intros m [<-|Hm]; auto.
           ++ simpl. constructor; [|exact Hn].
              intros Hin. apply in_map_iff in Hin as (m & E & Hm).
              apply (Hs m Hm). left. symmetry. exact E.
           ++ intros m [<-|Hm] Hin.
              ** apply str_in_In in Hin. congruence.
              ** apply (Hs m Hm). right. exact Hin.
        -- intros (Hv & Hn & Hs). simpl in Hn.
           inversion Hn as [|? ? Hx Hr]; subst. split; [|split].
           ++ intros m Hm. apply Hv. right. exact Hm.
           ++ exact Hr.
           ++ intros m Hm [E|Hin].
              ** apply Hx. rewrite E. apply in_map. exact Hm.
              ** apply (Hs m); [right; exact Hm|exact Hin].
    + split; [discriminate|]. intros (Hv & _).
      rewrite (Hv x (or_introl eq_refl)) in V. discriminate V.
Qed.

(** X7. [validate_modules] says ok exactly when every entry is accepted
    by [validate_module_name] and no two entries have the same canonical
    name. *)
Theorem validate_modules_ok_iff (modules : list pystr) :
  fst (validate_modules modules) = true <->
  (forall m, In m modules -> validate_module_name m = (true, None)) /\
  NoDup (map to_snake_case modules).
Proof.
  assert (V : forall m, is_valid_module m = true <->
                        validate_module_name m = (true, None)).
  { intros m. unfold is_valid_module. split; [|intros ->; reflexivity].
    unfold validate_module_name.
    repeat match goal with
      | |- context [if ?b then _ else _] => destruct b
      end; simpl; intros E; try discriminate E; reflexivity. }
  assert (O : fst (validate_modules modules) = true <->
              validate_modules_loop [] modules = []).
  { unfold validate_modules. simpl. rewrite length_map.
    destruct (validate_modules_loop [] modules); simpl; split;
      intros E; try discriminate E; reflexivity. }
  rewrite O, validate_modules_loop_nil_iff. split.
  - intros (Hv & Hn & _). split; [|exact Hn].
    intros m Hm. apply V, Hv, Hm.
  - intros (Hv & Hn). split; [|split; [exact Hn|]].
    + intros m Hm. apply V, Hv, Hm.
    + intros m _ [].
Qed.

Lemma filter_partition_length (A : Type) (f : A -> bool) (l : list A) :
  length l = length (filter f l) + length (filter (fun a => negb (f a)) l).
Proof.
  induction l as [|a l IH]; simpl; [reflexivity|].
  destruct (f a); simpl; lia.
Qed.

Lemma collisions_length earlier modules :
  length (collisions earlier modules) <= length modules.
Proof.
  revert earlier; induction modules as [|m rest IH]; intros earlier; simpl;
    [lia|].
  rewrite length_app. specialize (IH (to_snake_case m :: earlier)).
  destruct (str_in (to_snake_case m) earlier); simpl; lia.
Qed.

Lemma validate_modules_loop_length seen modules :
  length (validate_modules_loop seen modules) <= length modules.
Proof.
  revert seen; induction modules as [|m rest IH]; intros seen; [simpl; lia|].
  rewrite validate_modules_loop_cons.
  destruct (negb (is_valid_module m)); [simpl; specialize (IH seen); lia|].
  destruct (str_in (to_snake_case m) seen); simpl.
  - specialize (IH seen). lia.
  - specialize (IH (to_snake_case m :: seen)). lia.
Qed.

(** X8. [validate_modules] returns at most one message per entry, and
    their number is the number of entries that [validate_module_name]
    refuses plus the number of accepted entries whose canonical name
    was met before. *)
Theorem validate_modules_error_count (modules : list pystr) :
  let errors := snd (validate_modules modules) in
  length errors <= length modules /\
  length errors
  = length (filter (fun m => negb (is_valid_module m)) modules)
    + length (filter is_valid_module (collisions [] modules)).
Proof.
  intros errors. unfold errors, validate_modules. simpl.
  rewrite length_map. split; [apply validate_modules_loop_length|].
  rewrite (filter_partition_length _ is_duplicate_error
             (validate_modules_loop [] modules)).
  fold (duplicate_errors (validate_modules_loop [] modules)).
  fold (invalid_errors (validate_modules_loop [] modules)).
  rewrite loop_invalid_errors.
  rewrite (loop_duplicate_errors [] [] modules) by (intros m _; reflexivity).
  rewrite !length_map. lia.
Qed.

Example validate_modules_mixed :
  validate_modules [lit "auth"; lit "2fa"; lit "Auth"; lit "users"; lit "AUTH"]
  = (false,
     [lit "'2fa': Module name '2fa' is not a valid Python identifier (after conversion: '2fa')";
      lit "'Auth': Duplicate module name (converts to 'auth')";
      lit "'AUTH': Duplicate module name (converts to 'auth')"]).
Proof. reflexivity. Qed.

(** ** Validator: project names *)

Lemma kebab_char_not_slash c : kebab_char c = true -> is_slash c = false.
Proof. unfold is_slash, slash. class_props; lia. Qed.

Lemma reserved_dirs_reachable k :
  forallb kebab_char k = true ->
  str_in k reserved_dirs = pystr_eqb k (lit "venv") || pystr_eqb k (lit "env").
Proof.
  intros Hk.
  destruct (str_in k reserved_dirs) eqn:R.
  - apply str_in_In in R. unfold reserved_dirs in R. simpl In in R.
    repeat (destruct R as [R|R];
            [subst k; first [discriminate Hk | reflexivity]|]).
    contradiction.
  - symmetry. apply orb_false_iff. split.
    + destruct (pystr_eqb k (lit "venv")) eqn:E; [|reflexivity].
      apply pystr_eqb_eq in E. subst k. discriminate R.
    + destruct (pystr_eqb k (lit "env")) eqn:E; [|reflexivity].
      apply pystr_eqb_eq in E. subst k. discriminate R.
Qed.

(** X9. A project name is accepted exactly when its kebab name is not
    empty, is at most 50 characters long, is neither [venv] nor [env] (the
    other reserved directory names hold a dot or an underscore, which a
    kebab name cannot) and, when asked to check, no such entry exists in
    the current directory. *)
Theorem validate_project_name_accepts (h : host) (fs : filesystem)
  (project_name : pystr) (check_exists : bool) :
  let k := to_kebab_case project_name in
  validate_project_name h fs project_name check_exists = (true, None) <->
  k <> [] /\ (length k <= 50)%nat /\ k <> lit "venv" /\ k <> lit "env" /\
  (check_exists = true -> fs_exists fs (path_join (cwd h) k) = false).
Proof.
  intros k.
  pose proof (to_kebab_case_chars project_name) as Hc.
  pose proof (to_kebab_case_head project_name) as Hh.
  pose proof (to_kebab_case_last project_name) as Hl.
  fold k in Hc, Hh, Hl.
  unfold validate_project_name. fold k.
  destruct (py_not project_name || py_not (strip py_isspace project_name))
    eqn:B.
  - pose proof (blank_to_kebab_case _ B) as E. fold k in E.
    split; [discriminate|]. intros (H & _). contradiction.
  - destruct k as [|c t] eqn:Ek.
    { split; [discriminate|]. intros (H & _). contradiction. }
    cbn [py_not].
    destruct (50 <? length (c :: t))%nat eqn:L.
    { apply Nat.ltb_lt in L. split; [discriminate|].
      intros (_ & H & _). lia. }
    apply Nat.ltb_ge in L.
    change (length (c :: t) <? 1)%nat with false.
    rewrite (re_match_kebab_nonempty (c :: t)) by (discriminate || exact Hc).
    rewrite Hh, Hl.
    rewrite (py_lower_fixed kebab_char (c :: t) kebab_char_lower Hc).
    rewrite (reserved_dirs_reachable (c :: t) Hc).
    cbn [negb orb].
    destruct (pystr_eqb (c :: t) (lit "venv")) eqn:E1.
    { apply pystr_eqb_eq in E1. split; [discriminate|].
      intros (_ & _ & H & _). contradiction. }
    destruct (pystr_eqb (c :: t) (lit "env")) eqn:E2.
    { apply pystr_eqb_eq in E2. split; [discriminate|].
      intros (_ & _ & _ & H & _). contradiction. }
    cbn [orb].
    assert (N1 : c :: t <> lit "venv").
    { intros E. apply pystr_eqb_eq in E. congruence. }
    assert (N2 : c :: t <> lit "env").
    { intros E. apply pystr_eqb_eq in E. congruence. }
    destruct check_exists; cbn [andb].
    + destruct (fs_exists fs (path_join (cwd h) (c :: t))) eqn:X.
      * split; [discriminate|]. intros (_ & _ & _ & _ & H).
        specialize (H eq_refl). discriminate H.
      * split; [|reflexivity]. intros _. repeat split; auto; discriminate.
    + split; [|reflexivity]. intros _.
      repeat split; auto; discriminate.
Qed.

Example validate_project_name_venv :
  validate_project_name (example_host 2025) empty_fs (lit " Venv! ") true
  = (false,
     Some (lit "Project name ' Venv! ' conflicts with reserved directory name")).
Proof. reflexivity. Qed.

Lemma split_on_plain s :
  forallb (fun c => negb (is_slash c)) s = true -> split_on slash s = [s].
Proof.
  induction s as [|c t IH]; simpl; [reflexivity|].
  intros H. apply andb_true_iff in H as [Hc Ht].
  unfold is_slash in Hc. apply negb_true_iff in Hc. rewrite Hc.
  rewrite (IH Ht). reflexivity.
Qed.

Lemma kebab_one_part k :
  k <> [] -> forallb kebab_char k = true -> path_parts k = [k].
Proof.
  intros Hne Hk. unfold path_parts. rewrite split_on_plain.
  2:{ apply (forallb_imp _ kebab_char); [|exact Hk].
      intros a Ha. rewrite (kebab_char_not_slash a Ha). reflexivity. }
  simpl. unfold real_part.
  destruct k as [|c t]; [contradiction|]. cbn [py_not negb andb].
  destruct (pystr_eqb (c :: t) (lit ".")) eqn:E; [|reflexivity].
  apply pystr_eqb_eq in E. rewrite E in Hk. discriminate Hk.
Qed.

(** X10. Whatever the project name, the target of the build is a direct
    child of the current directory, named by the kebab name: no input can
    make it an absolute path or a path with several components. *)
Theorem project_path_is_child (h : host) (project_name : pystr) :
  to_kebab_case project_name <> [] ->
  path_join (cwd h) (to_kebab_case project_name)
  = cwd h ++ [to_kebab_case project_name].
Proof.
  intros Hne.
  pose proof (to_kebab_case_chars project_name) as Hc.
  rewrite path_join_rel.
  - rewrite (kebab_one_part _ Hne Hc). reflexivity.
  - destruct (to_kebab_case project_name) as [|c t]; [reflexivity|].
    simpl in *. apply andb_true_iff in Hc as [Hc _].
    apply kebab_char_not_slash, Hc.
Qed.

Lemma project_path_is_child_witness :
  to_kebab_case (lit "/etc/../Passwd") <> [] /\
  path_join (cwd (example_host 2025)) (to_kebab_case (lit "/etc/../Passwd"))
  = [lit "home"; lit "dev"; lit "etcpasswd"].
Proof.
  assert (N : to_kebab_case (lit "/etc/../Passwd") <> [])
    by (vm_compute; discriminate).
  split; [exact N|].
  exact (project_path_is_child (example_host 2025) (lit "/etc/../Passwd") N).
Defined.

(** ** The file system: making directories and writing files *)

Lemma longer_path_differs (done : path) c (more : path) x :
  done ++ [c] <> (done ++ [c]) ++ x :: more.
Proof.
  intros E. apply (f_equal (@length pystr)) in E.
  rewrite !length_app in E. simpl in E. lia.
Qed.

Lemma file_in_the_way_put fs p rest :
  file_in_the_way (fs_put fs p Dir) p rest = file_in_the_way fs p rest.
Proof.
  assert (G : forall rest done,
    (exists x more, done = p ++ x :: more) \/ done = p ->
    file_in_the_way (fs_put fs p Dir) done rest
    = file_in_the_way fs done rest).
  { clear rest. induction rest as [|c rest IH]; intros done Hd;
      [reflexivity|]. simpl.
    assert (Hne : p <> done ++ [c]).
    { destruct Hd as [(x & more & ->)| ->].
      - intros E. apply (f_equal (@length pystr)) in E.
        rewrite !length_app in E. simpl in E. lia.
      - intros E. apply (f_equal (@length pystr)) in E.
        rewrite !length_app in E. simpl in E. lia. }
    unfold fs_is_file. rewrite !fs_node_snoc, (fs_put_other _ _ _ _ Hne).
    f_equal. apply IH. left.
    destruct Hd as [(x & more & ->)| ->].
    - exists x, (more ++ [c]). rewrite <- app_assoc. reflexivity.
    - exists c, []. reflexivity. }
  apply G. right. reflexivity.
Qed.

Lemma mkdir_from_fails_iff rest : forall fs done,
  mkdir_from fs done rest = None <-> file_in_the_way fs done rest = true.
Proof.
  induction rest as [|c rest IH]; intros fs done; simpl.
  - split; discriminate.
  - unfold fs_is_file. rewrite fs_node_snoc.
    destruct (fs (done ++ [c])) as [[|content]|] eqn:E; simpl.
    + apply IH.
    + split; reflexivity.
    + rewrite IH. rewrite file_in_the_way_put. reflexivity.
Qed.

Lemma dirs_down_le fs fs' done rest :
  fs_le fs fs' -> dirs_down fs done rest = true ->
  dirs_down fs' done rest = true.
Proof.
  intros Hle. revert done; induction rest as [|c rest IH]; intros done;
    simpl; [auto|].
  intros H. apply andb_true_iff in H as [H1 H2].
  rewrite (proj1 (Hle _) H1), (IH _ H2). reflexivity.
Qed.

Lemma mkdir_from_dirs_down rest : forall fs done fs',
  mkdir_from fs done rest = Some fs' -> dirs_down fs' done rest = true.
Proof.
  induction rest as [|c rest IH]; intros fs done fs' H; [reflexivity|].
  simpl in H. rewrite fs_node_snoc in H. simpl.
  destruct (fs (done ++ [c])) as [[|content]|] eqn:E; [|discriminate|].
  - rewrite (IH _ _ _ H), andb_true_r.
    destruct (mkdir_from_spec _ _ _ _ H) as [Hle _].
    apply (Hle (done ++ [c])). unfold fs_is_dir.
    rewrite fs_node_snoc, E. reflexivity.
  - rewrite (IH _ _ _ H), andb_true_r.
    destruct (mkdir_from_spec _ _ _ _ H) as [Hle _].
    apply (Hle (done ++ [c])). unfold fs_is_dir.
    rewrite fs_node_snoc, fs_put_same. reflexivity.
Qed.

Lemma dirs_down_mkdir_from rest : forall fs done,
  dirs_down fs done rest = true -> mkdir_from fs done rest = Some fs.
Proof.
  induction rest as [|c rest IH]; intros fs done; simpl; [reflexivity|].
  intros H. apply andb_true_iff in H as [H1 H2].
  unfold fs_is_dir in H1.
  destruct (fs_node fs (done ++ [c])) as [[|content]|];
    try discriminate H1. apply IH, H2.
Qed.

Lemma mkdir_from_keeps rest : forall fs done fs' q n,
  mkdir_from fs done rest = Some fs' -> fs q = Some n -> fs' q = Some n.
Proof.
  induction rest as [|c rest IH]; intros fs done fs' q n H Hq; simpl in H.
  - injection H as <-. exact Hq.
  - rewrite fs_node_snoc in H.
    destruct (fs (done ++ [c])) as [[|content]|] eqn:E; [|discriminate|].
    + eapply IH; eassumption.
    + eapply IH; [exact H|]. rewrite fs_put_other; [exact Hq|].
      intros <-. congruence.
Qed.

(** X11. [create_directory] accepts directories that are already there,
    not a file: with a file at the path or at one of its ancestors it
    fails.  When it goes through, the path and all its ancestors are
    directories, everything that was there is kept as it was, and doing
    it again goes through and changes nothing. *)
Theorem create_directory_behaviour (fs : filesystem) (p : path) :
  (file_in_the_way fs [] p = true -> create_directory fs p = None) /\
  (forall fs',
     create_directory fs p = Some fs' ->
     dirs_down fs' [] p = true /\ fs_is_dir fs' p = true /\
     (forall q n, fs q = Some n -> fs' q = Some n) /\
     create_directory fs' p = Some fs').
Proof.
  split; [apply mkdir_from_fails_iff|].
  intros fs' H.
  pose proof (mkdir_from_dirs_down p fs [] fs' H) as D.
  split; [exact D|]. split; [|split].
  - apply (create_directory_spec fs p fs' H).
  - intros q n. apply (mkdir_from_keeps _ _ _ _ q n H).
  - apply dirs_down_mkdir_from, D.
Qed.

Lemma create_directory_behaviour_witness :
  let fs := fs_put empty_fs [lit "srv"] (File (Text (lit "x"))) in
  create_directory fs [lit "srv"; lit "app"; lit "docs"] = None /\
  exists fs',
    create_directory empty_fs [lit "srv"; lit "app"; lit "docs"] = Some fs' /\
    fs_is_dir fs' [lit "srv"; lit "app"] = true /\
    create_directory fs' [lit "srv"; lit "app"; lit "docs"] = Some fs'.
Proof.
  intros fs. split.
  - apply (proj1 (create_directory_behaviour fs
                    [lit "srv"; lit "app"; lit "docs"])).
    reflexivity.
  - destruct (create_directory empty_fs [lit "srv"; lit "app"; lit "docs"])
      as [fs'|] eqn:E; [|vm_compute in E; discriminate E].
    exists fs'. split; [reflexivity|].
    destruct (proj2 (create_directory_behaviour empty_fs
                       [lit "srv"; lit "app"; lit "docs"]) fs' E)
      as (D & _ & _ & I).
    split; [|exact I].
    simpl in D. apply andb_true_iff in D as [_ D].
    apply andb_true_iff in D as [D _]. exact D.
Defined.

Lemma write_file_keeps fs p content fs' q n :
  write_file fs p content = Some fs' ->
  q <> p -> fs q = Some n -> fs' q = Some n.
Proof.
  intros H Hq Hn.
  destruct (write_file_inv _ _ _ _ H) as (f1 & E & _ & _ & _ & ->).
  rewrite fs_put_other by auto.
  exact (mkdir_from_keeps _ _ _ _ _ _ E Hn).
Qed.



(** ** The build: what it touches *)

Lemma is_prefix_iff p q : is_prefix p q = true <-> exists r, q = p ++ r.
Proof.
  revert q; induction p as [|a p IH]; intros q; simpl.
  - split; [intros _; exists q; reflexivity|reflexivity].
  - destruct q as [|b q].
    + split; [discriminate|]. intros [r E]. discriminate E.
    + rewrite andb_true_iff, pystr_eqb_eq, IH. split.
      * intros [-> [r ->]]. exists r. reflexivity.
      * intros [r E]. injection E as -> ->. split; [reflexivity|].
        exists r. reflexivity.
Qed.

Lemma is_prefix_app p r : is_prefix p (p ++ r) = true.
Proof. apply is_prefix_iff. exists r. reflexivity. Qed.






Lemma mkdir_from_changes rest : forall fs done fs' q,
  mkdir_from fs done rest = Some fs' ->
  is_prefix q (done ++ rest) = false -> fs' q = fs q.
Proof.
  induction rest as [|c rest IH]; intros fs done fs' q H Hq; simpl in H.
  - injection H as <-. reflexivity.
  - assert (Hcat : done ++ c :: rest = (done ++ [c]) ++ rest)
      by (rewrite <- app_assoc; reflexivity).
    rewrite fs_node_snoc in H. rewrite Hcat in Hq.
    destruct (fs (done ++ [c])) as [[|content]|] eqn:E; [|discriminate|].
    + eapply IH; eassumption.
    + rewrite (IH _ _ _ _ H Hq). apply fs_put_other. intros <-.
      rewrite is_prefix_app in Hq. discriminate Hq.
Qed.




(** An operation keeps every node that was there, except where it writes
    a file. *)
Lemma run_op_keeps fs op fs' q n :
  run_op fs op = Some fs' ->
  match op with
  | WriteFile p _ => q <> p
  | MakeDir _ => True
  end ->
  fs q = Some n -> fs' q = Some n.
Proof.
  destruct op as [p|p content]; simpl; intros H Hq Hn.
  - eapply mkdir_from_keeps; eassumption.
  - eapply write_file_keeps; eassumption.
Qed.

Lemma removelast_shorter (p : path) :
  p <> [] -> is_prefix p (removelast p) = false.
Proof.
  intros Hp. destruct (is_prefix p (removelast p)) eqn:P; [|reflexivity].
  apply is_prefix_iff in P as [r P].
  pose proof (app_removelast_last [] Hp) as A.
  apply (f_equal (@length pystr)) in P, A.
  rewrite length_app in P, A. simpl in A.
  unfold path, pystr, codepoint in *. exfalso. lia.
Qed.

(** X12. [write_file] makes the missing parent directories, then
    writes.  A file in the way of the parent, a directory at the target
    or a text with a surrogate, which UTF-8 does not encode, makes it
    fail; when only the last is the case, the file is left empty,
    whatever it held.  When it goes through, the content could be
    encoded, the target holds what was written, the parent is a
    directory, every other node that was there is untouched, and a
    second write to the same place, of a content that can be encoded,
    goes through and replaces the content. *)
Theorem write_file_behaviour (fs : filesystem) (p : path)
  (content : payload) :
  (file_in_the_way fs [] (removelast p) = true \/ fs_is_dir fs p = true \/
   writable content = false ->
   write_file fs p content = None) /\
  (p <> [] -> file_in_the_way fs [] (removelast p) = false ->
   fs_is_dir fs p = false -> writable content = false ->
   write_file_raised fs p content p = Some (File (Text []))) /\
  (forall fs',
     write_file fs p content = Some fs' ->
     writable content = true /\
     fs_node fs' p = Some (File content) /\
     fs_is_dir fs' (removelast p) = true /\
     (forall q n, q <> p -> fs q = Some n -> fs' q = Some n) /\
     forall content',
       writable content' = true ->
       exists fs'',
         write_file fs' p content' = Some fs'' /\
         fs_node fs'' p = Some (File content')).
Proof.
  split; [|split].
  - intros H. unfold write_file.
    destruct (create_directory fs (removelast p)) as [f1|] eqn:E;
      [|reflexivity].
    destruct H as [H|[H|H]].
    + apply mkdir_from_fails_iff in H. unfold create_directory in E.
      congruence.
    + destruct (create_directory_spec _ _ _ E) as [Hle _].
      apply Hle in H. unfold fs_is_dir in H.
      destruct (fs_node f1 p) as [[|k]|]; try discriminate H. reflexivity.
    + rewrite H. destruct (fs_node f1 p) as [[|k]|]; reflexivity.
  - intros Hp W D _. unfold write_file_raised.
    destruct (create_directory fs (removelast p)) as [f1|] eqn:E.
    2:{ apply mkdir_from_fails_iff in E. congruence. }
    assert (E1 : f1 p = fs p).
    { apply (mkdir_from_changes _ fs [] f1 p E). simpl.
      apply removelast_shorter, Hp. }
    destruct p as [|x r]; [contradiction|].
    unfold fs_is_dir, fs_node in *. rewrite E1.
    destruct (fs (x :: r)) as [[|k]|]; try discriminate D;
      apply fs_put_same.
  - intros fs' H.
    destruct (write_file_inv _ _ _ _ H) as (f1 & E & D & Hne & Wc & ->).
    assert (P : fs_node (fs_put f1 p (File content)) p = Some (File content)).
    { destruct p; [contradiction|]. unfold fs_node. apply fs_put_same. }
    split; [exact Wc|]. split; [exact P|]. split; [|split].
    + destruct (create_directory_spec _ _ _ E) as [_ Hd].
      assert (Hle : fs_le f1 (fs_put f1 p (File content)))
        by (apply fs_le_put; assumption).
      apply Hle, Hd.
    + intros q n Hq Hn. rewrite fs_put_other by auto.
      eapply mkdir_from_keeps; eassumption.
    + intros content' Wc'.
      assert (D1 : dirs_down (fs_put f1 p (File content)) []
                     (removelast p) = true).
      { apply (dirs_down_le f1); [apply fs_le_put; assumption|].
        apply (mkdir_from_dirs_down _ _ _ _ E). }
      unfold write_file, create_directory.
      rewrite (dirs_down_mkdir_from _ _ _ D1), P, Wc'.
      eexists. split; [reflexivity|].
      destruct p; [contradiction|]. unfold fs_node. apply fs_put_same.
Qed.

Lemma write_file_behaviour_witness :
  let p := [lit "srv"; lit "app"; lit "LICENSE"] in
  (exists fs',
     write_file empty_fs p (Text (lit "one")) = Some fs' /\
     fs_node fs' p = Some (File (Text (lit "one"))) /\
     fs_is_dir fs' [lit "srv"; lit "app"] = true) /\
  write_file empty_fs p (Text [56553%N]) = None /\
  write_file_raised empty_fs p (Text [56553%N]) p = Some (File (Text [])).
Proof.
  intros p. split; [|split].
  - destruct (write_file empty_fs p (Text (lit "one"))) as [fs'|] eqn:E;
      [|vm_compute in E; discriminate E].
    exists fs'. split; [reflexivity|].
    destruct (proj2 (proj2 (write_file_behaviour empty_fs p
                              (Text (lit "one")))) fs' E)
      as (_ & A & B & _).
    split; [exact A|exact B].
  - apply (proj1 (write_file_behaviour empty_fs p (Text [56553%N]))).
    right. right. reflexivity.
  - apply (proj1 (proj2 (write_file_behaviour empty_fs p
                           (Text [56553%N]))));
      [discriminate|reflexivity|reflexivity|reflexivity].
Defined.












(** ** StructureValidator: what the report holds *)

Lemma filter_nil_iff (A : Type) (f : A -> bool) (l : list A) :
  filter f l = [] <-> forall x, In x l -> f x = false.
Proof.
  split; [|apply filter_none].
  intros E x Hx. destruct (f x) eqn:F; [|reflexivity].
  assert (H : In x (filter f l)) by (apply filter_In; auto).
  rewrite E in H. contradiction.
Qed.

Lemma report_snd (errors : list pystr) :
  snd (match errors with
       | [] => (true, [])
       | _ :: _ => (false, errors)
       end) = errors.
Proof. destruct errors; reflexivity. Qed.

Lemma in_report (errors : list pystr) x :
  In x errors ->
  In x (snd (match errors with
             | [] => (true, [])
             | _ :: _ => (false, errors)
             end)).
Proof. rewrite report_snd. auto. Qed.

Lemma report_fst (errors : list pystr) :
  fst (match errors with
       | [] => (true, [])
       | _ :: _ => (false, errors)
       end) = true <-> errors = [].
Proof. destruct errors; simpl; split; intros E; try discriminate E; reflexivity. Qed.

(** X15. [validate_structure] says ok exactly when every required file
    exists and every required directory is a directory; otherwise its
    report has one line for each missing file and one for each missing
    directory, not only for the first. *)
Theorem validate_structure_report (fs : filesystem) (project_path : path)
  (project_name package_name : pystr) (modules : list pystr) :
  let r := validate_structure fs project_path project_name package_name
             modules in
  (fst r = true <->
   (forall f, In f (required_files package_name modules) ->
              fs_exists fs (path_join project_path f) = true) /\
   (forall d, In d (required_dirs package_name modules) ->
              fs_is_dir fs (path_join project_path d) = true)) /\
  (forall f, In f (required_files package_name modules) ->
             fs_exists fs (path_join project_path f) = false ->
             In (lit "Missing: " ++ f) (snd r)) /\
  (forall d, In d (required_dirs package_name modules) ->
             fs_is_dir fs (path_join project_path d) = false ->
             In (lit "Missing directory: " ++ d) (snd r)) /\
  length (snd r)
  = length (filter (fun f => negb (fs_exists fs (path_join project_path f)))
              (required_files package_name modules))
    + length (filter (fun d => negb (fs_is_dir fs (path_join project_path d)))
                (required_dirs package_name modules)).
Proof.
  intros r. unfold r, validate_structure. cbv zeta.
  set (mf := filter (fun f => negb (fs_exists fs (path_join project_path f)))
               (required_files package_name modules)).
  set (md := filter (fun d => negb (fs_is_dir fs (path_join project_path d)))
               (required_dirs package_name modules)).
  set (errors := map (fun f => lit "Missing: " ++ f) mf
                 ++ map (fun d => lit "Missing directory: " ++ d) md).
  assert (F : fst (match errors with
                   | [] => (true, [])
                   | _ :: _ => (false, errors)
                   end) = true <-> mf = [] /\ md = []).
  { rewrite report_fst. unfold errors.
    destruct mf as [|a mf']; destruct md as [|b md']; simpl;
      split; try (intros [? ?]); try discriminate; auto. }
  split; [|split; [|split]].
  - rewrite F. unfold mf, md. rewrite !filter_nil_iff. split.
    + intros [H1 H2]. split; intros x Hx.
      * apply negb_false_iff, H1, Hx.
      * apply negb_false_iff, H2, Hx.
    + intros [H1 H2]. split; intros x Hx; apply negb_false_iff; auto.
  - intros f Hf E. apply (in_report errors). unfold errors.
    apply in_or_app. left.
    apply (in_map (fun f => lit "Missing: " ++ f)). apply filter_In.
    rewrite E. auto.
  - intros d Hd E. apply (in_report errors). unfold errors.
    apply in_or_app. right.
    apply (in_map (fun d => lit "Missing directory: " ++ d)).
    apply filter_In. rewrite E. auto.
  - etransitivity; [exact (f_equal (@length pystr) (report_snd errors))|].
    unfold errors. rewrite length_app, !length_map. reflexivity.
Qed.

Lemma validate_structure_report_witness :
  let h := example_host 2025 in
  let pp := [lit "home"; lit "dev"; lit "api"] in
  let fs := fs_put empty_fs pp Dir in
  In (lit "favicon.ico") (required_files (lit "api") [lit "users"]) /\
  fs_exists fs (path_join pp (lit "favicon.ico")) = false /\
  In (lit "Missing: favicon.ico")
     (snd (validate_structure fs pp (lit "api") (lit "api") [lit "users"])).
Proof.
  intros h pp fs.
  assert (I : In (lit "favicon.ico")
                (required_files (lit "api") [lit "users"]))
    by (unfold required_files; apply in_or_app; left; cbn [In]; tauto).
  assert (E : fs_exists fs (path_join pp (lit "favicon.ico")) = false)
    by reflexivity.
  split; [exact I|]. split; [exact E|].
  exact (proj1 (proj2 (validate_structure_report fs pp (lit "api")
                         (lit "api") [lit "users"]))
           (lit "favicon.ico") I E).
Defined.

Example validate_structure_empty_tree :
  let r := validate_structure empty_fs [lit "home"; lit "dev"; lit "api"]
             (lit "api") (lit "api") [lit "users"; lit "auth"] in
  fst r = false /\ length (snd r) = (14 + 3 * 2) + (7 + 2).
Proof. vm_compute. split; reflexivity. Qed.

(** ** main: the list of modules typed by the user *)

Lemma split_on_no_sep sep s piece :
  In piece (split_on sep s) -> ~ In sep piece.
Proof.
  revert piece; induction s as [|c t IH]; intros piece; simpl.
  - intros [<-|[]] [].
  - destruct (N.eqb_spec c sep) as [->|Hne].
    + intros [<-|H]; [intros []|]. apply IH, H.
    + pose proof (split_on_nonempty sep t) as Hn.
      destruct (split_on sep t) as [|x r] eqn:E; [contradiction|].
      intros [<-|H].
      * intros [Hc|Hin]; [congruence|].
        apply (IH x); [left; reflexivity|exact Hin].
      * apply IH. right. exact H.
Qed.

Lemma split_on_none sep s :
  ~ In sep s -> split_on sep s = [s].
Proof.
  induction s as [|c t IH]; simpl; [reflexivity|].
  intros H. destruct (N.eqb_spec c sep) as [->|Hne]; [tauto|].
  rewrite IH by tauto. reflexivity.
Qed.

Lemma split_on_join sep l :
  l <> [] -> Forall (fun s => ~ In sep s) l ->
  split_on sep (join [sep] l) = l.
Proof.
  induction l as [|x l IH]; [contradiction|]. intros _ H.
  inversion H as [|? ? Hx Hl]; subst.
  destruct l as [|y l]; [apply split_on_none, Hx|].
  change (join [sep] (x :: y :: l)) with (x ++ sep :: join [sep] (y :: l)).
  rewrite split_on_app, (split_on_none sep x Hx), IH by (discriminate || auto).
  reflexivity.
Qed.

Lemma parsed_entry_shape modules_input m :
  In m (parse_modules modules_input) -> entry_shape m.
Proof.
  unfold parse_modules, entry_shape. intros H. apply filter_In in H as [H Hne].
  apply in_map_iff in H as (piece & <- & Hp).
  split; [|split; [|split]].
  - destruct (strip py_isspace piece); [discriminate Hne|discriminate].
  - apply head_is_rstrip, head_is_lstrip.
  - apply last_is_rstrip.
  - intros Hc. apply In_rstrip_inv, In_lstrip_inv in Hc.
    exact (split_on_no_sep comma modules_input piece Hp Hc).
Qed.

(** X16. Every module name that [main] takes from the comma-separated
    answer is non-empty, has no whitespace at either end and holds no
    comma. *)
Theorem parse_modules_entries (modules_input m : pystr) :
  In m (parse_modules modules_input) ->
  m <> [] /\ head_is py_isspace m = false /\ last_is py_isspace m = false /\
  ~ In comma m.
Proof. exact (parsed_entry_shape modules_input m). Qed.

Lemma parse_modules_entries_witness :
  In (lit "Billing Core") (parse_modules (lit " users ,, Billing Core ,")) /\
  lit "Billing Core" <> [] /\ ~ In comma (lit "Billing Core").
Proof.
  assert (I : In (lit "Billing Core")
                (parse_modules (lit " users ,, Billing Core ,")))
    by (vm_compute; tauto).
  split; [exact I|].
  destruct (parse_modules_entries _ _ I) as (A & _ & _ & B).
  split; [exact A|exact B].
Defined.

Lemma filter_all (A : Type) (f : A -> bool) (l : list A) :
  (forall x, In x l -> f x = true) -> filter f l = l.
Proof.
  induction l as [|a l IH]; intros H; simpl; [reflexivity|].
  rewrite (H a (or_introl eq_refl)). f_equal. apply IH.
  intros x Hx. apply H. right. exact Hx.
Qed.

Lemma parse_join_back modules :
  Forall entry_shape modules ->
  parse_modules (join [comma] modules) = modules.
Proof.
  intros H. unfold parse_modules.
  destruct modules as [|x l]; [reflexivity|].
  rewrite split_on_join; [|discriminate|].
  2:{ apply Forall_forall. intros m Hm.
      rewrite Forall_forall in H. apply (H m Hm). }
  assert (M : map (strip py_isspace) (x :: l) = x :: l).
  { rewrite <- (map_id (x :: l)) at 2. apply map_ext_in.
    intros m Hm. rewrite Forall_forall in H.
    destruct (H m Hm) as (_ & Hh & Hl & _). unfold strip.
    rewrite (lstrip_fixed py_isspace m Hh). apply rstrip_fixed, Hl. }
  rewrite M. apply filter_all.
  intros m Hm. rewrite Forall_forall in H.
  destruct (H m Hm) as (Hne & _). destruct m; [contradiction|reflexivity].
Qed.

(** X17. Joining module names with commas, as [main] does for the
    default answer it builds from the extracted modules, and parsing the
    result gives the names back, when each name is non-empty, has no
    whitespace at either end and holds no comma. *)
Theorem parse_modules_join (modules : list pystr) :
  Forall (fun m => m <> [] /\ head_is py_isspace m = false /\
                   last_is py_isspace m = false /\ ~ In comma m) modules ->
  parse_modules (join [comma] modules) = modules.
Proof. exact (parse_join_back modules). Qed.

Lemma parse_modules_join_witness :
  parse_modules (join [comma] [lit "users"; lit "Billing Core"; lit "auth"])
  = [lit "users"; lit "Billing Core"; lit "auth"].
Proof.
  apply parse_modules_join.
  repeat (constructor;
          [split; [discriminate|];
           split; [reflexivity|];
           split; [reflexivity|];
           intros H; vm_compute in H; intuition discriminate|]).
  constructor.
Defined.

(** ** The icon encoder: the pixels *)

(** X18. In the icon, the pixel rows are stored bottom-up: the four
    bytes of column [col] in the [row]-th stored row are blue, green,
    red and alpha of the pixel at x = [col], y = 15 - [row].  Every
    channel value is a byte, whatever the coordinates. *)
Theorem pixels_bottom_up :
  (forall row col, (row < 16)%nat -> (col < 16)%nat ->
     field (62 + 4 * (row * 16 + col)) 4 generate_favicon_ico
     = pixel (Z.of_nat col) (15 - Z.of_nat row)) /\
  (forall x y, forallb is_byte (pixel x y) = true) /\
  (forall x y, exists blue green,
     pixel x y = [blue; green; 30; 255]%Z /\
     (100 <= blue < 150)%Z /\ (50 <= green < 80)%Z).
Proof.
  split; [|split].
  - intros row col Hr Hc.
    do 16 (destruct row as [|row];
           [do 16 (destruct col as [|col]; [vm_compute; reflexivity|]); lia|]).
    lia.
  - intros x y. unfold pixel, is_byte. cbn [forallb].
    pose proof (Z.mod_pos_bound (x * 3) 50 eq_refl).
    pose proof (Z.mod_pos_bound (y * 2) 30 eq_refl).
    rewrite !andb_true_iff, !Z.leb_le, !Z.ltb_lt. lia.
  - intros x y. unfold pixel. eexists. eexists. split; [reflexivity|].
    pose proof (Z.mod_pos_bound (x * 3) 50 eq_refl).
    pose proof (Z.mod_pos_bound (y * 2) 30 eq_refl). lia.
Qed.

Lemma pixels_bottom_up_witness :
  field (62 + 4 * (15 * 16 + 3)) 4 generate_favicon_ico
  = [109; 50; 30; 255]%Z.
Proof.
  refine (proj1 pixels_bottom_up 15 3 _ _); apply Nat.ltb_lt; reflexivity.
Defined.

(** ** NameNormalizer: how the two canonical forms are related *)

Lemma sub_runs_app_clean (P : codepoint -> bool) rep b (w r : pystr) :
  forallb (fun c => negb (P c)) w = true ->
  sub_runs P rep b (w ++ r)
  = w ++ sub_runs P rep (match w with [] => b | _ :: _ => false end) r.
Proof.
  revert b; induction w as [|c w IH]; intros b H; [reflexivity|].
  simpl in H. apply andb_true_iff in H as [Hc Hw].
  apply negb_true_iff in Hc. simpl. rewrite Hc. f_equal.
  rewrite (IH false Hw). destruct w; reflexivity.
Qed.

Lemma lower_cp_has_hyphen d : In hyphen (lower_cp d) -> d = hyphen.
Proof.
  unfold lower_cp.
  destruct (is_upper_AZ d) eqn:U;
    [|destruct (d =? 304)%N eqn:E1; [|destruct (d =? 8490)%N eqn:E2]];
    simpl.
  - intros [H|[]]. revert H U. unfold hyphen. class_props. lia.
  - intros [H|[H|[]]]; discriminate H.
  - intros [H|[]]; discriminate H.
  - intros [H|[]]. exact H.
Qed.

Lemma lower_cp_has_underscore d : In underscore (lower_cp d) -> d = underscore.
Proof.
  unfold lower_cp.
  destruct (is_upper_AZ d) eqn:U;
    [|destruct (d =? 304)%N eqn:E1; [|destruct (d =? 8490)%N eqn:E2]];
    simpl.
  - intros [H|[]]. revert H U. unfold underscore. class_props. lia.
  - intros [H|[H|[]]]; discriminate H.
  - intros [H|[]]; discriminate H.
  - intros [H|[]]. exact H.
Qed.

Lemma filter_ext_in_bool (f g : codepoint -> bool) (l : pystr) :
  (forall c, In c l -> f c = g c) -> filter f l = filter g l.
Proof.
  induction l as [|a l IH]; intros H; simpl; [reflexivity|].
  rewrite (H a (or_introl eq_refl)), IH; [reflexivity|].
  intros c Hc. apply H. right. exact Hc.
Qed.

Lemma alnum_not_sep c :
  alnum c = true -> is_hyphen c = false /\ is_underscore c = false.
Proof. unfold alnum. class_props. lia. Qed.

Section Fused.
(** [S] is the class of the first step, [h] the separator of the
    convention and [K] the class that is kept. *)
Variables (S K : codepoint -> bool) (h : codepoint).
Hypothesis S_sep : forall d, sepchar d = S d || (d =? h)%N.
Hypothesis K_class : forall c, K c = alnum c || (c =? h)%N.
Hypothesis h_lower : lower_cp h = [h].
Hypothesis h_only : forall d, In h (lower_cp d) -> d = h.
Hypothesis h_not_alnum : alnum h = false.

Let is_h (c : codepoint) : bool := (c =? h)%N.

Lemma kept_of_plain d :
  sepchar d = false -> filter K (lower_cp d) = filter alnum (lower_cp d).
Proof.
  intros Hd. apply filter_ext_in_bool. intros c Hc. rewrite K_class.
  destruct (N.eqb_spec c h) as [->|Hne]; [|apply orb_false_r].
  apply h_only in Hc. subst d. rewrite S_sep, N.eqb_refl, orb_true_r in Hd.
  discriminate Hd.
Qed.

Lemma alnum_clean (w : pystr) :
  forallb (fun c => negb (is_h c)) (filter alnum w) = true.
Proof.
  induction w as [|c w IH]; simpl; [reflexivity|].
  destruct (alnum c) eqn:A; [|exact IH]. simpl. rewrite IH, andb_true_r.
  unfold is_h. destruct (N.eqb_spec c h) as [->|]; [|reflexivity].
  congruence.
Qed.

(** Steps 1 to 4 of a transform, the two run flags given, are the scan,
    as long as being in a run of the first step means being in a run of
    the fourth. *)
Lemma fused_scan (s : pystr) : forall b1 b2,
  (b1 = true -> b2 = true) ->
  sub_runs is_h [h] b2 (filter K (py_lower (sub_runs S [h] b1 s)))
  = scan h b2 s.
Proof.
  induction s as [|d t IH]; intros b1 b2 Hb; [reflexivity|].
  cbn [sub_runs scan]. rewrite S_sep.
  destruct (S d) eqn:Sd; cbn [orb].
  - destruct b1.
    + rewrite (Hb eq_refl). rewrite IH by auto. reflexivity.
    + cbn [app py_lower flat_map]. rewrite h_lower. cbn [app filter].
      rewrite K_class, N.eqb_refl, orb_true_r. cbn [sub_runs].
      unfold is_h at 1. rewrite N.eqb_refl.
      destruct b2; rewrite IH by auto; reflexivity.
  - cbn [py_lower flat_map]. rewrite filter_app.
    destruct (N.eqb_spec d h) as [->|Hne].
    + rewrite h_lower. cbn [filter app].
      rewrite K_class, N.eqb_refl, orb_true_r. cbn [sub_runs app].
      unfold is_h at 1. rewrite N.eqb_refl.
      destruct b2; rewrite IH by discriminate; reflexivity.
    + assert (Hd : sepchar d = false).
      { rewrite S_sep, Sd. apply N.eqb_neq in Hne. rewrite Hne.
        reflexivity. }
      rewrite (kept_of_plain d Hd).
      rewrite sub_runs_app_clean by apply alnum_clean.
      destruct (filter alnum (lower_cp d)) as [|c w].
      * apply IH. discriminate.
      * f_equal. apply IH. discriminate.
Qed.
End Fused.

Lemma to_kebab_case_scan x :
  to_kebab_case x = strip is_hyphen (scan hyphen false x).
Proof.
  unfold to_kebab_case, re_sub_runs, re_keep. f_equal.
  apply (fused_scan space_or_underscore kebab_char hyphen).
  - intros d. unfold sepchar, space_or_underscore, is_hyphen, is_underscore.
    destruct (py_isspace d), (d =? hyphen)%N, (d =? underscore)%N;
      reflexivity.
  - intros c. reflexivity.
  - reflexivity.
  - apply lower_cp_has_hyphen.
  - reflexivity.
  - discriminate.
Qed.

Lemma to_snake_case_scan x :
  to_snake_case x = strip is_underscore (scan underscore false x).
Proof.
  unfold to_snake_case, re_sub_runs, re_keep. f_equal.
  apply (fused_scan space_or_hyphen snake_char underscore).
  - intros d. unfold sepchar, space_or_hyphen, is_hyphen, is_underscore.
    destruct (py_isspace d), (d =? hyphen)%N, (d =? underscore)%N;
      reflexivity.
  - intros c. reflexivity.
  - reflexivity.
  - apply lower_cp_has_underscore.
  - reflexivity.
  - discriminate.
Qed.

Lemma filter_alnum_map w :
  map hyphen_to_underscore (filter alnum w) = filter alnum w.
Proof.
  induction w as [|c w IH]; simpl; [reflexivity|].
  destruct (alnum c) eqn:A; [|exact IH]. simpl. rewrite IH.
  unfold hyphen_to_underscore.
  destruct (alnum_not_sep c A) as [-> _]. reflexivity.
Qed.

Lemma scan_map b x :
  scan underscore b x = map hyphen_to_underscore (scan hyphen b x).
Proof.
  revert b; induction x as [|d t IH]; intros b; [reflexivity|].
  cbn [scan]. destruct (sepchar d).
  - rewrite map_app, IH. destruct b; reflexivity.
  - pose proof (filter_alnum_map (lower_cp d)) as M.
    destruct (filter alnum (lower_cp d)) as [|c w]; [apply IH|].
    rewrite map_app, M, IH. reflexivity.
Qed.

Lemma scan_chars sep b x :
  forall c, In c (scan sep b x) -> alnum c = true \/ c = sep.
Proof.
  revert b; induction x as [|d t IH]; intros b c; cbn [scan];
    [contradiction|].
  destruct (sepchar d).
  - intros H. apply in_app_or in H as [H|H]; [|eapply IH, H].
    destruct b; [contradiction|]. destruct H as [<-|[]]. auto.
  - assert (A : forall c, In c (filter alnum (lower_cp d)) -> alnum c = true)
      by (intros c' Hc'; apply filter_In in Hc'; tauto).
    destruct (filter alnum (lower_cp d)) as [|c0 w]; [apply IH|].
    intros H. apply in_app_or in H as [H|H]; [left; apply A, H|].
    eapply IH, H.
Qed.

Lemma hyphen_to_underscore_hyphen c :
  is_hyphen c = true -> hyphen_to_underscore c = underscore.
Proof. unfold hyphen_to_underscore. intros ->. reflexivity. Qed.

Lemma hyphen_to_underscore_other c :
  is_hyphen c = false -> hyphen_to_underscore c = c.
Proof. unfold hyphen_to_underscore. intros ->. reflexivity. Qed.

Lemma lstrip_map (s : pystr) :
  (forall c, In c s -> is_underscore c = false) ->
  lstrip is_underscore (map hyphen_to_underscore s)
  = map hyphen_to_underscore (lstrip is_hyphen s).
Proof.
  induction s as [|c s IH]; intros H; [reflexivity|].
  cbn [map lstrip]. destruct (is_hyphen c) eqn:Hc.
  - rewrite (hyphen_to_underscore_hyphen c Hc).
    change (is_underscore underscore) with true. cbv iota.
    apply IH. intros x Hx. apply H. right. exact Hx.
  - cbn [map]. rewrite (hyphen_to_underscore_other c Hc).
    rewrite (H c (or_introl eq_refl)). reflexivity.
Qed.

Lemma rstrip_map (s : pystr) :
  (forall c, In c s -> is_underscore c = false) ->
  rstrip is_underscore (map hyphen_to_underscore s)
  = map hyphen_to_underscore (rstrip is_hyphen s).
Proof.
  induction s as [|c s IH]; intros H; [reflexivity|].
  cbn [map rstrip].
  rewrite IH by (intros x Hx; apply H; right; exact Hx).
  destruct (rstrip is_hyphen s) as [|r rs]; cbn [map]; [|reflexivity].
  destruct (is_hyphen c) eqn:Hc; cbn [map].
  - rewrite (hyphen_to_underscore_hyphen c Hc). reflexivity.
  - rewrite !(hyphen_to_underscore_other c Hc).
    rewrite (H c (or_introl eq_refl)). reflexivity.
Qed.

Lemma kebab_scan_no_underscore b x c :
  In c (scan hyphen b x) -> is_underscore c = false.
Proof.
  intros H. destruct (scan_chars hyphen b x c H) as [A| ->];
    [apply alnum_not_sep, A|reflexivity].
Qed.

Lemma to_snake_case_of_kebab x :
  to_snake_case x = map hyphen_to_underscore (to_kebab_case x).
Proof.
  rewrite to_snake_case_scan, to_kebab_case_scan, scan_map. unfold strip.
  rewrite lstrip_map by (intros c; apply kebab_scan_no_underscore).
  apply rstrip_map. intros c Hc. apply In_lstrip_inv in Hc.
  eapply kebab_scan_no_underscore, Hc.
Qed.

Lemma map_back (s : pystr) :
  (forall c, In c s -> is_underscore c = false) ->
  map underscore_to_hyphen (map hyphen_to_underscore s) = s.
Proof.
  induction s as [|c s IH]; intros H; [reflexivity|]. simpl.
  rewrite IH by (intros x Hx; apply H; right; exact Hx). f_equal.
  unfold hyphen_to_underscore, underscore_to_hyphen.
  destruct (is_hyphen c) eqn:Hc.
  - apply N.eqb_eq in Hc. subst c. reflexivity.
  - rewrite (H c (or_introl eq_refl)). reflexivity.
Qed.

Lemma to_kebab_case_no_underscore x c :
  In c (to_kebab_case x) -> is_underscore c = false.
Proof.
  intros H. pose proof (to_kebab_case_chars x) as Hc.
  rewrite forallb_forall in Hc. specialize (Hc c H).
  revert Hc. class_props. lia.
Qed.

Lemma to_kebab_case_of_snake x :
  to_kebab_case x = map underscore_to_hyphen (to_snake_case x).
Proof.
  rewrite to_snake_case_of_kebab. symmetry.
  apply map_back, to_kebab_case_no_underscore.
Qed.

(** X19. The two canonical forms of a name are the same text up to the
    separator: the snake name is the kebab name with each hyphen turned
    into an underscore, and conversely.  So normalising one form into the
    other convention gives what normalising the raw name gives. *)
Theorem canonical_forms_agree (x : pystr) :
  to_snake_case x = map hyphen_to_underscore (to_kebab_case x) /\
  to_kebab_case x = map underscore_to_hyphen (to_snake_case x) /\
  to_snake_case (to_kebab_case x) = to_snake_case x /\
  to_kebab_case (to_snake_case x) = to_kebab_case x.
Proof.
  split; [apply to_snake_case_of_kebab|].
  split; [apply to_kebab_case_of_snake|]. split.
  - rewrite (to_snake_case_of_kebab (to_kebab_case x)),
      (to_snake_case_of_kebab x). f_equal.
    apply to_kebab_case_fixed;
      auto using to_kebab_case_chars, to_kebab_case_no_double,
        to_kebab_case_head, to_kebab_case_last.
  - rewrite (to_kebab_case_of_snake (to_snake_case x)),
      (to_kebab_case_of_snake x). f_equal.
    apply to_snake_case_fixed;
      auto using to_snake_case_chars, to_snake_case_no_double,
        to_snake_case_head, to_snake_case_last.
Qed.

Example canonical_forms_my_cool_api :
  to_kebab_case (lit " My__Cool - API!! ") = lit "my-cool-api" /\
  to_snake_case (lit " My__Cool - API!! ") = lit "my_cool_api".
Proof. split; reflexivity. Qed.

(** ** The artifacts: no two at the same place *)

Lemma last_py s : last (s ++ lit ".py") 0%N = 121%N.
Proof.
  change (lit ".py") with ([46%N; 112%N] ++ [121%N]).
  rewrite app_assoc. apply last_last.
Qed.

(** A literal that does not end in [y] is no module file name. *)
Ltac ends_differ H :=
  apply (f_equal (fun l => last l 0%N)) in H;
  rewrite last_py in H; vm_compute in H; discriminate H.

Lemma init_is_no_module m : lit "__init__.py" <> to_snake_case m ++ lit ".py".
Proof.
  change (lit "__init__.py") with (lit "__init__" ++ lit ".py").
  intros H. apply app_inv_tail in H.
  pose proof (to_snake_case_head m) as Hh. rewrite <- H in Hh.
  discriminate Hh.
Qed.

Section Distinct.
Variables (pkg : pystr) (modules : list pystr).
Hypothesis pkg_not_test : pkg <> lit "test".
Hypothesis pkg_not_config : pkg <> lit "config".

Let module_paths (module : pystr) : list (list pystr) :=
  [ [pkg; to_snake_case module ++ lit ".py"];
    [lit "docs"; to_snake_case module; lit "README.md"];
    [lit "test"; lit "test_" ++ to_snake_case module ++ lit ".py"] ].

Let head_paths : list (list pystr) :=
  [ [lit "README.md"]; [lit "NOTE_FOR_AGENTS.md"]; [lit "LICENSE"];
    [lit ".gitignore"]; [lit "requirements.txt"]; [lit "favicon.ico"];
    [lit "main.py"]; [lit "config"; lit "config.py"];
    [lit "config"; lit "config_example.py"];
    [pkg; lit "__init__.py"];
    [pkg; lit "utils"; lit "__init__.py"];
    [pkg; lit "utils"; lit "logging.py"] ].

Let tail_paths : list (list pystr) :=
  [ [lit "docs"; lit "README.md"]; [lit "test"; lit "README.md"];
    [lit "downloads"; lit ".gitkeep"] ].

Ltac differ H :=
  first
    [ discriminate H
    | let E := fresh "E" in
      injection H as E;
      first [ exact (init_is_no_module _ E)
            | exact (init_is_no_module _ (eq_sym E))
            | ends_differ E
            | symmetry in E; ends_differ E ]
    | let E1 := fresh "E" in
      let E2 := fresh "E" in
      injection H as E1 E2;
      first [ exact (pkg_not_test E1) | exact (pkg_not_test (eq_sym E1))
            | exact (pkg_not_config E1) | exact (pkg_not_config (eq_sym E1))
            | ends_differ E2
            | symmetry in E2; ends_differ E2 ] ].

Lemma head_paths_distinct : NoDup head_paths.
Proof.
  unfold head_paths.
  repeat (constructor;
          [cbn [In]; intros H;
           repeat (destruct H as [H|H]; [discriminate H|]); exact H|]).
  constructor.
Qed.

Lemma tail_paths_distinct : NoDup tail_paths.
Proof.
  unfold tail_paths.
  repeat (constructor;
          [cbn [In]; intros H;
           repeat (destruct H as [H|H]; [discriminate H|]); exact H|]).
  constructor.
Qed.

Lemma module_paths_distinct :
  NoDup (map to_snake_case modules) ->
  NoDup (flat_map module_paths modules).
Proof.
  induction modules as [|m rest IH]; intros Hn; [constructor|].
  simpl in Hn. inversion Hn as [|? ? Hm Hrest]; subst.
  cbn [flat_map]. apply NoDup_app.
  - unfold module_paths.
    repeat (constructor;
            [cbn [In]; intros H;
             repeat (destruct H as [H|H]; [differ H|]); exact H|]).
    constructor.
  - apply IH, Hrest.
  - intros a Ha Hb. apply in_flat_map in Hb as (m' & Hm' & Hb).
    assert (Hne : to_snake_case m <> to_snake_case m').
    { intros E. apply Hm. rewrite E. apply in_map, Hm'. }
    unfold module_paths in Ha, Hb. cbn [In] in Ha, Hb.
    destruct Ha as [<-|[<-|[<-|[]]]];
      destruct Hb as [H|[H|[H|[]]]];
      try (differ H; fail).
    + injection H as H. apply app_inv_tail in H. congruence.
    + injection H as H. congruence.
    + injection H as H. apply app_inv_tail in H. congruence.
Qed.

Lemma head_not_module a m :
  In a head_paths -> In a (module_paths m) -> False.
Proof.
  unfold head_paths, module_paths. cbn [In]. intros Ha Hb.
  repeat (destruct Ha as [<-|Ha];
          [destruct Hb as [H|[H|[H|[]]]]; differ H|]).
  exact Ha.
Qed.

Lemma tail_not_head a : In a head_paths -> In a tail_paths -> False.
Proof.
  unfold head_paths, tail_paths. cbn [In]. intros Ha Hb.
  repeat (destruct Ha as [<-|Ha];
          [destruct Hb as [H|[H|[H|[]]]]; discriminate H|]).
  exact Ha.
Qed.

Lemma tail_not_module a m :
  In a (module_paths m) -> In a tail_paths -> False.
Proof.
  unfold module_paths, tail_paths. cbn [In]. intros Ha Hb.
  repeat (destruct Ha as [<-|Ha];
          [destruct Hb as [H|[H|[H|[]]]]; differ H|]).
  exact Ha.
Qed.

Lemma all_paths_distinct :
  NoDup (map to_snake_case modules) ->
  NoDup (head_paths ++ flat_map module_paths modules ++ tail_paths).
Proof.
  intros Hn. apply NoDup_app; [apply head_paths_distinct| |].
  - apply NoDup_app;
      [apply module_paths_distinct, Hn|apply tail_paths_distinct|].
    intros a Ha Hb. apply in_flat_map in Ha as (m & _ & Ha).
    exact (tail_not_module a m Ha Hb).
  - intros a Ha Hb. apply in_app_or in Hb as [Hb|Hb].
    + apply in_flat_map in Hb as (m & _ & Hb).
      exact (head_not_module a m Ha Hb).
    + exact (tail_not_head a Ha Hb).
Qed.
End Distinct.

Lemma plain_one_part s :
  forallb (fun c => negb (is_slash c)) s = true ->
  s <> [] -> s <> lit "." -> one_part s.
Proof.
  intros Hs Hne Hdot. split.
  - destruct s as [|c t]; [reflexivity|]. simpl in *.
    apply andb_true_iff in Hs as [Hc _]. apply negb_true_iff, Hc.
  - unfold path_parts. rewrite (split_on_plain s Hs). simpl.
    unfold real_part. destruct s as [|c t]; [contradiction|].
    cbn [py_not negb andb].
    destruct (pystr_eqb (c :: t) (lit ".")) eqn:E; [|reflexivity].
    apply pystr_eqb_eq in E. contradiction.
Qed.

Lemma snake_no_slash s :
  forallb snake_char s = true ->
  forallb (fun c => negb (is_slash c)) s = true.
Proof.
  apply forallb_imp. intros a Ha. rewrite (snake_char_not_slash a Ha).
  reflexivity.
Qed.

Lemma snake_one_part s :
  forallb snake_char s = true -> s <> [] -> one_part s.
Proof.
  intros Hs Hne. apply plain_one_part; [apply snake_no_slash, Hs|exact Hne|].
  intros E. rewrite E in Hs. discriminate Hs.
Qed.

Lemma module_file_one_part (prefix : pystr) m :
  forallb (fun c => negb (is_slash c)) prefix = true ->
  one_part (prefix ++ to_snake_case m ++ lit ".py").
Proof.
  intros Hp. apply plain_one_part.
  - rewrite !forallb_app, Hp, (snake_no_slash _ (to_snake_case_chars m)).
    reflexivity.
  - intros E. apply app_eq_nil in E as [_ E].
    apply app_eq_nil in E as [_ E]. discriminate E.
  - rewrite app_assoc. intros E.
    apply (f_equal (fun l => last l 0%N)) in E. rewrite last_py in E.
    vm_compute in E. discriminate E.
Qed.

Lemma under_one_parts segs : forall pp,
  Forall one_part segs -> under pp segs = pp ++ segs.
Proof.
  unfold under. induction segs as [|s segs IH]; intros pp H; simpl.
  - symmetry. apply app_nil_r.
  - inversion H as [|? ? [Hh Hp] Hrest]; subst.
    rewrite (path_join_rel pp s Hh), Hp, (IH _ Hrest), <- app_assoc.
    reflexivity.
Qed.

Lemma literal_one_part s :
  head_is is_slash s = false -> path_parts s = [s] -> one_part s.
Proof. intros A B. split; assumption. Qed.

Ltac one_parts :=
  repeat (constructor;
          [first [ apply literal_one_part; reflexivity
                 | assumption
                 | apply (module_file_one_part []); reflexivity
                 | apply (module_file_one_part (lit "test_")); reflexivity ]|]);
  constructor.

Lemma artifact_segments_one_part h project_name description modules segs :
  to_snake_case project_name <> [] ->
  (forall m, In m modules -> to_snake_case m <> []) ->
  In segs (map fst (project_artifacts h project_name description modules)) ->
  Forall one_part segs.
Proof.
  intros Hpkg Hmods. rewrite artifact_paths. intros H.
  assert (P : one_part (to_snake_case project_name))
    by (apply snake_one_part; [apply to_snake_case_chars|exact Hpkg]).
  apply in_app_or in H as [H|H]; [|apply in_app_or in H as [H|H]].
  - cbn [In] in H.
    destruct H as [<-|[<-|[<-|[<-|[<-|[<-|[<-|[<-|[<-|[<-|[<-|[<-|[]
      ]]]]]]]]]]]]; one_parts.
  - apply in_flat_map in H as (m & Hm & H). cbn [In] in H.
    assert (Q : one_part (to_snake_case m))
      by (apply snake_one_part; [apply to_snake_case_chars|auto]).
    destruct H as [<-|[<-|[<-|[]]]]; one_parts.
  - cbn [In] in H. destruct H as [<-|[<-|[<-|[]]]]; one_parts.
Qed.

Lemma NoDup_map_in (A B : Type) (f : A -> B) (l : list A) :
  (forall a b, In a l -> In b l -> f a = f b -> a = b) ->
  NoDup l -> NoDup (map f l).
Proof.
  induction l as [|x l IH]; intros Hinj Hn; [constructor|].
  inversion Hn as [|? ? Hx Hl]; subst. simpl. constructor.
  - intros Hin. apply in_map_iff in Hin as (y & E & Hy).
    assert (y = x) by (apply Hinj; [right; exact Hy|left; reflexivity|exact E]).
    subst y. contradiction.
  - apply IH; [|exact Hl]. intros a b Ha Hb. apply Hinj; right; assumption.
Qed.

Lemma NoDup_map_same (A B : Type) (f : A -> B) (l : list A) a b :
  NoDup (map f l) -> In a l -> In b l -> f a = f b -> a = b.
Proof.
  induction l as [|x l IH]; intros Hn Ha Hb E; [contradiction|].
  simpl in Hn. inversion Hn as [|? ? Hx Hl]; subst.
  destruct Ha as [<-|Ha]; destruct Hb as [<-|Hb]; auto.
  - exfalso. apply Hx. rewrite E. apply in_map, Hb.
  - exfalso. apply Hx. rewrite <- E. apply in_map, Ha.
Qed.

Lemma is_valid_module_nonempty m :
  is_valid_module m = true -> to_snake_case m <> [].
Proof.
  unfold is_valid_module. rewrite validate_module_name_ok.
  unfold snake_name_ok. intros H E. rewrite E in H. discriminate H.
Qed.

Lemma validate_modules_ok_facts modules :
  fst (validate_modules modules) = true ->
  (forall m, In m modules -> to_snake_case m <> []) /\
  NoDup (map to_snake_case modules).
Proof.
  intros H.
  assert (L : validate_modules_loop [] modules = []).
  { unfold validate_modules in H. simpl in H. rewrite length_map in H.
    destruct (validate_modules_loop [] modules); [reflexivity|].
    discriminate H. }
  apply validate_modules_loop_nil_iff in L as (Hv & Hn & _).
  split; [|exact Hn]. intros m Hm. apply is_valid_module_nonempty, Hv, Hm.
Qed.

Lemma artifact_places_distinct h project_name description modules pp :
  to_snake_case project_name <> [] ->
  to_snake_case project_name <> lit "test" ->
  to_snake_case project_name <> lit "config" ->
  (forall m, In m modules -> to_snake_case m <> []) ->
  NoDup (map to_snake_case modules) ->
  NoDup (map (fun a => under pp (fst a))
           (project_artifacts h project_name description modules)).
Proof.
  intros Hpkg Ht Hc Hm Hn.
  rewrite <- (map_map fst (under pp)).
  apply NoDup_map_in.
  - intros a b Ha Hb E.
    rewrite (under_one_parts a pp), (under_one_parts b pp) in E
      by (eapply artifact_segments_one_part; eassumption).
    apply app_inv_head in E. exact E.
  - rewrite artifact_paths.
    apply (all_paths_distinct (to_snake_case project_name) modules Ht Hc Hn).
Qed.

(** X20. When the package name is neither [test] nor [config] and the
    module list passed [validate_modules], no two artifacts are written
    to the same path: nothing that [main] generates overwrites something
    else it generated. *)
Theorem artifact_paths_distinct (h : host)
  (project_name description : pystr) (modules : list pystr) :
  let pp := path_join (cwd h) (to_kebab_case project_name) in
  to_kebab_case project_name <> [] ->
  to_snake_case project_name <> lit "test" ->
  to_snake_case project_name <> lit "config" ->
  fst (validate_modules modules) = true ->
  NoDup (map (fun a => under pp (fst a))
           (project_artifacts h project_name description modules)).
Proof.
  intros pp Hk Ht Hc Hv.
  destruct (validate_modules_ok_facts modules Hv) as [Hm Hn].
  apply artifact_places_distinct; auto.
  apply kebab_nonempty_snake_nonempty, Hk.
Qed.

Lemma artifact_paths_distinct_witness :
  NoDup (map (fun a => under [lit "home"; lit "dev"; lit "my-cool-api"] (fst a))
           (project_artifacts (example_host 2025) (lit "My Cool API!!")
              (lit "A demo") [lit "users"; lit "auth"])).
Proof.
  refine (artifact_paths_distinct (example_host 2025) (lit "My Cool API!!")
            (lit "A demo") [lit "users"; lit "auth"] _ _ _ _).
  - vm_compute. discriminate.
  - vm_compute. discriminate.
  - vm_compute. discriminate.
  - reflexivity.
Defined.

(** Without the condition on the package name two artifacts can share a
    path: in a project named [test], the source of a module [test_x] and
    the tests of a module [x] are both [test/test_x.py]. *)
Example artifacts_collide_in_test_project :
  let modules := [lit "x"; lit "test_x"] in
  let paths :=
    map fst (project_artifacts (example_host 2025) (lit "test") (lit "A demo")
               modules) in
  fst (validate_project_name (example_host 2025) empty_fs (lit "test") true)
  = true /\
  fst (validate_modules modules) = true /\
  nth 14 paths [] = [lit "test"; lit "test_x.py"] /\
  nth 15 paths [] = [lit "test"; lit "test_x.py"].
Proof. repeat split; reflexivity. Qed.

(** ** The build: what is in the files afterwards *)

Lemma write_file_read fs p content fs' :
  write_file fs p content = Some fs' -> fs' p = Some (File content).
Proof.
  intros H.
  destruct (write_file_inv _ _ _ _ H) as (f1 & _ & _ & _ & _ & ->).
  apply fs_put_same.
Qed.

(** When every write to [p] in a run that went through writes [c], the
    file at [p] holds [c] at the end. *)
Lemma run_ops_written ops p c : forall fs fs',
  run_ops fs ops = (true, fs') ->
  (forall c', In (WriteFile p c') ops -> c' = c) ->
  In (WriteFile p c) ops \/ fs p = Some (File c) ->
  fs' p = Some (File c).
Proof.
  induction ops as [|op rest IH]; intros fs fs' H Hu Hin; simpl in H.
  - injection H as <-. destruct Hin as [[]|Hin]. exact Hin.
  - destruct (run_op fs op) as [f1|] eqn:E; [|discriminate].
    apply (IH f1 fs' H); [intros c' Hc'; apply Hu; right; exact Hc'|].
    destruct op as [p0|p0 c0].
    + destruct Hin as [[Hop|Hin]|Hin]; [discriminate Hop|auto|].
      right. eapply (run_op_keeps fs (MakeDir p0)); [exact E|exact I|].
      exact Hin.
    + destruct (list_eq_dec (list_eq_dec N.eq_dec) p0 p) as [->|Hne].
      * right. rewrite (Hu c0 (or_introl eq_refl)) in E.
        apply (write_file_read fs p c f1 E).
      * destruct Hin as [[Hop|Hin]|Hin]; [congruence|auto|].
        right. eapply (run_op_keeps fs (WriteFile p0 c0)); [exact E| |].
        -- simpl. congruence.
        -- exact Hin.
Qed.

Lemma build_built_with inspire h fs project_name description modules fs' :
  build_with inspire h fs project_name description modules = (Built, fs') ->
  run_ops fs
    (build_plan_with inspire h
       (path_join (cwd h) (to_kebab_case project_name))
       project_name description modules)
  = (true, fs').
Proof.
  unfold build_with.
  destruct (fs_exists fs (path_join (cwd h) (to_kebab_case project_name)));
    [discriminate|].
  destruct (run_ops fs _) as [[|] f]; [|discriminate].
  intros H. injection H as <-. reflexivity.
Qed.

(** X21. After a build that went through, with or without [--inspire],
    when the package name is neither [test] nor [config] and the module
    list passed [validate_modules], every file of the build is on disk
    with the content that was written: what its generator returned, and
    for [README.md] under [--inspire] the text that came back from
    [enhance_readme_with_openai]. *)
Theorem artifacts_on_disk (inspire : option pystr) (h : host)
  (fs : filesystem) (project_name description : pystr)
  (modules : list pystr) :
  let pp := path_join (cwd h) (to_kebab_case project_name) in
  to_kebab_case project_name <> [] ->
  to_snake_case project_name <> lit "test" ->
  to_snake_case project_name <> lit "config" ->
  fst (validate_modules modules) = true ->
  fst (build_with inspire h fs project_name description modules) = Built ->
  forall segs content,
    In (segs, content)
       (project_artifacts_with inspire h project_name description modules) ->
    snd (build_with inspire h fs project_name description modules)
      (pp ++ segs)
    = Some (File content).
Proof.
  intros pp Hk Ht Hc Hv Hb segs content Hin.
  destruct (validate_modules_ok_facts modules Hv) as [Hm Hn].
  pose proof (kebab_nonempty_snake_nonempty _ Hk) as Hpkg.
  assert (D : NoDup (map (fun a => under pp (fst a))
                       (project_artifacts_with inspire h project_name
                          description modules))).
  { rewrite <- (map_map fst (under pp)), artifact_paths_with,
      (map_map fst (under pp)).
    apply (artifact_places_distinct h project_name description modules
             pp Hpkg Ht Hc Hm Hn). }
  assert (B : build_with inspire h fs project_name description modules
              = (Built,
                 snd (build_with inspire h fs project_name description
                        modules))).
  { rewrite <- Hb. apply surjective_pairing. }
  apply build_built_with in B. fold pp in B.
  assert (U : under pp segs = pp ++ segs).
  { apply under_one_parts.
    apply (artifact_segments_one_part h project_name description modules);
      auto.
    rewrite <- (artifact_paths_with inspire).
    apply (in_map fst) in Hin. exact Hin. }
  rewrite <- U.
  apply (run_ops_written _ (under pp segs) content _ _ B).
  - intros c' Hc'. unfold build_plan_with in Hc'.
    destruct Hc' as [Hc'|Hc']; [discriminate Hc'|].
    apply in_app_or in Hc' as [Hc'|Hc'].
    + apply in_map_iff in Hc' as (d & E & _). discriminate E.
    + apply in_map_iff in Hc' as (a & E & Ha). injection E as E1 E2.
      assert (a = (segs, content)).
      { apply (NoDup_map_same _ _ (fun a => under pp (fst a)) _ _ _ D Ha Hin).
        exact E1. }
      subst a. symmetry. exact E2.
  - left. unfold build_plan_with. right. apply in_or_app. right.
    apply (in_map (fun a => WriteFile (under pp (fst a)) (snd a))) in Hin.
    exact Hin.
Qed.

Lemma artifacts_on_disk_witness :
  let h := example_host 2025 in
  let inspire := Some (lit "# My Cool API, as the model tells it") in
  snd (build_with inspire h empty_fs (lit "My Cool API!!") (lit "A demo")
         [lit "users"; lit "auth"])
    [lit "home"; lit "dev"; lit "my-cool-api"; lit "README.md"]
  = Some (File (Text (lit "# My Cool API, as the model tells it"))).
Proof.
  intros h inspire.
  refine (artifacts_on_disk inspire h empty_fs (lit "My Cool API!!")
            (lit "A demo") [lit "users"; lit "auth"] _ _ _ _ _
            [lit "README.md"]
            (Text (lit "# My Cool API, as the model tells it")) _).
  - vm_compute. discriminate.
  - vm_compute. discriminate.
  - vm_compute. discriminate.
  - reflexivity.
  - vm_compute. reflexivity.
  - unfold project_artifacts_with. apply in_or_app. left. cbn [In].
    left. reflexivity.
Defined.

(** ** From the extracted modules to the modules of the build *)

Lemma extracted_modules_shape modules_text :
  Forall entry_shape (extracted_modules modules_text).
Proof.
  apply Forall_forall. intros m Hm. unfold extracted_modules in Hm.
  apply filter_In in Hm as [Hm _]. exact (parsed_entry_shape _ m Hm).
Qed.

Lemma join_nonempty sep x l : x <> [] -> join sep (x :: l) <> [].
Proof.
  intros Hx. destruct l as [|y l]; simpl; [exact Hx|].
  destruct x; [contradiction|discriminate].
Qed.

Lemma get_user_input_default d :
  d <> [] -> get_user_input [] (Some d) = d.
Proof. intros Hd. destruct d; [contradiction|reflexivity]. Qed.

(** X22. When the user accepts the default that [main] proposes after
    the extraction (an empty answer), [main] works on exactly the modules
    that the extraction kept, or on [users] and [auth] when it kept
    none; and [validate_modules] refuses the kept modules only when two
    of them have the same canonical name, which the extraction does not
    check. *)
Theorem extracted_modules_reach_main (modules_text : pystr) :
  let kept := extracted_modules modules_text in
  parse_modules (get_user_input [] (Some (default_modules kept)))
  = match kept with
    | [] => [lit "users"; lit "auth"]
    | _ :: _ => kept
    end /\
  (fst (validate_modules kept) = true <-> NoDup (map to_snake_case kept)) /\
  invalid_errors (validate_modules_loop [] kept) = [].
Proof.
  intros kept. pose proof (extracted_modules_shape modules_text) as S.
  assert (V : forall m, In m kept -> is_valid_module m = true).
  { intros m Hm. unfold kept, extracted_modules in Hm.
    apply filter_In in Hm as [_ Hm]. exact Hm. }
  fold kept in S. split; [|split].
  - destruct kept as [|x l] eqn:K; [reflexivity|].
    unfold default_modules. rewrite get_user_input_default.
    + apply parse_join_back, S.
    + apply join_nonempty. inversion S as [|? ? Hx _]; subst. apply Hx.
  - assert (O : fst (validate_modules kept) = true <->
                validate_modules_loop [] kept = []).
    { unfold validate_modules. simpl. rewrite length_map.
      destruct (validate_modules_loop [] kept); simpl; split;
        intros E; try discriminate E; reflexivity. }
    rewrite O, validate_modules_loop_nil_iff. split.
    + intros (_ & Hn & _). exact Hn.
    + intros Hn. split; [exact V|split; [exact Hn|]]. intros m _ [].
  - rewrite loop_invalid_errors.
    replace (filter (fun m => negb (is_valid_module m)) kept) with
      (@nil pystr); [reflexivity|].
    symmetry. apply filter_nil_iff. intros m Hm. rewrite (V m Hm).
    reflexivity.
Qed.

(** The extraction keeps names that differ only in case, and [main]
    then stops on its own default. *)
Example extracted_duplicates_stop_main :
  let kept := extracted_modules (lit " auth, Users ,Auth ,2fa") in
  kept = [lit "auth"; lit "Users"; lit "Auth"] /\
  fst (main (example_host 2025) empty_fs (lit "demo")
         (get_user_input [] (Some (default_modules kept))) (lit "A demo"))
  = Exit1 (ModulesInvalid
             [lit "'Auth': Duplicate module name (converts to 'auth')"]).
Proof. split; reflexivity. Qed.

(** ** The build goes through on a clean place *)





Lemma filelike_above_dirlike pp w q :
  filelike pp w -> dirlike pp q -> is_prefix w q = true -> False.
Proof.
  intros (ds & f & -> & _ & Hf) (ds' & -> & Hd) P.
  apply is_prefix_iff in P as [r P].
  rewrite <- !app_assoc in P. apply app_inv_head in P. subst ds'.
  rewrite !forallb_app in Hd. simpl in Hd.
  apply andb_true_iff in Hd as [_ Hd]. apply andb_true_iff in Hd as [Hd _].
  apply andb_true_iff in Hd as [Hd _]. congruence.
Qed.






(** *** The paths of the build have these shapes *)

Lemma snake_head_not_slash s :
  forallb snake_char s = true -> head_is is_slash s = false.
Proof.
  destruct s as [|c t]; [reflexivity|]. simpl. intros H.
  apply andb_true_iff in H as [H _]. apply snake_char_not_slash, H.
Qed.

Lemma snake_parts s :
  forallb snake_char s = true -> forallb dir_name (path_parts s) = true.
Proof.
  intros H. destruct s as [|c t] eqn:E; [reflexivity|].
  destruct (snake_one_part (c :: t) H) as [_ ->]; [discriminate|].
  change (dir_name (c :: t) && true = true). unfold dir_name.
  rewrite H. reflexivity.
Qed.

Lemma snake_segments_parts segs :
  Forall (fun s => forallb snake_char s = true) segs ->
  Forall (fun s => head_is is_slash s = false) segs /\
  forallb dir_name (flat_map path_parts segs) = true.
Proof.
  induction 1 as [|s segs Hs _ [IH1 IH2]]; [split; [constructor|reflexivity]|].
  split.
  - constructor; [apply snake_head_not_slash, Hs|exact IH1].
  - cbn [flat_map]. rewrite forallb_app, (snake_parts s Hs), IH2.
    reflexivity.
Qed.

Lemma snake_segments_dirlike pp segs :
  Forall (fun s => forallb snake_char s = true) segs ->
  dirlike pp (under pp segs).
Proof.
  intros H. destruct (snake_segments_parts segs H) as [H1 H2].
  exists (flat_map path_parts segs). split; [apply under_rel, H1|exact H2].
Qed.

Lemma file_segments_filelike pp segs :
  segs <> [] ->
  Forall (fun s => forallb snake_char s = true) (removelast segs) ->
  one_part (last segs []) -> dir_name (last segs []) = false ->
  filelike pp (under pp segs).
Proof.
  intros Hne Hd [Hh Hp] Hf.
  destruct (snake_segments_parts _ Hd) as [H1 H2].
  exists (flat_map path_parts (removelast segs)), (last segs []).
  split; [|auto].
  rewrite (app_removelast_last [] Hne) at 1. unfold under.
  rewrite fold_left_app. cbn [fold_left].
  rewrite (path_join_rel _ _ Hh), Hp, app_assoc. f_equal.
  apply (under_rel _ pp H1).
Qed.

Lemma module_file_not_dir_name (prefix : pystr) m :
  dir_name (prefix ++ to_snake_case m ++ lit ".py") = false.
Proof.
  unfold dir_name. rewrite !forallb_app.
  apply andb_false_iff. right. apply andb_false_iff. right. reflexivity.
Qed.

Ltac snake_segments :=
  repeat (constructor;
          [first [reflexivity | apply to_snake_case_chars]|]);
  constructor.

Ltac file_shape :=
  apply file_segments_filelike; cbn [removelast last];
  [ discriminate
  | snake_segments
  | first [ apply literal_one_part; reflexivity
          | apply (module_file_one_part []); reflexivity
          | apply (module_file_one_part (lit "test_")); reflexivity ]
  | first [ reflexivity
          | apply (module_file_not_dir_name [])
          | apply (module_file_not_dir_name (lit "test_")) ] ].

Lemma directory_shape pp project_name modules segs :
  In segs (project_directories (to_snake_case project_name) modules) ->
  dirlike pp (under pp segs).
Proof.
  intros H. apply snake_segments_dirlike. unfold project_directories in H.
  apply in_app_or in H as [H|H].
  - cbn [In] in H.
    destruct H as [<-|[<-|[<-|[<-|[<-|[<-|[<-|[]]]]]]]]; snake_segments.
  - apply in_map_iff in H as (m & <- & _). snake_segments.
Qed.

Lemma artifact_shape pp h project_name description modules segs :
  In segs (map fst (project_artifacts h project_name description modules)) ->
  filelike pp (under pp segs).
Proof.
  rewrite artifact_paths. intros H.
  apply in_app_or in H as [H|H]; [|apply in_app_or in H as [H|H]].
  - cbn [In] in H.
    destruct H as [<-|[<-|[<-|[<-|[<-|[<-|[<-|[<-|[<-|[<-|[<-|[<-|[]
      ]]]]]]]]]]]]; file_shape.
  - apply in_flat_map in H as (m & _ & H). cbn [In] in H.
    destruct H as [<-|[<-|[<-|[]]]]; file_shape.
  - cbn [In] in H. destruct H as [<-|[<-|[<-|[]]]]; file_shape.
Qed.

Lemma build_plan_shaped inspire h project_name description modules op :
  let pp := path_join (cwd h) (to_kebab_case project_name) in
  In op (build_plan_with inspire h pp project_name description modules) ->
  op_shaped pp op.
Proof.
  intros pp H. unfold build_plan_with in H. destruct H as [<-|H].
  - exists []. split; [symmetry; apply app_nil_r|reflexivity].
  - apply in_app_or in H as [H|H]; apply in_map_iff in H as (x & <- & Hx).
    + apply (directory_shape pp project_name modules), Hx.
    + apply (artifact_shape pp h project_name description modules).
      rewrite <- (artifact_paths_with inspire). apply in_map, Hx.
Qed.

(** X23. Whatever the project name, the modules and [--inspire], the
    build never needs one path both as a file and as a directory: no
    file that it writes sits at a directory that it makes or above one,
    nor above another file that it writes.  An operation of the build
    at or below the path of one of its files is a write to that very
    path. *)
Theorem build_paths_consistent (inspire : option pystr) (h : host)
  (project_name description : pystr) (modules : list pystr) :
  let pp := path_join (cwd h) (to_kebab_case project_name) in
  let plan :=
    build_plan_with inspire h pp project_name description modules in
  forall p content op,
    In (WriteFile p content) plan -> In op plan ->
    is_prefix p (op_path op) = true ->
    exists content', op = WriteFile p content'.
Proof.
  intros pp plan p content op Hw Hop P.
  pose proof (build_plan_shaped inspire h project_name description modules
                _ Hw) as Sw.
  pose proof (build_plan_shaped inspire h project_name description modules
                _ Hop) as So.
  fold pp in Sw, So. simpl in Sw.
  destruct op as [q|q c]; simpl in So, P.
  - exfalso. exact (filelike_above_dirlike pp p q Sw So P).
  - exists c. f_equal.
    destruct Sw as (ds & f & -> & Hd & Hf).
    destruct So as (ds' & f' & -> & Hd' & Hf').
    apply is_prefix_iff in P as [r P].
    rewrite <- !app_assoc in P. apply app_inv_head in P.
    destruct r as [|x r].
    + rewrite app_nil_r in P. rewrite P. reflexivity.
    + exfalso.
      assert (I : In f ds').
      { change (ds ++ [f] ++ x :: r) with (ds ++ f :: x :: r) in P.
        assert (L : removelast (ds' ++ [f']) = removelast (ds ++ f :: x :: r))
          by (rewrite P; reflexivity).
        rewrite removelast_last in L. rewrite L.
        rewrite removelast_app by discriminate.
        apply in_or_app. right. left. reflexivity. }
      rewrite forallb_forall in Hd'. rewrite (Hd' f I) in Hf.
      discriminate Hf.
Qed.

Lemma build_paths_consistent_witness :
  let p := [lit "home"; lit "dev"; lit "docs"; lit "docs"; lit "readme.py"] in
  let content := Text (generate_module_py (lit "readme") (lit "docs")) in
  exists content', WriteFile p content = WriteFile p content'.
Proof.
  intros p content.
  assert (I : In (WriteFile p content)
                (build_plan_with None (example_host 2025)
                   (path_join (cwd (example_host 2025))
                      (to_kebab_case (lit "docs")))
                   (lit "docs") (lit "A demo") [lit "readme"])).
  { unfold build_plan_with. right. apply in_or_app. right.
    apply (in_map (fun a => WriteFile
                              (under [lit "home"; lit "dev"; lit "docs"]
                                 (fst a)) (snd a))
             _ ([lit "docs"; lit "readme.py"], content)).
    unfold project_artifacts_with. apply in_or_app. right.
    apply in_or_app. left. cbn [flat_map module_artifacts In]. left.
    reflexivity. }
  exact (build_paths_consistent None (example_host 2025) (lit "docs")
           (lit "A demo") [lit "readme"] p content (WriteFile p content)
           I I eq_refl).
Defined.




(** *** What the build writes can be encoded *)








Section Encodable.
Variables (project_name description : pystr) (modules : list pystr).
Hypothesis name_ok : utf8_encodable project_name = true.
Hypothesis description_ok : utf8_encodable description = true.
Hypothesis modules_ok : forall m, In m modules -> utf8_encodable m = true.











End Encodable.



(** *** The run on a clean place *)




(** A description with a surrogate stops the run at the first write, and
    leaves the target directory with its subdirectories and an empty
    [README.md]. *)
Example main_crashes_on_surrogate :
  let h := example_host 2025 in
  let r := main h empty_fs (lit "demo") (lit "users")
             (lit "caf" ++ [56553%N]) in
  fst r = Crashed /\
  snd r [lit "home"; lit "dev"; lit "demo"; lit "README.md"]
  = Some (File (Text [])) /\
  snd r [lit "home"; lit "dev"; lit "demo"; lit "docs"; lit "users"]
  = Some Dir /\
  snd r [lit "home"; lit "dev"; lit "demo"; lit "LICENSE"] = None.
Proof. repeat split; vm_compute; reflexivity. Qed.
